(** * Resolution of an ESP SoC topology: identifiers, indices, addresses

    Shallow embedding of [tools/socgen/socmap_gen.py]: the constructor
    [soc_config.__init__] (the single walk over the NoC grid that assigns
    category identifiers, bus indices and interrupt lines) and the parts of
    [print_mapping] / [print_esplink_header] that derive addresses, masks,
    cross-reference tables and the initialization sequence from the
    resolved configuration.

    Conventions.
    - Python integers are [Z]; grid dimensions and tile indices, which
      only ever come out of [range(...)], are [nat].
    - [int(a / b)] on non-negative operands that fit a double is the
      truncating quotient [Z.quot].
    - A Python list indexed out of range raises [IndexError]; this is the
      only exception the modelled code can raise, and it is threaded
      through the [result] monad.
    - Text emitted with [fp.write] is abstracted to the list of
      [(index, value)] associations (or the list of values) it prints.
    - Fields of [soc_config] that are copied from the input and never read
      by the modelled code (tech, linux_mac, noc widths, ...) are left
      out. *)

From Stdlib Require Import ZArith Lia Ascii String Sorting.Sorted.
From stdpp Require Import base numbers list strings.

Local Open Scope Z_scope.

(** ** Platform constants (module level of socmap_gen.py) *)

Definition NAPBS : Z := 512.
Definition NAHBS : Z := 32.
Definition IRQ_LINES : Z := 32.
Definition NCPU_MAX : Z := 16.
Definition NMEM_MAX : Z := 16.
Definition NSLM_MAX : Z := 16.
Definition NFULL_COHERENT_MAX : Z := 16.
Definition NLLC_COHERENT_MAX : Z := 256.
Definition NTILE_MAX : Z := 256.
Definition NACC_MAX : Z := NAPBS - NCPU_MAX - NMEM_MAX - NTILE_MAX - 8.

(** [list(range(a, b))] *)
Definition py_range (a b : Z) : list Z := seqZ a (b - a).

Inductive arch := leon3 | ariane | ibex.

Definition DDR_HINDEX : list Z := py_range 4 (4 + NMEM_MAX).
Definition SLM_HINDEX : Z := 20.

Definition DDR_HADDR (a : arch) : Z :=
  match a with leon3 => 0x400 | ariane => 0x800 | ibex => 0x800 end.

(** Initial value of the module-level global [SLM_HADDR]; [print_mapping]
    overwrites it, see [slm_haddr_global]. *)
Definition SLM_HADDR : Z := 0x040.
Definition DDR_SIZE : Z := 0x400.

Definition DVFS_PINDEX : list Z := [5; 6; 7; 8].
Definition L2_CACHE_PIRQ : Z := 3.
Definition L2_CACHE_PINDEX : list Z := py_range 8 (8 + NCPU_MAX).
Definition LLC_CACHE_PIRQ : Z := 4.
Definition LLC_CACHE_PINDEX : list Z := py_range 24 (24 + NMEM_MAX).
Definition CSR_PINDEX : list Z := py_range 40 (40 + NTILE_MAX).
Definition SLD_APB_PINDEX : Z := 40 + NTILE_MAX.

(** ** Exceptions *)

Inductive exn := IndexError.

Inductive result (A : Type) :=
| Ok (a : A)
| Raise (e : exn).
Arguments Ok {A} a.
Arguments Raise {A} e.

#[global] Instance result_ret : MRet result := fun A a => Ok a.
#[global] Instance result_bind : MBind result := fun A B f m =>
  match m with
  | Ok a => f a
  | Raise e => Raise e
  end.

(** [l[i]] with Python's negative indices. *)
Definition py_index {A} (l : list A) (i : Z) : result A :=
  let n := Z.of_nat (length l) in
  let j := if 0 <=? i then i else n + i in
  if (0 <=? j) && (j <? n)
  then match l !! Z.to_nat j with Some a => Ok a | None => Raise IndexError end
  else Raise IndexError.

(** [int(a / b)] *)
Definition py_int_div (a b : Z) : Z := Z.quot a b.

(** [s.lower()] on ASCII text *)
Definition lower_ascii (c : ascii) : ascii :=
  let n := nat_of_ascii c in
  if (65 <=? n)%nat && (n <=? 90)%nat then ascii_of_nat (n + 32) else c.

Fixpoint lower (s : string) : string :=
  match s with
  | EmptyString => EmptyString
  | String c s' => String (lower_ascii c) (lower s')
  end.

(** ** Data model *)

Module acc_info.
Record t := mk {
  uppercase_name : string;
  lowercase_name : string;
  vendor : string;
  id : Z;
  idx : Z;
  irq : Z
}.
(** class-level defaults, i.e. what [acc_info()] returns *)
Definition new : t := mk "" "" "" (-1) (-1) 5.
End acc_info.

Module cache_info.
Record t := mk {
  id : Z;
  idx : Z
}.
Definition new : t := mk (-1) (-1).
End cache_info.

Inductive tile_type :=
| ty_empty | ty_cpu | ty_slm | ty_slmddr | ty_mem | ty_misc | ty_acc.

#[global] Instance tile_type_eq_dec : EqDecision tile_type.
Proof. solve_decision. Defined.

Module tile_info.

Record t := mk {
  type : tile_type;
  x : Z;
  y : Z;
  row : nat;
  col : nat;
  cpu_id : Z;
  mem_id : Z;
  slm_id : Z;
  slmddr_id : Z;
  l2 : cache_info.t;
  llc : cache_info.t;
  dvfs : cache_info.t;
  acc : acc_info.t;
  has_l2 : Z;
  has_tdvfs : Z;
  has_ddr : Z;
  design_point : Z
}.

Definition set_type (v : tile_type) (r : t) : t :=
  mk v (x r) (y r) (row r) (col r) (cpu_id r) (mem_id r) (slm_id r)
     (slmddr_id r) (l2 r) (llc r) (dvfs r) (acc r) (has_l2 r) (has_tdvfs r)
     (has_ddr r) (design_point r).

Definition set_row (v : nat) (r : t) : t :=
  mk (type r) (x r) (y r) v (col r) (cpu_id r) (mem_id r) (slm_id r)
     (slmddr_id r) (l2 r) (llc r) (dvfs r) (acc r) (has_l2 r) (has_tdvfs r)
     (has_ddr r) (design_point r).

Definition set_col (v : nat) (r : t) : t :=
  mk (type r) (x r) (y r) (row r) v (cpu_id r) (mem_id r) (slm_id r)
     (slmddr_id r) (l2 r) (llc r) (dvfs r) (acc r) (has_l2 r) (has_tdvfs r)
     (has_ddr r) (design_point r).

Definition set_cpu_id (v : Z) (r : t) : t :=
  mk (type r) (x r) (y r) (row r) (col r) v (mem_id r) (slm_id r)
     (slmddr_id r) (l2 r) (llc r) (dvfs r) (acc r) (has_l2 r) (has_tdvfs r)
     (has_ddr r) (design_point r).

Definition set_mem_id (v : Z) (r : t) : t :=
  mk (type r) (x r) (y r) (row r) (col r) (cpu_id r) v (slm_id r)
     (slmddr_id r) (l2 r) (llc r) (dvfs r) (acc r) (has_l2 r) (has_tdvfs r)
     (has_ddr r) (design_point r).

Definition set_slm_id (v : Z) (r : t) : t :=
  mk (type r) (x r) (y r) (row r) (col r) (cpu_id r) (mem_id r) v
     (slmddr_id r) (l2 r) (llc r) (dvfs r) (acc r) (has_l2 r) (has_tdvfs r)
     (has_ddr r) (design_point r).

Definition set_slmddr_id (v : Z) (r : t) : t :=
  mk (type r) (x r) (y r) (row r) (col r) (cpu_id r) (mem_id r) (slm_id r) v
     (l2 r) (llc r) (dvfs r) (acc r) (has_l2 r) (has_tdvfs r) (has_ddr r)
     (design_point r).

Definition set_l2 (v : cache_info.t) (r : t) : t :=
  mk (type r) (x r) (y r) (row r) (col r) (cpu_id r) (mem_id r) (slm_id r)
     (slmddr_id r) v (llc r) (dvfs r) (acc r) (has_l2 r) (has_tdvfs r)
     (has_ddr r) (design_point r).

Definition set_llc (v : cache_info.t) (r : t) : t :=
  mk (type r) (x r) (y r) (row r) (col r) (cpu_id r) (mem_id r) (slm_id r)
     (slmddr_id r) (l2 r) v (dvfs r) (acc r) (has_l2 r) (has_tdvfs r)
     (has_ddr r) (design_point r).

Definition set_acc (v : acc_info.t) (r : t) : t :=
  mk (type r) (x r) (y r) (row r) (col r) (cpu_id r) (mem_id r) (slm_id r)
     (slmddr_id r) (l2 r) (llc r) (dvfs r) v (has_l2 r) (has_tdvfs r)
     (has_ddr r) (design_point r).

Definition set_has_l2 (v : Z) (r : t) : t :=
  mk (type r) (x r) (y r) (row r) (col r) (cpu_id r) (mem_id r) (slm_id r)
     (slmddr_id r) (l2 r) (llc r) (dvfs r) (acc r) v (has_tdvfs r)
     (has_ddr r) (design_point r).

Definition set_has_tdvfs (v : Z) (r : t) : t :=
  mk (type r) (x r) (y r) (row r) (col r) (cpu_id r) (mem_id r) (slm_id r)
     (slmddr_id r) (l2 r) (llc r) (dvfs r) (acc r) (has_l2 r) v (has_ddr r)
     (design_point r).

Definition set_has_ddr (v : Z) (r : t) : t :=
  mk (type r) (x r) (y r) (row r) (col r) (cpu_id r) (mem_id r) (slm_id r)
     (slmddr_id r) (l2 r) (llc r) (dvfs r) (acc r) (has_l2 r) (has_tdvfs r)
     v (design_point r).

Definition set_design_point (v : Z) (r : t) : t :=
  mk (type r) (x r) (y r) (row r) (col r) (cpu_id r) (mem_id r) (slm_id r)
     (slmddr_id r) (l2 r) (llc r) (dvfs r) (acc r) (has_l2 r) (has_tdvfs r)
     (has_ddr r) v.

(** [tile_info()]: every attribute still has its class-level default;
    [row], [col] and [has_ddr] do not exist before the walk sets them. *)
Definition new : t :=
  mk ty_empty 0 0 0%nat 0%nat (-1) (-1) (-1) (-1)
     cache_info.new cache_info.new cache_info.new acc_info.new 0 0 0 0.
End tile_info.

(** One cell of [soc.noc.topology]: the declared role and its flags. *)
Module noc_tile.
Record t := mk {
  ip_type : string;
  point : Z;
  has_l2 : Z;
  has_tdvfs : Z;
  has_ddr : Z;
  vendor : string
}.
End noc_tile.

(** The topology input [soc].  The counting helpers [soc.noc.get_*_num]
    and [soc.noc.has_dvfs] live outside this file; their results are
    taken as given. *)
Module soc.
Record t := mk {
  CPU_ARCH : arch;
  rows : nat;
  cols : nat;
  topology : nat -> nat -> noc_tile.t;
  ACCELERATORS : list string;
  cache_en : Z;
  slm_kbytes : Z;
  get_cpu_num : Z;
  get_mem_num : Z;
  get_slm_num : Z;
  get_slmddr_num : Z;
  get_acc_num : Z;
  has_dvfs : bool
}.
End soc.

Module soc_config.

Record t := mk {
  cpu_arch : arch;
  ncpu : Z;
  nacc : Z;
  nmem : Z;
  nslm : Z;
  slm_kbytes : Z;
  slm_tot_kbytes : Z;
  slm_full_mask : Z;
  nslmddr : Z;
  slmddr_kbytes : Z;
  slmddr_tot_kbytes : Z;
  slmddr_full_mask : Z;
  ntiles : nat;
  coherence : bool;
  has_dvfs : bool;
  ndvfs : Z;
  nl2 : Z;
  nllc : Z;
  ncdma : Z;
  nthirdparty : Z;
  accelerators : list acc_info.t;
  l2s : list cache_info.t;
  llcs : list cache_info.t;
  dvfs_ctrls : list cache_info.t;
  tiles : list tile_info.t
}.

Definition set_nl2 (v : Z) (r : t) : t :=
  mk (cpu_arch r) (ncpu r) (nacc r) (nmem r) (nslm r) (slm_kbytes r)
     (slm_tot_kbytes r) (slm_full_mask r) (nslmddr r) (slmddr_kbytes r)
     (slmddr_tot_kbytes r) (slmddr_full_mask r) (ntiles r) (coherence r)
     (has_dvfs r) (ndvfs r) v (nllc r) (ncdma r) (nthirdparty r)
     (accelerators r) (l2s r) (llcs r) (dvfs_ctrls r) (tiles r).

Definition set_nthirdparty (v : Z) (r : t) : t :=
  mk (cpu_arch r) (ncpu r) (nacc r) (nmem r) (nslm r) (slm_kbytes r)
     (slm_tot_kbytes r) (slm_full_mask r) (nslmddr r) (slmddr_kbytes r)
     (slmddr_tot_kbytes r) (slmddr_full_mask r) (ntiles r) (coherence r)
     (has_dvfs r) (ndvfs r) (nl2 r) (nllc r) (ncdma r) v (accelerators r)
     (l2s r) (llcs r) (dvfs_ctrls r) (tiles r).

Definition set_accelerators (v : list acc_info.t) (r : t) : t :=
  mk (cpu_arch r) (ncpu r) (nacc r) (nmem r) (nslm r) (slm_kbytes r)
     (slm_tot_kbytes r) (slm_full_mask r) (nslmddr r) (slmddr_kbytes r)
     (slmddr_tot_kbytes r) (slmddr_full_mask r) (ntiles r) (coherence r)
     (has_dvfs r) (ndvfs r) (nl2 r) (nllc r) (ncdma r) (nthirdparty r) v
     (l2s r) (llcs r) (dvfs_ctrls r) (tiles r).

Definition set_l2s (v : list cache_info.t) (r : t) : t :=
  mk (cpu_arch r) (ncpu r) (nacc r) (nmem r) (nslm r) (slm_kbytes r)
     (slm_tot_kbytes r) (slm_full_mask r) (nslmddr r) (slmddr_kbytes r)
     (slmddr_tot_kbytes r) (slmddr_full_mask r) (ntiles r) (coherence r)
     (has_dvfs r) (ndvfs r) (nl2 r) (nllc r) (ncdma r) (nthirdparty r)
     (accelerators r) v (llcs r) (dvfs_ctrls r) (tiles r).

Definition set_llcs (v : list cache_info.t) (r : t) : t :=
  mk (cpu_arch r) (ncpu r) (nacc r) (nmem r) (nslm r) (slm_kbytes r)
     (slm_tot_kbytes r) (slm_full_mask r) (nslmddr r) (slmddr_kbytes r)
     (slmddr_tot_kbytes r) (slmddr_full_mask r) (ntiles r) (coherence r)
     (has_dvfs r) (ndvfs r) (nl2 r) (nllc r) (ncdma r) (nthirdparty r)
     (accelerators r) (l2s r) v (dvfs_ctrls r) (tiles r).

Definition set_tiles (v : list tile_info.t) (r : t) : t :=
  mk (cpu_arch r) (ncpu r) (nacc r) (nmem r) (nslm r) (slm_kbytes r)
     (slm_tot_kbytes r) (slm_full_mask r) (nslmddr r) (slmddr_kbytes r)
     (slmddr_tot_kbytes r) (slmddr_full_mask r) (ntiles r) (coherence r)
     (has_dvfs r) (ndvfs r) (nl2 r) (nllc r) (ncdma r) (nthirdparty r)
     (accelerators r) (l2s r) (llcs r) (dvfs_ctrls r) v.

End soc_config.

Module walk.

Record t := mk {
  cpu_id : Z;
  cpu_dvfs_id : Z;
  acc_l2_id : Z;
  llc_id : Z;
  mem_id : Z;
  slm_id : Z;
  slmddr_id : Z;
  acc_id : Z;
  acc_irq : Z;
  self : soc_config.t
}.

Definition set_cpu_id (v : Z) (r : t) : t :=
  mk v (cpu_dvfs_id r) (acc_l2_id r) (llc_id r) (mem_id r) (slm_id r)
     (slmddr_id r) (acc_id r) (acc_irq r) (self r).

Definition set_acc_l2_id (v : Z) (r : t) : t :=
  mk (cpu_id r) (cpu_dvfs_id r) v (llc_id r) (mem_id r) (slm_id r)
     (slmddr_id r) (acc_id r) (acc_irq r) (self r).

Definition set_llc_id (v : Z) (r : t) : t :=
  mk (cpu_id r) (cpu_dvfs_id r) (acc_l2_id r) v (mem_id r) (slm_id r)
     (slmddr_id r) (acc_id r) (acc_irq r) (self r).

Definition set_mem_id (v : Z) (r : t) : t :=
  mk (cpu_id r) (cpu_dvfs_id r) (acc_l2_id r) (llc_id r) v (slm_id r)
     (slmddr_id r) (acc_id r) (acc_irq r) (self r).

Definition set_slm_id (v : Z) (r : t) : t :=
  mk (cpu_id r) (cpu_dvfs_id r) (acc_l2_id r) (llc_id r) (mem_id r) v
     (slmddr_id r) (acc_id r) (acc_irq r) (self r).

Definition set_slmddr_id (v : Z) (r : t) : t :=
  mk (cpu_id r) (cpu_dvfs_id r) (acc_l2_id r) (llc_id r) (mem_id r)
     (slm_id r) v (acc_id r) (acc_irq r) (self r).

Definition set_acc_id (v : Z) (r : t) : t :=
  mk (cpu_id r) (cpu_dvfs_id r) (acc_l2_id r) (llc_id r) (mem_id r)
     (slm_id r) (slmddr_id r) v (acc_irq r) (self r).

Definition set_acc_irq (v : Z) (r : t) : t :=
  mk (cpu_id r) (cpu_dvfs_id r) (acc_l2_id r) (llc_id r) (mem_id r)
     (slm_id r) (slmddr_id r) (acc_id r) v (self r).

Definition set_self (v : soc_config.t) (r : t) : t :=
  mk (cpu_id r) (cpu_dvfs_id r) (acc_l2_id r) (llc_id r) (mem_id r)
     (slm_id r) (slmddr_id r) (acc_id r) (acc_irq r) v.

End walk.

(** ** The topology walk of [soc_config.__init__]

    [walk.t] holds the local counters of the constructor together with the
    object under construction ([self]). *)

Section Walk.
Variable soc : soc.t.

(** [self.tiles[t].<field> = v] *)
Definition tiles_set (t : nat) (f : tile_info.t -> tile_info.t)
    (st : walk.t) : result walk.t :=
  let self := walk.self st in
  match soc_config.tiles self !! t with
  | Some ti =>
      Ok (walk.set_self
            (soc_config.set_tiles (<[t := f ti]> (soc_config.tiles self)) self)
            st)
  | None => Raise IndexError
  end.

(** [self.tiles[t]] *)
Definition tiles_get (t : nat) (st : walk.t) : result tile_info.t :=
  match soc_config.tiles (walk.self st) !! t with
  | Some ti => Ok ti
  | None => Raise IndexError
  end.

Definition on_self (f : soc_config.t -> soc_config.t) (st : walk.t) : walk.t :=
  walk.set_self (f (walk.self st)) st.

(** [soc.IPs.ACCELERATORS.count(selection)], used as a truth value *)
Definition is_accelerator (selection : string) : bool :=
  negb (count_occ String.string_dec (soc.ACCELERATORS soc) selection =? 0)%nat.

Definition riscv (a : arch) : bool :=
  match a with ariane | ibex => true | leon3 => false end.

(** [if selection == "cpu": ...] *)
Definition assign_cpu (selection : string) (t : nat) (st : walk.t)
    : result walk.t :=
  if String.eqb selection "cpu" then
    st ← tiles_set t (tile_info.set_type ty_cpu) st;
    st ← tiles_set t (tile_info.set_cpu_id (walk.cpu_id st)) st;
    st ← (if soc_config.coherence (walk.self st) then
            idx ← py_index L2_CACHE_PINDEX (walk.cpu_id st);
            let l2 := cache_info.mk (walk.cpu_id st) idx in
            let st := on_self (fun self =>
              soc_config.set_l2s (soc_config.l2s self ++ [l2]) self) st in
            st ← tiles_set t (tile_info.set_l2 l2) st;
            Ok (on_self (fun self =>
              soc_config.set_nl2 (soc_config.nl2 self + 1) self) st)
          else Ok st);
    Ok (walk.set_cpu_id (walk.cpu_id st + 1) st)
  else Ok st.

(** [if selection == "slm" and self.tiles[t].has_ddr == 0: ...] *)
Definition assign_slm (selection : string) (t : nat) (st : walk.t)
    : result walk.t :=
  ti ← (if String.eqb selection "slm" then tiles_get t st
        else Ok tile_info.new);
  if String.eqb selection "slm" && (tile_info.has_ddr ti =? 0) then
    st ← tiles_set t (tile_info.set_type ty_slm) st;
    st ← tiles_set t (tile_info.set_slm_id (walk.slm_id st)) st;
    Ok (walk.set_slm_id (walk.slm_id st + 1) st)
  else Ok st.

(** [if selection == "slm" and self.tiles[t].has_ddr != 0: ...] *)
Definition assign_slmddr (selection : string) (t : nat) (st : walk.t)
    : result walk.t :=
  ti ← (if String.eqb selection "slm" then tiles_get t st
        else Ok tile_info.new);
  if String.eqb selection "slm" && negb (tile_info.has_ddr ti =? 0) then
    st ← tiles_set t (tile_info.set_type ty_slmddr) st;
    st ← tiles_set t (tile_info.set_slmddr_id (walk.slmddr_id st)) st;
    Ok (walk.set_slmddr_id (walk.slmddr_id st + 1) st)
  else Ok st.

(** [if selection == "mem": ...] *)
Definition assign_mem (selection : string) (t : nat) (st : walk.t)
    : result walk.t :=
  if String.eqb selection "mem" then
    st ← tiles_set t (tile_info.set_type ty_mem) st;
    st ← tiles_set t (tile_info.set_mem_id (walk.mem_id st)) st;
    let st := walk.set_mem_id (walk.mem_id st + 1) st in
    if soc_config.coherence (walk.self st) then
      idx ← py_index LLC_CACHE_PINDEX (walk.llc_id st);
      let llc := cache_info.mk (walk.llc_id st) idx in
      let st := on_self (fun self =>
        soc_config.set_llcs (soc_config.llcs self ++ [llc]) self) st in
      st ← tiles_set t (tile_info.set_llc llc) st;
      Ok (walk.set_llc_id (walk.llc_id st + 1) st)
    else Ok st
  else Ok st.

(** [if selection == "IO": ...] *)
Definition assign_io (selection : string) (t : nat) (st : walk.t)
    : result walk.t :=
  if String.eqb selection "IO" then tiles_set t (tile_info.set_type ty_misc) st
  else Ok st.

(** [if soc.IPs.ACCELERATORS.count(selection): ...] *)
Definition assign_acc (selection : string) (x y t : nat) (st : walk.t)
    : result walk.t :=
  if is_accelerator selection then
    st ← tiles_set t (tile_info.set_type ty_acc) st;
    let vendor := noc_tile.vendor (soc.topology soc x y) in
    let acc := acc_info.mk selection (lower selection) vendor
                 (walk.acc_id st) (SLD_APB_PINDEX + walk.acc_id st)
                 (walk.acc_irq st) in
    st ← (if negb (String.eqb vendor "sld")
          then Ok (on_self (fun self => soc_config.set_nthirdparty
                              (soc_config.nthirdparty self + 1) self) st)
          else Ok st);
    st ← tiles_set t (tile_info.set_acc acc) st;
    let st := on_self (fun self => soc_config.set_accelerators
                         (soc_config.accelerators self ++ [acc]) self) st in
    let st := walk.set_acc_id (walk.acc_id st + 1) st in
    st ← (if riscv (soc_config.cpu_arch (walk.self st)) then
            let st := walk.set_acc_irq (walk.acc_irq st + 1) st in
            (* Skip interrupt lines reserved to Ethernet *)
            if walk.acc_irq st =? 11 then Ok (walk.set_acc_irq 13 st) else Ok st
          else Ok st);
    ti ← (if soc_config.coherence (walk.self st) then tiles_get t st
          else Ok tile_info.new);
    if soc_config.coherence (walk.self st) && (tile_info.has_l2 ti =? 1) then
      let l2 := cache_info.mk (walk.acc_l2_id st) (cache_info.idx cache_info.new) in
      let st := on_self (fun self =>
        soc_config.set_l2s (soc_config.l2s self ++ [l2]) self) st in
      st ← tiles_set t (tile_info.set_l2 l2) st;
      let st := on_self (fun self =>
        soc_config.set_nl2 (soc_config.nl2 self + 1) self) st in
      Ok (walk.set_acc_l2_id (walk.acc_l2_id st + 1) st)
    else Ok st
  else Ok st.

(** Body of the two nested loops for the cell at row [x], column [y],
    once the tile index [t] has been computed. *)
Definition visit_tile (x y t : nat) (st : walk.t) : result walk.t :=
  let cell := soc.topology soc x y in
  let selection := noc_tile.ip_type cell in
  st ← tiles_set t (tile_info.set_row x) st;
  st ← tiles_set t (tile_info.set_col y) st;
  st ← tiles_set t (tile_info.set_design_point (noc_tile.point cell)) st;
  st ← tiles_set t (tile_info.set_has_l2 (noc_tile.has_l2 cell)) st;
  st ← tiles_set t (tile_info.set_has_tdvfs (noc_tile.has_tdvfs cell)) st;
  st ← tiles_set t (tile_info.set_has_ddr (noc_tile.has_ddr cell)) st;
  st ← assign_cpu selection t st;
  st ← assign_slm selection t st;
  st ← assign_slmddr selection t st;
  st ← assign_mem selection t st;
  st ← assign_io selection t st;
  assign_acc selection x y t st.

Definition visit (x y : nat) (st : walk.t) : result walk.t :=
  (* Compute tile ID based on YX coordinates *)
  let t := (y + x * soc.cols soc)%nat in
  visit_tile x y t st.

(** [for x in range(rows): for y in range(cols)] as the list of visited
    coordinates, in visiting order. *)
Definition scan (rows cols : nat) : list (nat * nat) :=
  x ← seq 0 rows; (fun y => (x, y)) <$> seq 0 cols.

Fixpoint walk_from (cs : list (nat * nat)) (st : walk.t) : result walk.t :=
  match cs with
  | [] => Ok st
  | (x, y) :: cs' => st' ← visit x y st; walk_from cs' st'
  end.

(** Everything [__init__] does before the loops. *)
Definition init_self : soc_config.t :=
  let ncpu := soc.get_cpu_num soc in
  let nmem := soc.get_mem_num soc in
  let nslm := soc.get_slm_num soc in
  let slm_kbytes := soc.slm_kbytes soc in
  let slm_tot_kbytes := if negb (nslm =? 0) then slm_kbytes * nslm else 0 in
  let slm_full_mask :=
    if 1024 <? slm_tot_kbytes
    then Z.land 0xfff (Z.lnot (py_int_div slm_tot_kbytes 1024 - 1))
    else 0xfff in
  let nslmddr := soc.get_slmddr_num soc in
  let slmddr_kbytes := 512 * 1024 in
  let slmddr_tot_kbytes :=
    if negb (nslmddr =? 0) then slmddr_kbytes * nslmddr else 0 in
  let slmddr_full_mask :=
    Z.land 0xfff (Z.lnot (py_int_div slmddr_tot_kbytes 1024 - 1)) in
  let nacc := soc.get_acc_num soc in
  let ntiles := (soc.rows soc * soc.cols soc)%nat in
  let coherence := negb (soc.cache_en soc =? 0) in
  {| soc_config.cpu_arch := soc.CPU_ARCH soc;
     soc_config.ncpu := ncpu;
     soc_config.nacc := nacc;
     soc_config.nmem := nmem;
     soc_config.nslm := nslm;
     soc_config.slm_kbytes := slm_kbytes;
     soc_config.slm_tot_kbytes := slm_tot_kbytes;
     soc_config.slm_full_mask := slm_full_mask;
     soc_config.nslmddr := nslmddr;
     soc_config.slmddr_kbytes := slmddr_kbytes;
     soc_config.slmddr_tot_kbytes := slmddr_tot_kbytes;
     soc_config.slmddr_full_mask := slmddr_full_mask;
     soc_config.ntiles := ntiles;
     soc_config.coherence := coherence;
     soc_config.has_dvfs := soc.has_dvfs soc;
     soc_config.ndvfs := 0;
     soc_config.nl2 := 0;
     soc_config.nllc := if coherence then nmem else 0;
     soc_config.ncdma := if coherence then nacc + 1 else 0;
     soc_config.nthirdparty := 0;
     soc_config.accelerators := [];
     soc_config.l2s := [];
     soc_config.llcs := [];
     soc_config.dvfs_ctrls := [];
     soc_config.tiles := replicate ntiles tile_info.new |}.

(** The counters as initialised just before the loops. *)
Definition init_walk : walk.t :=
  let self := init_self in
  {| walk.cpu_id := 0;
     walk.cpu_dvfs_id := 0;
     walk.acc_l2_id := soc_config.ncpu self;
     walk.llc_id := 0;
     walk.mem_id := 0;
     walk.slm_id := 0;
     walk.slmddr_id := 0;
     walk.acc_id := 0;
     walk.acc_irq := if riscv (soc_config.cpu_arch self) then 5 else 3;
     walk.self := self |}.

(** [soc_config(soc)] *)
Definition soc_config_init : result soc_config.t :=
  st ← walk_from (scan (soc.rows soc) (soc.cols soc)) init_walk;
  Ok (walk.self st).

End Walk.

(** ** One visit seen from the visited tile

    The walk only ever touches [self.tiles[t]] for the current [t].  To reason
    about a visit we run the very same code on a state whose tile list holds
    just that tile (at index 0) and relate the two runs in lockstep. *)

Definition tiles_of (st : walk.t) : list tile_info.t := soc_config.tiles (walk.self st).

(** [glue r ts]: the state [r] with its tile list replaced by [ts]. *)
Definition glue (r : walk.t) (ts : list tile_info.t) : walk.t :=
  walk.set_self (soc_config.set_tiles ts (walk.self r)) r.

Definition lockstep {A B} (R : A -> B -> Prop) (m1 : result A) (m2 : result B) : Prop :=
  match m1, m2 with
  | Ok a, Ok b => R a b
  | Raise e1, Raise e2 => e1 = e2
  | _, _ => False
  end.

Definition sim (ts : list tile_info.t) (t : nat) (st loc : walk.t) : Prop :=
  (t < length ts)%nat /\
  exists r ti, st = glue r (<[t := ti]> ts) /\ loc = glue r [ti].

Arguments lockstep : simpl never.

Section Closed.
Variable soc : soc.t.

Definition sel_cpu (c : noc_tile.t) : bool := String.eqb (noc_tile.ip_type c) "cpu".
Definition sel_slm (c : noc_tile.t) : bool :=
  String.eqb (noc_tile.ip_type c) "slm" && (noc_tile.has_ddr c =? 0).
Definition sel_slmddr (c : noc_tile.t) : bool :=
  String.eqb (noc_tile.ip_type c) "slm" && negb (noc_tile.has_ddr c =? 0).
Definition sel_mem (c : noc_tile.t) : bool := String.eqb (noc_tile.ip_type c) "mem".
Definition sel_io (c : noc_tile.t) : bool := String.eqb (noc_tile.ip_type c) "IO".
Definition sel_acc (c : noc_tile.t) : bool := is_accelerator soc (noc_tile.ip_type c).
Definition sel_acc_l2 (c : noc_tile.t) : bool := sel_acc c && (noc_tile.has_l2 c =? 1).

Definition next_irq (a : arch) (irq : Z) : Z :=
  if riscv a then (if irq + 1 =? 11 then 13 else irq + 1) else irq.

Definition new_acc (r : walk.t) (c : noc_tile.t) : acc_info.t :=
  acc_info.mk (noc_tile.ip_type c) (lower (noc_tile.ip_type c)) (noc_tile.vendor c)
    (walk.acc_id r) (SLD_APB_PINDEX + walk.acc_id r) (walk.acc_irq r).

Definition resolved_tile (r : walk.t) (c : noc_tile.t) (x y : nat) (i2 il : Z)
    (ti : tile_info.t) : tile_info.t :=
  let coh := soc_config.coherence (walk.self r) in
  {| tile_info.type :=
       if sel_acc c then ty_acc else if sel_io c then ty_misc
       else if sel_mem c then ty_mem else if sel_slmddr c then ty_slmddr
       else if sel_slm c then ty_slm else if sel_cpu c then ty_cpu
       else tile_info.type ti;
     tile_info.x := tile_info.x ti;
     tile_info.y := tile_info.y ti;
     tile_info.row := x;
     tile_info.col := y;
     tile_info.cpu_id := if sel_cpu c then walk.cpu_id r else tile_info.cpu_id ti;
     tile_info.mem_id := if sel_mem c then walk.mem_id r else tile_info.mem_id ti;
     tile_info.slm_id := if sel_slm c then walk.slm_id r else tile_info.slm_id ti;
     tile_info.slmddr_id :=
       if sel_slmddr c then walk.slmddr_id r else tile_info.slmddr_id ti;
     tile_info.l2 :=
       if sel_acc_l2 c && coh then cache_info.mk (walk.acc_l2_id r) (-1)
       else if sel_cpu c && coh then cache_info.mk (walk.cpu_id r) i2
       else tile_info.l2 ti;
     tile_info.llc :=
       if sel_mem c && coh then cache_info.mk (walk.llc_id r) il
       else tile_info.llc ti;
     tile_info.dvfs := tile_info.dvfs ti;
     tile_info.acc := if sel_acc c then new_acc r c else tile_info.acc ti;
     tile_info.has_l2 := noc_tile.has_l2 c;
     tile_info.has_tdvfs := noc_tile.has_tdvfs c;
     tile_info.has_ddr := noc_tile.has_ddr c;
     tile_info.design_point := noc_tile.point c |}.

Definition next_self (r : walk.t) (c : noc_tile.t) (i2 il : Z) : soc_config.t :=
  let self := walk.self r in
  let coh := soc_config.coherence self in
  let l2s := if sel_cpu c && coh
             then soc_config.l2s self ++ [cache_info.mk (walk.cpu_id r) i2]
             else soc_config.l2s self in
  let nl2 := if sel_cpu c && coh then soc_config.nl2 self + 1
             else soc_config.nl2 self in
  soc_config.set_nl2 (if sel_acc_l2 c && coh then nl2 + 1 else nl2)
  (soc_config.set_nthirdparty
     (if sel_acc c && negb (String.eqb (noc_tile.vendor c) "sld")
      then soc_config.nthirdparty self + 1 else soc_config.nthirdparty self)
  (soc_config.set_accelerators
     (if sel_acc c then soc_config.accelerators self ++ [new_acc r c]
      else soc_config.accelerators self)
  (soc_config.set_l2s
     (if sel_acc_l2 c && coh
      then l2s ++ [cache_info.mk (walk.acc_l2_id r) (-1)] else l2s)
  (soc_config.set_llcs
     (if sel_mem c && coh
      then soc_config.llcs self ++ [cache_info.mk (walk.llc_id r) il]
      else soc_config.llcs self)
     self)))).

Definition next_state (r : walk.t) (c : noc_tile.t) (i2 il : Z) : walk.t :=
  let coh := soc_config.coherence (walk.self r) in
  {| walk.cpu_id := if sel_cpu c then walk.cpu_id r + 1 else walk.cpu_id r;
     walk.cpu_dvfs_id := walk.cpu_dvfs_id r;
     walk.acc_l2_id :=
       if sel_acc_l2 c && coh then walk.acc_l2_id r + 1 else walk.acc_l2_id r;
     walk.llc_id := if sel_mem c && coh then walk.llc_id r + 1 else walk.llc_id r;
     walk.mem_id := if sel_mem c then walk.mem_id r + 1 else walk.mem_id r;
     walk.slm_id := if sel_slm c then walk.slm_id r + 1 else walk.slm_id r;
     walk.slmddr_id :=
       if sel_slmddr c then walk.slmddr_id r + 1 else walk.slmddr_id r;
     walk.acc_id := if sel_acc c then walk.acc_id r + 1 else walk.acc_id r;
     walk.acc_irq :=
       if sel_acc c then next_irq (soc_config.cpu_arch (walk.self r)) (walk.acc_irq r)
       else walk.acc_irq r;
     walk.self := next_self r c i2 il |}.

(** Effect of each branch of the loop body on the counters ([*_state]) and
    on the visited tile ([*_tile]), written field by field. *)

Definition attrs_tile (c : noc_tile.t) (x y : nat) (ti : tile_info.t) : tile_info.t :=
  tile_info.set_has_ddr (noc_tile.has_ddr c)
    (tile_info.set_has_tdvfs (noc_tile.has_tdvfs c)
       (tile_info.set_has_l2 (noc_tile.has_l2 c)
          (tile_info.set_design_point (noc_tile.point c)
             (tile_info.set_col y (tile_info.set_row x ti))))).

Definition cpu_state (r : walk.t) (c : noc_tile.t) (i2 : Z) : walk.t :=
  let coh := soc_config.coherence (walk.self r) in
  walk.set_cpu_id (if sel_cpu c then walk.cpu_id r + 1 else walk.cpu_id r)
    (on_self (fun self =>
       soc_config.set_nl2
         (if sel_cpu c && coh then soc_config.nl2 self + 1 else soc_config.nl2 self)
         (soc_config.set_l2s
            (if sel_cpu c && coh
             then soc_config.l2s self ++ [cache_info.mk (walk.cpu_id r) i2]
             else soc_config.l2s self) self)) r).

Definition cpu_tile (r : walk.t) (c : noc_tile.t) (i2 : Z) (ti : tile_info.t)
    : tile_info.t :=
  let coh := soc_config.coherence (walk.self r) in
  tile_info.set_l2
    (if sel_cpu c && coh then cache_info.mk (walk.cpu_id r) i2 else tile_info.l2 ti)
    (tile_info.set_cpu_id (if sel_cpu c then walk.cpu_id r else tile_info.cpu_id ti)
       (tile_info.set_type (if sel_cpu c then ty_cpu else tile_info.type ti) ti)).

Definition slm_cond (c : noc_tile.t) (ti : tile_info.t) : bool :=
  String.eqb (noc_tile.ip_type c) "slm" && (tile_info.has_ddr ti =? 0).

Definition slm_state (r : walk.t) (c : noc_tile.t) (ti : tile_info.t) : walk.t :=
  walk.set_slm_id (if slm_cond c ti then walk.slm_id r + 1 else walk.slm_id r) r.

Definition slm_tile (r : walk.t) (c : noc_tile.t) (ti : tile_info.t) : tile_info.t :=
  tile_info.set_slm_id (if slm_cond c ti then walk.slm_id r else tile_info.slm_id ti)
    (tile_info.set_type (if slm_cond c ti then ty_slm else tile_info.type ti) ti).

Definition slmddr_cond (c : noc_tile.t) (ti : tile_info.t) : bool :=
  String.eqb (noc_tile.ip_type c) "slm" && negb (tile_info.has_ddr ti =? 0).

Definition slmddr_state (r : walk.t) (c : noc_tile.t) (ti : tile_info.t) : walk.t :=
  walk.set_slmddr_id
    (if slmddr_cond c ti then walk.slmddr_id r + 1 else walk.slmddr_id r) r.

Definition slmddr_tile (r : walk.t) (c : noc_tile.t) (ti : tile_info.t)
    : tile_info.t :=
  tile_info.set_slmddr_id
    (if slmddr_cond c ti then walk.slmddr_id r else tile_info.slmddr_id ti)
    (tile_info.set_type (if slmddr_cond c ti then ty_slmddr else tile_info.type ti) ti).

Definition mem_state (r : walk.t) (c : noc_tile.t) (il : Z) : walk.t :=
  let coh := soc_config.coherence (walk.self r) in
  walk.set_llc_id (if sel_mem c && coh then walk.llc_id r + 1 else walk.llc_id r)
    (walk.set_mem_id (if sel_mem c then walk.mem_id r + 1 else walk.mem_id r)
       (on_self (fun self =>
          soc_config.set_llcs
            (if sel_mem c && coh
             then soc_config.llcs self ++ [cache_info.mk (walk.llc_id r) il]
             else soc_config.llcs self) self) r)).

Definition mem_tile (r : walk.t) (c : noc_tile.t) (il : Z) (ti : tile_info.t)
    : tile_info.t :=
  let coh := soc_config.coherence (walk.self r) in
  tile_info.set_llc
    (if sel_mem c && coh then cache_info.mk (walk.llc_id r) il else tile_info.llc ti)
    (tile_info.set_mem_id (if sel_mem c then walk.mem_id r else tile_info.mem_id ti)
       (tile_info.set_type (if sel_mem c then ty_mem else tile_info.type ti) ti)).

Definition io_tile (c : noc_tile.t) (ti : tile_info.t) : tile_info.t :=
  tile_info.set_type (if sel_io c then ty_misc else tile_info.type ti) ti.

Definition acc_l2_cond (r : walk.t) (c : noc_tile.t) (ti : tile_info.t) : bool :=
  (sel_acc c && (tile_info.has_l2 ti =? 1)) && soc_config.coherence (walk.self r).

Definition acc_state (r : walk.t) (c : noc_tile.t) (ti : tile_info.t) : walk.t :=
  walk.set_acc_l2_id
    (if acc_l2_cond r c ti then walk.acc_l2_id r + 1 else walk.acc_l2_id r)
    (walk.set_acc_irq
       (if sel_acc c
        then next_irq (soc_config.cpu_arch (walk.self r)) (walk.acc_irq r)
        else walk.acc_irq r)
       (walk.set_acc_id (if sel_acc c then walk.acc_id r + 1 else walk.acc_id r)
          (on_self (fun self =>
             soc_config.set_nl2
               (if acc_l2_cond r c ti then soc_config.nl2 self + 1
                else soc_config.nl2 self)
               (soc_config.set_nthirdparty
                  (if sel_acc c && negb (String.eqb (noc_tile.vendor c) "sld")
                   then soc_config.nthirdparty self + 1
                   else soc_config.nthirdparty self)
                  (soc_config.set_accelerators
                     (if sel_acc c then soc_config.accelerators self ++ [new_acc r c]
                      else soc_config.accelerators self)
                     (soc_config.set_l2s
                        (if acc_l2_cond r c ti
                         then soc_config.l2s self ++
                                [cache_info.mk (walk.acc_l2_id r) (-1)]
                         else soc_config.l2s self) self)))) r))).

Definition acc_tile (r : walk.t) (c : noc_tile.t) (ti : tile_info.t) : tile_info.t :=
  tile_info.set_l2
    (if acc_l2_cond r c ti then cache_info.mk (walk.acc_l2_id r) (-1)
     else tile_info.l2 ti)
    (tile_info.set_acc (if sel_acc c then new_acc r c else tile_info.acc ti)
       (tile_info.set_type (if sel_acc c then ty_acc else tile_info.type ti) ti)).

(** The effect of one visit on a state holding only the visited tile. *)
Definition visit_summary (x y : nat) (r : walk.t) (ti : tile_info.t)
    : result walk.t :=
  let c := soc.topology soc x y in
  let coh := soc_config.coherence (walk.self r) in
  i2 ← (if sel_cpu c && coh then py_index L2_CACHE_PINDEX (walk.cpu_id r) else Ok 0);
  il ← (if sel_mem c && coh then py_index LLC_CACHE_PINDEX (walk.llc_id r) else Ok 0);
  Ok (glue (next_state r c i2 il) [resolved_tile r c x y i2 il ti]).
End Closed.

(** ** Closed form of the resolved configuration *)

(** Number of elements of [l] satisfying [p], as a Python integer. *)
Fixpoint count {A} (p : A -> bool) (l : list A) : Z :=
  match l with
  | [] => 0
  | a :: l' => (if p a then 1 else 0) + count p l'
  end.

(** Interrupt line handed to the accelerator that has [k] accelerators
    before it in scan order. *)
Definition irq_line (a : arch) (k : Z) : Z :=
  if riscv a then (if k <? 6 then 5 + k else 7 + k) else 3.

Section Resolved.
Variable soc : soc.t.

(** The declared cells in scan order; the cell at position [t] of this
    list is the one resolved into [tiles[t]]. *)
Definition cells : list noc_tile.t :=
  (fun xy => soc.topology soc xy.1 xy.2) <$> scan (soc.rows soc) (soc.cols soc).

Definition sel_thirdparty (c : noc_tile.t) : bool :=
  sel_acc soc c && negb (String.eqb (noc_tile.vendor c) "sld").

Definition coherent : bool := negb (soc.cache_en soc =? 0).

(** The counters as they stand when [pre] lists the cells visited so far. *)
Definition walk_at (pre : list noc_tile.t) : walk.t :=
  {| walk.cpu_id := count sel_cpu pre;
     walk.cpu_dvfs_id := 0;
     walk.acc_l2_id :=
       soc.get_cpu_num soc + (if coherent then count (sel_acc_l2 soc) pre else 0);
     walk.llc_id := if coherent then count sel_mem pre else 0;
     walk.mem_id := count sel_mem pre;
     walk.slm_id := count sel_slm pre;
     walk.slmddr_id := count sel_slmddr pre;
     walk.acc_id := count (sel_acc soc) pre;
     walk.acc_irq := irq_line (soc.CPU_ARCH soc) (count (sel_acc soc) pre);
     walk.self := init_self soc |}.

(** The tile record the walk leaves at index [k], for the cell at row [x],
    column [y]. *)
Definition final_tile (k x y : nat) : tile_info.t :=
  let pre := take k cells in
  resolved_tile soc (walk_at pre) (soc.topology soc x y) x y
    (8 + count sel_cpu pre) (24 + count sel_mem pre) tile_info.new.

(** The walk runs through iff, with coherence enabled, neither the CPU
    cells nor the memory cells outnumber their index band. *)
Definition within_bands (l : list noc_tile.t) : bool :=
  negb coherent || ((count sel_cpu l <=? 16) && (count sel_mem l <=? 16)).

(** The fields of [self] the walk never assigns. *)
Definition frozen (c : soc_config.t) : soc_config.t :=
  soc_config.set_tiles []
    (soc_config.set_l2s []
       (soc_config.set_llcs []
          (soc_config.set_accelerators []
             (soc_config.set_nl2 0 (soc_config.set_nthirdparty 0 c))))).

Definition l2_ok (c : cache_info.t) : Prop :=
  (0 <= cache_info.id c < 16 /\ cache_info.idx c = 8 + cache_info.id c) \/
  (soc.get_cpu_num soc <= cache_info.id c /\ cache_info.idx c = -1).

Definition llc_ok (c : cache_info.t) : Prop :=
  0 <= cache_info.id c < 16 /\ cache_info.idx c = 24 + cache_info.id c.

Definition acc_ok (k : nat) (a : acc_info.t) : Prop :=
  acc_info.id a = Z.of_nat k /\
  acc_info.idx a = SLD_APB_PINDEX + Z.of_nat k /\
  acc_info.irq a = irq_line (soc.CPU_ARCH soc) (Z.of_nat k).

(** State of the walk after the first [n] cells. *)
Record walk_inv (n : nat) (st : walk.t) : Prop := {
  wi_frozen : frozen (walk.self st) = frozen (init_self soc);
  wi_ctr : walk.set_self (init_self soc) st = walk_at (take n cells);
  wi_len : length (tiles_of st) = (soc.rows soc * soc.cols soc)%nat;
  wi_done : forall k x y, (k < n)%nat ->
    scan (soc.rows soc) (soc.cols soc) !! k = Some (x, y) ->
    tiles_of st !! k = Some (final_tile k x y);
  wi_todo : forall k, (n <= k < soc.rows soc * soc.cols soc)%nat ->
    tiles_of st !! k = Some tile_info.new;
  wi_nl2 : soc_config.nl2 (walk.self st) =
    if coherent
    then count sel_cpu (take n cells) + count (sel_acc_l2 soc) (take n cells)
    else 0;
  wi_nthirdparty : soc_config.nthirdparty (walk.self st) =
    count sel_thirdparty (take n cells);
  wi_accs_len : Z.of_nat (length (soc_config.accelerators (walk.self st))) =
    count (sel_acc soc) (take n cells);
  wi_accs : forall k a, soc_config.accelerators (walk.self st) !! k = Some a ->
    acc_ok k a;
  wi_l2s_len : Z.of_nat (length (soc_config.l2s (walk.self st))) =
    soc_config.nl2 (walk.self st);
  wi_l2s : Forall l2_ok (soc_config.l2s (walk.self st));
  wi_llcs_len : Z.of_nat (length (soc_config.llcs (walk.self st))) =
    walk.llc_id st;
  wi_llcs : Forall llc_ok (soc_config.llcs (walk.self st))
}.
End Resolved.

Arguments sel_cpu : simpl never.
Arguments sel_slm : simpl never.
Arguments sel_slmddr : simpl never.
Arguments sel_mem : simpl never.
Arguments sel_io : simpl never.
Arguments sel_acc : simpl never.
Arguments sel_acc_l2 : simpl never.
Arguments sel_thirdparty : simpl never.
Arguments coherent : simpl never.
Arguments irq_line : simpl never.
Arguments next_irq : simpl never.
Arguments init_self : simpl never.

(** ** Address maps and tables of [print_mapping]

    A VHDL aggregate [(k1 => v1, ..., others => d)] printed by
    [print_mapping] is the list of its [(k, v)] associations, in the order
    written; [table_get] reads it back with the default for [others]. *)

Definition table := list (Z * Z).

Definition table_get (d : Z) (tbl : table) (k : Z) : Z :=
  match List.find (fun e => fst e =? k) tbl with
  | Some e => snd e
  | None => d
  end.

(** [range(0, n)] *)
Definition py_range0 (n : Z) : list Z := py_range 0 n.

(** [for i in range(0, n): write(i => acc); acc = step(acc)] *)
Fixpoint emit_stepping (step : Z -> Z) (idxs : list Z) (acc : Z) : table :=
  match idxs with
  | [] => []
  | i :: idxs' => (i, acc) :: emit_stepping step idxs' (step acc)
  end.

(** [0xfff & ~(units - 1)], the shape of every mask the generator computes *)
Definition mask12 (units : Z) : Z := Z.land 0xfff (Z.lnot (units - 1)).


Section Mapping.
Variable esp_config : soc_config.t.

(** *** Shared local memory *)

(** Value of the global [SLM_HADDR] after [print_mapping] has run, given its
    value [g] before: with no memory tile the SLM takes over the DDR base. *)
Definition slm_haddr_global (g : Z) : Z :=
  if soc_config.nmem esp_config =? 0
  then DDR_HADDR (soc_config.cpu_arch esp_config)
  else g.

Definition slm_mask : Z :=
  if 1024 <=? soc_config.slm_kbytes esp_config
  then Z.land 0xfff (Z.lnot (py_int_div (soc_config.slm_kbytes esp_config) 1024 - 1))
  else 0xfff.

Definition next_hindex (hindex : Z) : Z :=
  let hindex := hindex + 1 in
  if hindex =? 12 then 13 else hindex.

Definition slm_hindex : table :=
  emit_stepping next_hindex (py_range0 (soc_config.nslm esp_config)) SLM_HINDEX.

Definition slm_haddr (g : Z) : table :=
  emit_stepping
    (fun offset => offset + py_int_div (soc_config.slm_kbytes esp_config) 1024)
    (py_range0 (soc_config.nslm esp_config)) (slm_haddr_global g).

Definition slm_hmask : table :=
  (fun i => (i, slm_mask)) <$> py_range0 (soc_config.nslm esp_config).

(** [cpu_tile_slm_hconfig]: base and mask of the whole SLM window *)
Definition cpu_tile_slm_hconfig (g : Z) : Z * Z :=
  (slm_haddr_global g, soc_config.slm_full_mask esp_config).

(** *** SLM tiles with off-chip DDR *)

Definition slmddr_mask : Z :=
  Z.land 0xfff (Z.lnot (py_int_div (soc_config.slmddr_kbytes esp_config) 1024 - 1)).

Definition slmddr_hindex : table :=
  emit_stepping next_hindex (py_range0 (soc_config.nslmddr esp_config))
    (SLM_HINDEX + soc_config.nslm esp_config).


Definition slmddr_hmask : table :=
  (fun i => (i, slmddr_mask)) <$> py_range0 (soc_config.nslmddr esp_config).


(** *** Memory controllers *)

Definition ddr_size : Z :=
  if 0 <? soc_config.nmem esp_config then
    (* workaround for using 7 mem tiles with profpga-xcvu19p *)
    if 4 <? soc_config.nmem esp_config
    then py_int_div DDR_SIZE 8
    else py_int_div DDR_SIZE (soc_config.nmem esp_config)
  else DDR_SIZE.

Definition ddr_mask : Z := Z.land 0xfff (Z.lnot (ddr_size - 1)).


Definition ddr_hindex : result table :=
  mapM (fun i => idx ← py_index DDR_HINDEX i; Ok (i, idx))
    (py_range0 (soc_config.nmem esp_config)).

Definition ddr_haddr : table :=
  emit_stepping (fun offset => offset + ddr_size)
    (py_range0 (soc_config.nmem esp_config))
    (DDR_HADDR (soc_config.cpu_arch esp_config)).

Definition ddr_hmask : table :=
  (fun i => (i, ddr_mask)) <$> py_range0 (soc_config.nmem esp_config).

(** *** DVFS controllers *)

(** The DVFS entries of [fixed_apbo_pconfig]:
    [for i in range(0, ndvfs): dvfs = dvfs_ctrls[i]; dvfs.idx => i] *)
Definition fixed_apbo_dvfs : result table :=
  mapM (fun i => dvfs ← py_index (soc_config.dvfs_ctrls esp_config) i;
                 Ok (cache_info.idx dvfs, i))
    (py_range0 (soc_config.ndvfs esp_config)).

(** *** Walking the tile list

    [for i in range(0, ntiles): t = tiles[i]] *)
Definition tiles_enum : result (list (nat * tile_info.t)) :=
  mapM (fun i => match soc_config.tiles esp_config !! i with
                 | Some t => Ok (i, t)
                 | None => Raise IndexError
                 end)
    (seq 0 (soc_config.ntiles esp_config)).

End Mapping.

(** What [tiles_enum] yields when [ntiles] is the length of the tile list. *)
Definition enum (l : list tile_info.t) : list (nat * tile_info.t) :=
  imap (fun i t => (i, t)) l.

(** Tile-index to identifier: [i => id] for every tile with [id != -1]. *)
Definition xref_tile_id (id : tile_info.t -> Z) (ts : list (nat * tile_info.t))
    : table :=
  it ← ts; if negb (id it.2 =? -1) then [(Z.of_nat it.1, id it.2)] else [].

(** Identifier to tile-index: [id => i] for every tile selected by [sel]. *)
Definition xref_id_tile (sel : tile_info.t -> bool) (id : tile_info.t -> Z)
    (ts : list (nat * tile_info.t)) : table :=
  it ← ts; if sel it.2 then [(id it.2, Z.of_nat it.1)] else [].

Definition has_id (id : tile_info.t -> Z) (t : tile_info.t) : bool :=
  negb (id t =? -1).

Definition is_type (ty : tile_type) (t : tile_info.t) : bool :=
  bool_decide (tile_info.type t = ty).

Definition l2_id (t : tile_info.t) : Z := cache_info.id (tile_info.l2 t).
Definition llc_id (t : tile_info.t) : Z := cache_info.id (tile_info.llc t).
Definition dvfs_id (t : tile_info.t) : Z := cache_info.id (tile_info.dvfs t).
Definition acc_id (t : tile_info.t) : Z := acc_info.id (tile_info.acc t).

(** Two tables are mutual inverses on their defined domains: every
    association of one is read back by [table_get] and undone by the
    other. *)
Definition mutual_inverse (fwd bwd : table) : Prop :=
  (forall i v, (i, v) ∈ fwd ->
     table_get 0 fwd i = v /\ table_get 0 bwd v = i) /\
  (forall v i, (v, i) ∈ bwd ->
     table_get 0 bwd v = i /\ table_get 0 fwd i = v).

(** The tables answer for every tile that owns a component and for every
    identifier handed out: tile [i] with identifier [id t] is read as
    [id t] from [fwd] and found back from [bwd], and each of the [n]
    identifiers [0 .. n-1] belongs to a tile on which the two lookups
    undo each other. *)
Definition round_trips (id : tile_info.t -> Z) (n : Z)
    (tiles : list tile_info.t) (fwd bwd : table) : Prop :=
  (forall i t, tiles !! i = Some t -> id t <> -1 ->
     table_get 0 fwd (Z.of_nat i) = id t /\
     table_get 0 bwd (id t) = Z.of_nat i) /\
  (forall k, 0 <= k < n ->
     exists i t, tiles !! i = Some t /\ id t = k /\
       table_get 0 bwd k = Z.of_nat i /\
       table_get 0 fwd (table_get 0 bwd k) = k).

Section CrossReference.
Variable ts : list (nat * tile_info.t).

Definition tile_cpu_id : table := xref_tile_id tile_info.cpu_id ts.
Definition cpu_tile_id : table := xref_id_tile (is_type ty_cpu) tile_info.cpu_id ts.
Definition tile_cache_id : table := xref_tile_id l2_id ts.
Definition cache_tile_id : table := xref_id_tile (has_id l2_id) l2_id ts.
Definition tile_llc_id : table := xref_tile_id llc_id ts.
Definition llc_tile_id : table := xref_id_tile (has_id llc_id) llc_id ts.
Definition slm_tile_id : table :=
  xref_id_tile (has_id tile_info.slm_id) tile_info.slm_id ts.
Definition tile_slm_id : table := xref_tile_id tile_info.slm_id ts.
Definition slmddr_tile_id : table :=
  xref_id_tile (has_id tile_info.slmddr_id) tile_info.slmddr_id ts.
Definition tile_slmddr_id : table := xref_tile_id tile_info.slmddr_id ts.
Definition mem_tile_id : table :=
  xref_id_tile (has_id tile_info.mem_id) tile_info.mem_id ts.
Definition tile_mem_id : table := xref_tile_id tile_info.mem_id ts.
Definition tile_acc_id : table := xref_tile_id acc_id ts.
Definition acc_tile_id : table := xref_id_tile (has_id acc_id) acc_id ts.

(** [tile_has_tdvfs]: the flag of every tile, echoed. *)
Definition tile_has_tdvfs : table :=
  (fun it => (Z.of_nat it.1, tile_info.has_tdvfs it.2)) <$> ts.

(** [cpu_dvfs_paddr]: [i => 0xD0 + dvfs.idx] for tiles with a DVFS descriptor *)
Definition cpu_dvfs_paddr : table :=
  it ← ts;
  if negb (dvfs_id it.2 =? -1)
  then [(Z.of_nat it.1, 0xD0 + cache_info.idx (tile_info.dvfs it.2))]
  else [].

(** [misc_id = 0; for i ...: if tiles[i].type == "misc": misc_id = i] *)
Definition misc_id : nat :=
  fold_left (fun m it => if is_type ty_misc it.2 then it.1 else m) ts 0%nat.

End CrossReference.

(** *** Initialization sequence *)

(** [list(range(a, -1, -1)) + list(range(a + 1, n))] *)
Definition outward (a n : nat) : list nat :=
  rev (seq 0 (S a)) ++ seq (S a) (n - S a).

Definition esp_init_sequence (s : soc.t) (esp_config : soc_config.t)
    : result (list nat) :=
  ts ← tiles_enum esp_config;
  io ← match soc_config.tiles esp_config !! misc_id ts with
       | Some t => Ok t
       | None => Raise IndexError
       end;
  (* Set tile_id to adjacent tiles starting from tile_io *)
  let grid :=
    i ← outward (tile_info.row io) (soc.rows s);
    j ← outward (tile_info.col io) (soc.cols s);
    [(i * soc.cols s + j)%nat] in
  (* Mark tile_id configuration valid for CPU tiles. Set CPU0 last. *)
  let cpus := it ← rev ts; if is_type ty_cpu it.2 then [it.1] else [] in
  Ok (grid ++ cpus).

(** *** [print_esplink_header]

    [format(a, '03X') + "00000"] is the hexadecimal text of [a * 16^5]. *)
Definition DRAM_BASE_ADDR (esp_config : soc_config.t) : Z :=
  Z.shiftl (DDR_HADDR (soc_config.cpu_arch esp_config)) 20.

Definition OVERRIDE_DRAM_SIZE (esp_config : soc_config.t) : option Z :=
  if soc_config.nmem esp_config =? 0
  then Some (soc_config.slm_tot_kbytes esp_config * 1024)
  else None.

(** ** The specification's reading of the initialization order

    "Concentric adjacency order (expanding row offsets alternating outward
    from the I/O tile's row, then column offsets alternating outward from
    its column, for each row)": offsets 0, 1, 2, ... from the starting
    position, at each offset the position before and the position after,
    skipping those outside [0, n). *)

Definition alternating_outward (a n : nat) : list nat :=
  a :: (d ← seq 1 n;
        (if (d <=? a)%nat then [(a - d)%nat] else []) ++
        (if (a + d <? n)%nat then [(a + d)%nat] else [])).

Definition spec_init_grid (rows cols r c : nat) : list nat :=
  i ← alternating_outward r rows;
  j ← alternating_outward c cols;
  [(i * cols + j)%nat].

Definition distance (a i : nat) : nat := if (i <=? a)%nat then a - i else i - a.

(** The positions of [l] never come closer to [a] again. *)
Fixpoint expanding (a : nat) (l : list nat) : bool :=
  match l with
  | i :: ((j :: _) as l') => (distance a i <=? distance a j)%nat && expanding a l'
  | _ => true
  end.

(** ** Concrete topologies *)

Definition cell (ty : string) : noc_tile.t := noc_tile.mk ty 0 0 0 0 "sld".

Definition acc_cell (ty vendor : string) (has_l2 : Z) : noc_tile.t :=
  noc_tile.mk ty 0 has_l2 0 0 vendor.

Definition grid_topology (g : list (list noc_tile.t)) (x y : nat) : noc_tile.t :=
  default (cell "empty") (row ← g !! x; row !! y).

(** The topology input for a grid given row by row; the counting helpers
    report what the grid holds. *)
Definition soc_of_grid (a : arch) (cache_en slm_kbytes : Z) (accs : list string)
    (g : list (list noc_tile.t)) : soc.t :=
  let all := concat g in
  let is_acc c :=
    negb (count_occ String.string_dec accs (noc_tile.ip_type c) =? 0)%nat in
  {| soc.CPU_ARCH := a;
     soc.rows := length g;
     soc.cols := length (default [] (head g));
     soc.topology := grid_topology g;
     soc.ACCELERATORS := accs;
     soc.cache_en := cache_en;
     soc.slm_kbytes := slm_kbytes;
     soc.get_cpu_num := count sel_cpu all;
     soc.get_mem_num := count sel_mem all;
     soc.get_slm_num := count sel_slm all;
     soc.get_slmddr_num := count sel_slmddr all;
     soc.get_acc_num := count is_acc all;
     soc.has_dvfs := false |}.

(** The configuration resolved from [s] (left as initialised when the
    constructor raises). *)
Definition resolved (s : soc.t) : soc_config.t :=
  match soc_config_init s with
  | Ok cfg => cfg
  | Raise _ => init_self s
  end.

(** Scenario A: 4x4, CPU at (0,0), memory at (3,3), coherence enabled. *)
Definition soc_scenario_a : soc.t :=
  soc_of_grid leon3 1 1024 ["FFT"; "GEMM"]
    [ [cell "cpu"; cell "empty"; cell "empty"; cell "empty"];
      [cell "empty"; cell "IO"; cell "empty"; cell "empty"];
      [cell "empty"; cell "empty"; cell "empty"; cell "empty"];
      [cell "empty"; cell "empty"; cell "empty"; cell "mem"] ].

(** One row: a CPU, two accelerators (the first with a private cache, the
    second third-party), the I/O tile, a memory tile and an SLM tile with
    the token-DVFS flag set. *)
Definition soc_mixed (a : arch) : soc.t :=
  soc_of_grid a 1 1024 ["FFT"; "GEMM"]
    [ [cell "cpu"; acc_cell "FFT" "sld" 1; acc_cell "GEMM" "acme" 0;
       cell "IO"; cell "mem"; noc_tile.mk "slm" 0 0 1 0 "sld"] ].

(** Eight accelerators in a row after a CPU and the I/O tile. *)
Definition soc_8acc (a : arch) : soc.t :=
  soc_of_grid a 0 1024 ["FFT"]
    [ [cell "cpu"; cell "IO"; cell "FFT"; cell "FFT"; cell "FFT"; cell "FFT"];
      [cell "mem"; cell "empty"; cell "FFT"; cell "FFT"; cell "FFT"; cell "FFT"] ].

(** Seventeen CPU tiles, one more than [NCPU_MAX]. *)
Definition soc_17cpu (cache_en : Z) : soc.t :=
  soc_of_grid ariane cache_en 1024 [] [replicate 17 (cell "cpu")].

(** [n] memory tiles next to a CPU and the I/O tile. *)
Definition soc_nmem (a : arch) (n : nat) : soc.t :=
  soc_of_grid a 1 1024 [] [[cell "cpu"; cell "IO"] ++ replicate n (cell "mem")].

(** No memory tile: two 2 MB SLM tiles serve as main memory. *)
Definition soc_nomem (a : arch) : soc.t :=
  soc_of_grid a 1 2048 [] [[cell "cpu"; cell "IO"; cell "slm"; cell "slm"]].

(** Five rows of two tiles with the I/O tile in the middle row. *)
Definition soc_5rows : soc.t :=
  soc_of_grid leon3 1 1024 ["FFT"]
    [ [cell "cpu"; cell "empty"];
      [cell "mem"; cell "FFT"];
      [cell "IO"; cell "cpu"];
      [cell "empty"; cell "empty"];
      [cell "cpu"; cell "empty"] ].



(** ** Further parts of the generator

    The remaining module-level constants, [uint_to_bin], and the tables of
    [print_mapping], [print_tiles], [print_soc_locations] and
    [print_devtree] that are derived from the resolved configuration. *)

Definition AHBROM_HINDEX : Z := 0.
Definition AHB2APB_HINDEX : Z := 1.
Definition AHB2APB_HADDR (a : arch) : Z :=
  match a with leon3 => 0x800 | ariane => 0x600 | ibex => 0x600 end.
Definition RISCV_CLINT_HINDEX : Z := 2.
Definition FB_HINDEX : Z := 3.
Definition CSR_APB_ADDR : Z := 0x900.
Definition CSR_APB_ADDR_MSK : Z := 0xffe.
Definition SLD_APB_ADDR : Z := 0x100.
Definition SLD_APB_ADDR_MSK : Z := 0xffe.
Definition THIRDPARTY_APB_ADDRESS : Z := 0x00000000.
Definition THIRDPARTY_APB_ADDRESS_SIZE : Z := 0x00040000.
Definition THIRDPARTY_APB_EXT_ADDRESS : Z := 0x00400000.
Definition THIRDPARTY_APB_EXT_ADDRESS_SIZE : Z := 0x00100000.
Definition ACC_MEM_RESERVED_START_ADDR : Z := 0xA0200000.
Definition ACC_MEM_RESERVED_TOTAL_SIZE : Z := 0x1FE00000.
Definition THIRDPARTY_MEM_RESERVED_ADDR : Z := 0xB0000000.
Definition THIRDPARTY_MEM_RESERVED_SIZE : Z := 0x10000000.

(** *** Exceptions of the printing functions

    Besides list indexing, the printing functions shift by a computed
    amount ([ValueError] on a negative count) and look names up in the
    dictionaries of the [thirdparty] module ([KeyError] on a missing
    name). *)

Inductive py_exn := PyIndexError | PyValueError | PyKeyError (k : string).

Inductive outcome (A : Type) :=
| Returned (a : A)
| Threw (e : py_exn).
Arguments Returned {A} a.
Arguments Threw {A} e.

#[global] Instance outcome_ret : MRet outcome := fun A a => Returned a.
#[global] Instance outcome_bind : MBind outcome := fun A B f m =>
  match m with
  | Returned a => f a
  | Threw e => Threw e
  end.

Definition of_result {A} (m : result A) : outcome A :=
  match m with
  | Ok a => Returned a
  | Raise IndexError => Threw PyIndexError
  end.

(** [d[k]] for a dictionary [d] *)
Definition py_getitem {A} (d : string -> option A) (k : string) : outcome A :=
  match d k with
  | Some v => Returned v
  | None => Threw (PyKeyError k)
  end.

(** *** [uint_to_bin]

    The loop [while z > 0: ...; z >>= 1] runs on a positive [z]; shifting a
    positive binary numeral right by one drops its last digit, and leaves 0
    once the numeral is 1. *)
Fixpoint uint_to_bin_while (x : Z) (z : positive) (b : string) : string :=
  let b := String.append b (if Z.land x (Zpos z) =? Zpos z then "1" else "0") in
  match z with
  | xH => b
  | xO z' | xI z' => uint_to_bin_while x z' b
  end.

Definition uint_to_bin (x bits : Z) : outcome string :=
  if bits - 1 <? 0 then Threw PyValueError   (* negative shift count *)
  else
    match Z.shiftl 1 (bits - 1) with
    | Zpos z => Returned (uint_to_bin_while x z "")
    | _ => Returned ""%string
    end.

(** The digits [uint_to_bin] writes for bit positions [k] down to 0. *)
Fixpoint bits_down (x : Z) (k : nat) : list ascii :=
  (if Z.testbit x (Z.of_nat k) then "1"%char else "0"%char) ::
  match k with
  | O => []
  | S k' => bits_down x k'
  end.

(** Value of a binary literal, as VHDL reads the emitted strings. *)
Definition bin_value (s : string) : Z :=
  fold_left (fun v c => 2 * v + (if Ascii.eqb c "1" then 1 else 0))
    (list_ascii_of_string s) 0.

(** *** Selecting from the tile list *)

(** [[f(t) for t in tiles if p(t)]] *)
Definition tiles_with {A} (p : tile_info.t -> bool) (f : tile_info.t -> A)
    (tiles : list tile_info.t) : list A :=
  ti ← tiles; if p ti then [f ti] else [].

Definition thirdparty_vendor (a : acc_info.t) : bool :=
  negb (String.eqb (acc_info.vendor a) "sld").

Definition on_io_bus (c : cache_info.t) : bool := negb (cache_info.idx c =? -1).

(** How the descriptor lists of [self] relate to the tile list and to the
    counters at any point of the walk. *)
Definition walk_lists (soc : soc.t) (st : walk.t) : Prop :=
  let self := walk.self st in
  soc_config.accelerators self
    = tiles_with (is_type ty_acc) tile_info.acc (tiles_of st) /\
  soc_config.llcs self = tiles_with (has_id llc_id) tile_info.llc (tiles_of st) /\
  soc_config.llcs self
    = (fun k => cache_info.mk k (24 + k)) <$> seqZ 0 (walk.llc_id st) /\
  (is_accelerator soc "cpu" = false -> 0 <= soc.get_cpu_num soc ->
   soc_config.l2s self = tiles_with (has_id l2_id) tile_info.l2 (tiles_of st)) /\
  List.filter on_io_bus (soc_config.l2s self)
    = (fun k => cache_info.mk k (8 + k))
        <$> seqZ 0 (if coherent soc then walk.cpu_id st else 0) /\
  soc_config.nthirdparty self
    = count thirdparty_vendor (soc_config.accelerators self).

(** The identifiers [id] of the tiles are exactly [0 .. n-1]: every tile
    carries either the sentinel [-1] or a value below [n], and every value
    below [n] is carried by some tile. *)
Definition dense_ids (id : tile_info.t -> Z) (n : Z) (tiles : list tile_info.t)
    : Prop :=
  (forall t ti, tiles !! t = Some ti -> id ti = -1 \/ 0 <= id ti < n) /\
  (forall k, 0 <= k < n -> exists t ti, tiles !! t = Some ti /\ id ti = k).

(** Number of the identifiers among [ids] that are assigned. *)
Definition assigned (ids : list Z) : nat :=
  length (List.filter (fun i => negb (i =? -1)) ids).

(** *** HP-bus slave map of [print_mapping] *)

Inductive ahb_slave :=
| ahbrom_hconfig | ahb2apb_hconfig | clint_hconfig
| mig7_hconfig (i : Z) | slm_hconfig (i : Z) | slmddr_hconfig (i : Z)
| fb_hconfig.

(** [if index >= 12: index = index + 1] *)
Definition skip12 (index : Z) : Z := if 12 <=? index then index + 1 else index.

(** *** I/O-bus slave map of [print_mapping] *)

Inductive apb_slave :=
| uart_pconfig | irqmp_pconfig | ibex_timer_pconfig | gptimer_pconfig
| esplink_pconfig | cpu_dvfs_pconfig (i : Z) | l2_cache_pconfig (id : Z)
| llc_cache_pconfig (i : Z) | svga_pconfig | eth0_pconfig | sgmii0_pconfig
| csr_t_pconfig (i : Z) | acc_pconfig (lowercase_name : string) (id : Z).

(** [csr_apb_size = (~CSR_APB_ADDR_MSK & 0xfff) + 1] *)
Definition csr_apb_size : Z := Z.land (Z.lnot CSR_APB_ADDR_MSK) 0xfff + 1.

Section Slaves.
Variable esp_config : soc_config.t.

(** The memory-controller, SLM and SLM-with-DDR entries of
    [fixed_ahbso_hconfig]. *)
Definition ahbso_mig7 : result (list (Z * ahb_slave)) :=
  mapM (fun i => h ← py_index DDR_HINDEX i; Ok (h, mig7_hconfig i))
    (py_range0 (soc_config.nmem esp_config)).

Definition ahbso_slm : list (Z * ahb_slave) :=
  (fun i => (skip12 (SLM_HINDEX + i), slm_hconfig i))
    <$> py_range0 (soc_config.nslm esp_config).

Definition ahbso_slmddr : list (Z * ahb_slave) :=
  (fun i => (skip12 (SLM_HINDEX + soc_config.nslm esp_config + i),
             slmddr_hconfig i))
    <$> py_range0 (soc_config.nslmddr esp_config).

Definition fixed_ahbso_hconfig : result (list (Z * ahb_slave)) :=
  mig7 ← ahbso_mig7;
  Ok ([(AHBROM_HINDEX, ahbrom_hconfig); (AHB2APB_HINDEX, ahb2apb_hconfig)]
      ++ (if riscv (soc_config.cpu_arch esp_config)
          then [(RISCV_CLINT_HINDEX, clint_hconfig)] else [])
      ++ mig7 ++ ahbso_slm ++ ahbso_slmddr
      ++ [(FB_HINDEX, fb_hconfig)]).

(** [remote_ahb_mask_misc] of [print_tiles]: the HP-bus indices flagged
    ['1']. *)
Definition remote_ahb_mask_misc : result (list Z) :=
  ddr ← mapM (fun j => py_index DDR_HINDEX j)
           (py_range0 (soc_config.nmem esp_config));
  Ok (ddr ++ ((fun j => skip12 (SLM_HINDEX + j))
                <$> py_range0 (soc_config.nslm esp_config
                               + soc_config.nslmddr esp_config))).

(** The tile CSRs: [(pindex, paddr, pmask)] of [csr_t_<i>]. *)
Definition csr_t : result (list (Z * Z * Z)) :=
  mapM (fun i => pindex ← py_index CSR_PINDEX i;
                 Ok (pindex, CSR_APB_ADDR + i * csr_apb_size, CSR_APB_ADDR_MSK))
    (py_range0 (Z.of_nat (soc_config.ntiles esp_config))).

End Slaves.

(** *** Tables over the tile list

    As for the cross-reference tables, [ts] is the enumeration
    [(i, esp_config.tiles[i])] for [i] in [range(0, ntiles)]. *)

Inductive srst_token := srst_sep | srst_named0 | srst_tile (i : nat).

Inductive loc_token := loc_sep | loc_yx (row col : nat).

(** [3 if coh_noc_width == 32 or dma_noc_width == 32 else 4] *)
Definition yx_width (coh_noc_width dma_noc_width : Z) : Z :=
  if (coh_noc_width =? 32) || (dma_noc_width =? 32) then 3 else 4.

Section TileTables.
Variable esp_config : soc_config.t.
Variable ts : list (nat * tile_info.t).

(** VHDL constant [io_tile_id] *)
Definition io_tile_id : Z := Z.of_nat (misc_id ts).

(** [tile_dma_id] (default [-1]) and [dma_tile_id] (default [0]): the
    accelerator identifiers, and [nacc] for the Ethernet in the I/O tile. *)
Definition tile_dma_id : table :=
  xref_tile_id acc_id ts ++ [(io_tile_id, soc_config.nacc esp_config)].

Definition dma_tile_id : table :=
  xref_id_tile (has_id acc_id) acc_id ts
  ++ [(soc_config.nacc esp_config, io_tile_id)].

(** [apb_tile_id]: I/O-bus index to tile.  [apb_tile_of] is the body of
    the loop over the tiles; [has_svga], [has_eth] and [has_sgmii] are the
    truth values of the configuration fields of these names. *)
Definition apb_tile_of (it : nat * tile_info.t) : table :=
  (if is_type ty_acc it.2
   then [(acc_info.idx (tile_info.acc it.2), Z.of_nat it.1)] else [])
  ++ (if is_type ty_mem it.2
      then if soc_config.coherence esp_config
           then [(cache_info.idx (tile_info.llc it.2), Z.of_nat it.1)]
           else []
      else [])
  ++ (if is_type ty_cpu it.2
      then if soc_config.coherence esp_config
           then [(cache_info.idx (tile_info.l2 it.2), Z.of_nat it.1)]
           else []
      else []).

Definition apb_tile_id (has_svga has_eth has_sgmii : bool) : result table :=
  csr ← mapM (fun i => pindex ← py_index CSR_PINDEX i; Ok (pindex, i))
          (py_range0 (Z.of_nat (soc_config.ntiles esp_config)));
  Ok (((fun i => (i, io_tile_id)) <$> py_range 0 4)
      ++ (if has_svga then [(5, io_tile_id)] else [])
      ++ (if has_eth
          then (6, io_tile_id) :: (if has_sgmii then [(7, io_tile_id)] else [])
          else [])
      ++ csr
      ++ (ts ≫= apb_tile_of)).

(** [esp_srst_sequence]: memory tiles, then CPU tiles, both from the
    highest tile index down; [first] tells whether nothing has been
    written yet. *)
Definition srst_mem (st : bool * list srst_token) (it : nat * tile_info.t)
    : bool * list srst_token :=
  if is_type ty_mem it.2
  then (false, st.2 ++ (if st.1 then [] else [srst_sep]) ++ [srst_tile it.1])
  else st.

Definition srst_cpu (st : bool * list srst_token) (it : nat * tile_info.t)
    : bool * list srst_token :=
  if is_type ty_cpu it.2
  then (false,
        st.2 ++ (if st.1
                 then if tile_info.cpu_id it.2 =? 0 then [srst_named0] else []
                 else [srst_sep])
             ++ [srst_tile it.1])
  else st.

Definition esp_srst_sequence : list srst_token :=
  (fold_left srst_cpu (rev ts) (fold_left srst_mem (rev ts) (true, []))).2.

(** [print_soc_locations]: the initialisers of [cpu_locs] and [mem_locs] *)
Definition cpu_locs : list loc_token :=
  it ← ts;
  if is_type ty_cpu it.2
  then loc_yx (tile_info.row it.2) (tile_info.col it.2)
       :: (if negb (tile_info.cpu_id it.2 =? soc_config.ncpu esp_config - 1)
           then [loc_sep] else [])
  else [].

Definition mem_locs : list loc_token :=
  it ← ts;
  if is_type ty_mem it.2
  then loc_yx (tile_info.row it.2) (tile_info.col it.2)
       :: (if negb (tile_info.mem_id it.2 =? soc_config.nmem esp_config - 1)
           then [loc_sep] else [])
  else [].

(** [print_tiles]: the coordinate vectors [tile_x] and [tile_y]; [bits] is
    [yx_width] of the two NoC widths. *)
Definition tile_x (bits : Z) : outcome (list (nat * string)) :=
  mapM (fun it => s ← uint_to_bin (Z.of_nat (tile_info.col it.2)) bits;
                  Returned (it.1, s)) ts.

Definition tile_y (bits : Z) : outcome (list (nat * string)) :=
  mapM (fun it => s ← uint_to_bin (Z.of_nat (tile_info.row it.2)) bits;
                  Returned (it.1, s)) ts.

End TileTables.

(** A list written with separators between consecutive elements. *)
Fixpoint separated {A} (sep : A) (l : list A) : list A :=
  match l with
  | [] => []
  | [a] => [a]
  | a :: l' => a :: sep :: separated sep l'
  end.

(** Tile indices selected by [p], highest first. *)
Definition tiles_desc (p : tile_info.t -> bool) (ts : list (nat * tile_info.t))
    : list nat :=
  it ← rev ts; if p it.2 then [it.1] else [].

(** Every element preceded by a separator. *)
Definition sep_before {A} (sep : A) (l : list A) : list A :=
  b ← l; [sep; b].

(** Tile indices selected by [p], in the order of [l]. *)
Definition indices_of (p : tile_info.t -> bool) (l : list (nat * tile_info.t))
    : list nat :=
  it ← l; if p it.2 then [it.1] else [].

(** The named association [0 =>] that [esp_srst_sequence] writes when its
    first element is the tile of CPU 0. *)
Definition srst_prefix (l : list (nat * tile_info.t)) : list srst_token :=
  match (it ← l; if is_type ty_cpu it.2 then [it.2] else []) with
  | t :: _ => if tile_info.cpu_id t =? 0 then [srst_named0] else []
  | [] => []
  end.

(** *** The I/O-bus slave map [fixed_apbo_pconfig] *)

Section ApbMap.
Variable esp_config : soc_config.t.
(** truth values of [esp_config.has_svga], [has_eth], [has_sgmii] *)
Variables (has_svga has_eth has_sgmii : bool).

Definition apbo_fixed : list (Z * apb_slave) :=
  [(1, uart_pconfig); (2, irqmp_pconfig);
   (3, match soc_config.cpu_arch esp_config with
       | ibex => ibex_timer_pconfig
       | _ => gptimer_pconfig
       end);
   (4, esplink_pconfig)].

Definition apbo_dvfs : result (list (Z * apb_slave)) :=
  mapM (fun i => dvfs ← py_index (soc_config.dvfs_ctrls esp_config) i;
                 Ok (cache_info.idx dvfs, cpu_dvfs_pconfig i))
    (py_range0 (soc_config.ndvfs esp_config)).

Definition apbo_l2 : result (list (list (Z * apb_slave))) :=
  mapM (fun i => l2 ← py_index (soc_config.l2s esp_config) i;
                 Ok (if negb (cache_info.idx l2 =? -1)
                     then [(cache_info.idx l2, l2_cache_pconfig (cache_info.id l2))]
                     else []))
    (py_range0 (soc_config.nl2 esp_config)).

Definition apbo_llc : result (list (Z * apb_slave)) :=
  mapM (fun i => llc ← py_index (soc_config.llcs esp_config) i;
                 Ok (cache_info.idx llc, llc_cache_pconfig i))
    (py_range0 (soc_config.nllc esp_config)).

Definition apbo_eth : list (Z * apb_slave) :=
  (if has_svga then [(5, svga_pconfig)] else [])
  ++ (if has_eth
      then (6, eth0_pconfig) :: (if has_sgmii then [(7, sgmii0_pconfig)] else [])
      else []).

Definition apbo_csr : result (list (Z * apb_slave)) :=
  mapM (fun i => pindex ← py_index CSR_PINDEX i; Ok (pindex, csr_t_pconfig i))
    (py_range0 (Z.of_nat (soc_config.ntiles esp_config))).

Definition apbo_acc : result (list (Z * apb_slave)) :=
  mapM (fun i => acc ← py_index (soc_config.accelerators esp_config) i;
                 Ok (acc_info.idx acc,
                     acc_pconfig (acc_info.lowercase_name acc) (acc_info.id acc)))
    (py_range0 (soc_config.nacc esp_config)).

Definition fixed_apbo_pconfig : result (list (Z * apb_slave)) :=
  dvfs ← apbo_dvfs;
  l2 ← apbo_l2;
  llc ← apbo_llc;
  csr ← apbo_csr;
  acc ← apbo_acc;
  Ok (apbo_fixed ++ dvfs ++ concat l2 ++ llc ++ apbo_eth ++ csr ++ acc).

End ApbMap.

(** ** Register windows and device-tree regions

    [print_mapping] gives every cache and accelerator a window on the I/O
    bus, written as the 12 address bits 19-8 (or 31-20 for the extended
    window of a third-party accelerator) and a mask; [print_devtree]
    declares the same devices as byte regions.  The dictionaries
    [THIRDPARTY_IRQ_TYPE] and [THIRDPARTY_COMPATIBLE] come from the
    [thirdparty] module and are parameters here. *)

(** [for i in ...: body], the local variables the loop updates carried
    in [s] *)
Fixpoint for_range {S B} (body : S -> Z -> outcome (B * S)) (idxs : list Z)
    (s : S) : outcome (list B) :=
  match idxs with
  | [] => Returned []
  | i :: idxs =>
      r ← body s i;
      bs ← for_range body idxs r.2;
      Returned (r.1 :: bs)
  end.

(** The constants [<name>_<id>_pindex], [_pirq], [_irq_type], [_paddr],
    [_pmask], [_paddr_ext], [_pmask_ext] of one accelerator, [name] being
    its lower-case name; [ext_bar] tells whether bank 2 of its [_pconfig]
    is an [apb_iobar]. *)
Module acc_apb.
Record t := mk {
  name : string;
  id : Z;
  pindex : Z;
  pirq : Z;
  irq_type : string;
  paddr : Z;
  pmask : Z;
  paddr_ext : Z;
  pmask_ext : Z;
  ext_bar : bool
}.
End acc_apb.

(** One accelerator node of the device tree: [<name>@<address>],
    [compatible = "<vendor>,<compatible>"], [reg = <0x0 address 0x0 size>],
    [interrupts], and whether it refers to [thirdparty_reserved]. *)
Module dt_node.
Record t := mk {
  name : string;
  address : Z;
  size : Z;
  vendor : string;
  compatible : string;
  interrupts : Z;
  memory_region : bool
}.
End dt_node.

Section Windows.
Variable esp_config : soc_config.t.
Variable THIRDPARTY_IRQ_TYPE : string -> option string.
Variable THIRDPARTY_COMPATIBLE : string -> option string.

(** Body of the accelerator loop of [print_mapping]; [n] is
    [THIRDPARTY_N]. *)
Definition acc_apb_body (n i : Z) : outcome (acc_apb.t * Z) :=
  acc ← of_result (py_index (soc_config.accelerators esp_config) i);
  let sld := String.eqb (acc_info.vendor acc) "sld" in
  let '(paddr, address_ext, msk, paddr_ext, msk_ext, n') :=
    if sld
    then
      let address := SLD_APB_ADDR + acc_info.id acc * 2 in
      let address_ext := 0 in
      (address, address_ext, SLD_APB_ADDR_MSK, address_ext, 0, n)
    else
      let '(address, size, address_ext, size_ext) :=
        if THIRDPARTY_APB_EXT_ADDRESS =? 0
        then (THIRDPARTY_APB_ADDRESS + n * THIRDPARTY_APB_ADDRESS_SIZE,
              THIRDPARTY_APB_ADDRESS_SIZE, 0, 0)
        else (0, 0,
              THIRDPARTY_APB_EXT_ADDRESS + n * THIRDPARTY_APB_EXT_ADDRESS_SIZE,
              THIRDPARTY_APB_EXT_ADDRESS_SIZE) in
      (Z.shiftr address 8, address_ext,
       Z.land 0xfff (Z.lnot (Z.shiftr size 8 - 1)),
       Z.shiftr address_ext 20,
       Z.land 0xfff (Z.lnot (Z.shiftr size_ext 20 - 1)),
       n + 1) in
  irq_type ← (if sld then Returned "0"%string
              else py_getitem THIRDPARTY_IRQ_TYPE (acc_info.lowercase_name acc));
  Returned (acc_apb.mk (acc_info.lowercase_name acc) (acc_info.id acc)
              (acc_info.idx acc) (acc_info.irq acc) irq_type
              paddr msk paddr_ext msk_ext (negb (address_ext =? 0)),
            n').

Definition acc_apb_windows : outcome (list acc_apb.t) :=
  for_range acc_apb_body (py_range0 (soc_config.nacc esp_config)) 0.

(** Bank 1 of [l2_cache_pconfig] and of [llc_cache_pconfig]: VHDL index
    and window address; the mask is [16#fff#]. *)
Definition l2_cache_paddr : result table :=
  l ← mapM (fun i => l2 ← py_index (soc_config.l2s esp_config) i;
                     Ok (if negb (cache_info.idx l2 =? -1)
                         then [(cache_info.id l2, 0xD0 + cache_info.idx l2 - 8)]
                         else []))
         (py_range0 (soc_config.nl2 esp_config));
  Ok (concat l).

Definition llc_cache_paddr : result table :=
  mapM (fun i => llc ← py_index (soc_config.llcs esp_config) i;
                 Ok (i, 0xE0 + cache_info.idx llc - 24))
    (py_range0 (soc_config.nllc esp_config)).

(** [base = AHB2APB_HADDR[esp_config.cpu_arch] << 20] *)
Definition devtree_base : Z :=
  Z.shiftl (AHB2APB_HADDR (soc_config.cpu_arch esp_config)) 20.

(** The nodes [l2cache<id>@<address>] and [llccache<id>@<address>] of
    [print_devtree], each of size [0x100]. *)
Definition devtree_l2 : result table :=
  l ← mapM (fun i => l2 ← py_index (soc_config.l2s esp_config) i;
                     Ok (if negb (cache_info.idx l2 =? -1)
                         then [(cache_info.id l2,
                                devtree_base + 0xD000
                                + Z.shiftl (cache_info.idx l2 - 8) 8)]
                         else []))
         (py_range0 (soc_config.nl2 esp_config));
  Ok (concat l).

Definition devtree_llc : result table :=
  l ← mapM (fun i => llc ← py_index (soc_config.llcs esp_config) i;
                     Ok (if negb (cache_info.idx llc =? -1)
                         then [(cache_info.id llc,
                                devtree_base + 0xE000
                                + Z.shiftl (cache_info.idx llc - 24) 8)]
                         else []))
         (py_range0 (soc_config.nllc esp_config));
  Ok (concat l).

(** The tables [tile_apb_idx], [tile_apb_paddr], [tile_apb_paddr_ext],
    [tile_apb_pmask], [tile_apb_pmask_ext], [tile_apb_irq] and
    [tile_irq_type] map the index of every accelerator tile to the
    constant [<name>_<id>_<suffix>]; one list of [(i, (name, id))] stands
    for all of them. *)
Definition tile_apb_refs (ts : list (nat * tile_info.t))
    : list (nat * (string * Z)) :=
  it ← ts;
  if is_type ty_acc it.2
  then [(it.1, (acc_info.lowercase_name (tile_info.acc it.2),
                acc_info.id (tile_info.acc it.2)))]
  else [].

(** Body of the accelerator loop of [print_devtree] *)
Definition devtree_acc_body (n i : Z) : outcome (dt_node.t * Z) :=
  acc ← of_result (py_index (soc_config.accelerators esp_config) i);
  let base := devtree_base in
  let sld := String.eqb (acc_info.vendor acc) "sld" in
  let '(address, size, n') :=
    if sld
    then (base + Z.shiftl (SLD_APB_ADDR + acc_info.id acc * 2) 8, 0x200, n)
    else
      let '(address, size) :=
        if THIRDPARTY_APB_EXT_ADDRESS =? 0
        then (base + THIRDPARTY_APB_ADDRESS + n * THIRDPARTY_APB_ADDRESS_SIZE,
              THIRDPARTY_APB_ADDRESS_SIZE)
        else (base + THIRDPARTY_APB_EXT_ADDRESS
                + n * THIRDPARTY_APB_EXT_ADDRESS_SIZE,
              THIRDPARTY_APB_EXT_ADDRESS_SIZE) in
      (address, size, n + 1) in
  compatible ← (if sld then Returned (acc_info.lowercase_name acc)
                else py_getitem THIRDPARTY_COMPATIBLE
                       (acc_info.lowercase_name acc));
  Returned (dt_node.mk (acc_info.lowercase_name acc) address size
              (acc_info.vendor acc) compatible (acc_info.irq acc + 1)
              (negb sld && negb (soc_config.nmem esp_config =? 0)),
            n').

Definition devtree_accelerators : outcome (list dt_node.t) :=
  for_range devtree_acc_body (py_range0 (soc_config.nacc esp_config)) 0.

(** The [reserved-memory] node of [print_devtree]: label, start and size
    of every region it declares. *)
Definition devtree_reserved : list (string * (Z * Z)) :=
  if negb (soc_config.nmem esp_config =? 0)
  then
    let nacc := soc_config.nacc esp_config in
    let nthirdparty := soc_config.nthirdparty esp_config in
    let acc_mem_address := ACC_MEM_RESERVED_START_ADDR in
    let tp_mem :=
      if nthirdparty <? nacc
      then (THIRDPARTY_MEM_RESERVED_ADDR, THIRDPARTY_MEM_RESERVED_SIZE)
      else (ACC_MEM_RESERVED_START_ADDR, ACC_MEM_RESERVED_TOTAL_SIZE) in
    let acc_mem_size :=
      if 0 <? nthirdparty
      then ACC_MEM_RESERVED_TOTAL_SIZE - THIRDPARTY_MEM_RESERVED_SIZE
      else ACC_MEM_RESERVED_TOTAL_SIZE in
    [("greth_reserved"%string, (0xa0000000, 0x200000))]
    ++ (if nthirdparty <? nacc
        then [("accelerator_reserved"%string, (acc_mem_address, acc_mem_size))]
        else [])
    ++ (if 0 <? nthirdparty
        then [("thirdparty_reserved"%string, tp_mem)]
        else [])
  else [].

End Windows.

(** Bytes a window of the given mask spans, in units of the mask's
    lowest bit: [(~mask & 0xfff) + 1], as [print_mapping] computes
    [csr_apb_size]. *)
Definition mask_units (mask : Z) : Z := Z.land (Z.lnot mask) 0xfff + 1.

(** Two regions [(start, size)] share no byte. *)
Definition disjoint_regions (r s : Z * Z) : Prop :=
  r.1 + r.2 <= s.1 \/ s.1 + s.2 <= r.1.

(** The device-tree node [d] declares the bytes that the window [w]
    decodes: bits 31-20 of the extended window when there is one, bits
    19-8 of the standard window otherwise. *)
Definition same_window (base : Z) (w : acc_apb.t) (d : dt_node.t) : Prop :=
  dt_node.address d
    = base + (if acc_apb.ext_bar w then Z.shiftl (acc_apb.paddr_ext w) 20
              else Z.shiftl (acc_apb.paddr w) 8) /\
  dt_node.size d
    = (if acc_apb.ext_bar w then Z.shiftl (mask_units (acc_apb.pmask_ext w)) 20
       else Z.shiftl (mask_units (acc_apb.pmask w)) 8) /\
  dt_node.interrupts d = acc_apb.pirq w + 1.

Section Sim.
Variable soc : soc.t.

Lemma lockstep_bind {A B A' B'} (R : A -> B -> Prop) (R' : A' -> B' -> Prop)
    m1 m2 (f1 : A -> result A') (f2 : B -> result B') :
  lockstep R m1 m2 ->
  (forall a b, R a b -> lockstep R' (f1 a) (f2 b)) ->
  lockstep R' (m1 ≫= f1) (m2 ≫= f2).
Proof.
  destruct m1 as [a|e1], m2 as [b|e2]; simpl; intros H Hf; try done.
  by apply Hf.
Qed.

Lemma lockstep_eq {A} (m : result A) : lockstep eq m m.
Proof. by destruct m. Qed.

Lemma tiles_set_sim ts t f st loc :
  sim ts t st loc -> lockstep (sim ts t) (tiles_set t f st) (tiles_set 0 f loc).
Proof.
  intros (Hlt & r & ti & -> & ->). unfold tiles_set. cbn.
  rewrite list_lookup_insert_eq by done. cbn.
  split; [done|]. exists r, (f ti). rewrite list_insert_insert_eq. done.
Qed.

Lemma tiles_get_sim ts t st loc :
  sim ts t st loc -> lockstep eq (tiles_get t st) (tiles_get 0 loc).
Proof.
  intros (Hlt & r & ti & -> & ->). unfold tiles_get. cbn.
  rewrite list_lookup_insert_eq by done. done.
Qed.


Lemma sim_intro ts t st loc ti :
  (t < length ts)%nat ->
  glue st [] = glue loc [] ->
  tiles_of st = <[t := ti]> ts ->
  tiles_of loc = [ti] ->
  sim ts t st loc.
Proof.
  intros Hlt Hr Hs Hl. split; [done|]. exists loc, ti.
  destruct st as [? ? ? ? ? ? ? ? ? []], loc as [? ? ? ? ? ? ? ? ? []].
  unfold tiles_of in *. cbn in *. by simplify_eq.
Qed.

#[local] Opaque tiles_set tiles_get py_index.

Ltac sim_open H :=
  let r := fresh "r" in let ti := fresh "ti" in let Hlt := fresh "Hlt" in
  destruct H as (Hlt & r & ti & -> & ->); cbn.

Ltac sim_close :=
  lazymatch goal with
  | |- lockstep _ (Ok _) (Ok _) => unfold lockstep; sim_close
  | |- lockstep _ (Raise _) (Raise _) => reflexivity
  | |- sim _ _ _ _ => eapply sim_intro; [eassumption|reflexivity|reflexivity|reflexivity]
  end.


Ltac sim_auto :=
  cbn;
  lazymatch goal with
  | |- context [if ?b then _ else _] => destruct b eqn:?; sim_auto
  | |- lockstep _ (Ok _) (Ok _) => sim_close
  | |- lockstep _ (Raise _) (Raise _) => reflexivity
  | |- lockstep _ (tiles_set _ _ _) (tiles_set _ _ _) =>
      apply tiles_set_sim; sim_close
  | |- lockstep _ (tiles_get _ _) (tiles_get _ _) =>
      eapply tiles_get_sim; sim_close
  | |- lockstep _ (match ?m with Ok _ => _ | Raise _ => _ end) _ =>
      destruct m eqn:?; sim_auto
  | |- lockstep _ (mbind _ (py_index ?l ?i)) _ =>
      destruct (py_index l i) eqn:?; sim_auto
  | |- lockstep (sim ?ts ?t) (mbind _ (tiles_get _ _)) _ =>
      eapply (lockstep_bind eq);
      [ sim_auto | intros ? ? <-; sim_auto ]
  | |- lockstep (sim ?ts ?t) (mbind _ _) _ =>
      eapply (lockstep_bind (sim ts t));
      [ sim_auto
      | let st := fresh "st" in let loc := fresh "loc" in let H := fresh "H" in
        intros st loc H; sim_open H; sim_auto ]
  end.

Lemma assign_cpu_sim ts t sel st loc :
  sim ts t st loc ->
  lockstep (sim ts t) (assign_cpu sel t st) (assign_cpu sel 0 loc).
Proof. intros H. unfold assign_cpu. sim_open H. sim_auto. Qed.

Lemma assign_slm_sim ts t sel st loc :
  sim ts t st loc ->
  lockstep (sim ts t) (assign_slm sel t st) (assign_slm sel 0 loc).
Proof. intros H. unfold assign_slm. sim_open H. sim_auto. Qed.

Lemma assign_slmddr_sim ts t sel st loc :
  sim ts t st loc ->
  lockstep (sim ts t) (assign_slmddr sel t st) (assign_slmddr sel 0 loc).
Proof. intros H. unfold assign_slmddr. sim_open H. sim_auto. Qed.

Lemma assign_mem_sim ts t sel st loc :
  sim ts t st loc ->
  lockstep (sim ts t) (assign_mem sel t st) (assign_mem sel 0 loc).
Proof. intros H. unfold assign_mem. sim_open H. sim_auto. Qed.

Lemma assign_io_sim ts t sel st loc :
  sim ts t st loc ->
  lockstep (sim ts t) (assign_io sel t st) (assign_io sel 0 loc).
Proof. intros H. unfold assign_io. sim_open H. sim_auto. Qed.

Lemma assign_acc_sim ts t sel x y st loc :
  sim ts t st loc ->
  lockstep (sim ts t) (assign_acc soc sel x y t st) (assign_acc soc sel x y 0 loc).
Proof. intros H. unfold assign_acc. sim_open H. sim_auto. Qed.

Lemma visit_tile_sim ts t x y st loc :
  sim ts t st loc ->
  lockstep (sim ts t) (visit_tile soc x y t st) (visit_tile soc x y 0 loc).
Proof.
  intros H. unfold visit_tile.
  repeat (eapply (lockstep_bind (sim ts t)); [|clear st loc H; intros st loc H]).
  all: first [ by apply tiles_set_sim | by apply assign_cpu_sim
             | by apply assign_slm_sim | by apply assign_slmddr_sim
             | by apply assign_mem_sim | by apply assign_io_sim
             | by apply assign_acc_sim ].
Qed.

#[local] Transparent tiles_set tiles_get.

Ltac split_atom b :=
  lazymatch b with
  | andb ?x ?y => first [split_atom x | split_atom y]
  | negb ?x => split_atom x
  | (if ?x then _ else _) => split_atom x
  | true => fail
  | false => fail
  | _ => destruct b
  end.

Ltac split_if :=
  match goal with
  | |- context [if ?b then _ else _] => split_atom b
  | |- context [py_index ?l ?i] => destruct (py_index l i)
  end.

Ltac unfold_setters :=
  cbv beta delta [tile_info.set_type tile_info.set_row tile_info.set_col
    tile_info.set_cpu_id tile_info.set_mem_id tile_info.set_slm_id
    tile_info.set_slmddr_id tile_info.set_l2 tile_info.set_llc
    tile_info.set_acc tile_info.set_has_l2 tile_info.set_has_tdvfs
    tile_info.set_has_ddr tile_info.set_design_point
    soc_config.set_nl2 soc_config.set_nthirdparty
    soc_config.set_accelerators soc_config.set_l2s soc_config.set_llcs
    soc_config.set_tiles
    walk.set_cpu_id walk.set_acc_l2_id walk.set_llc_id walk.set_mem_id
    walk.set_slm_id walk.set_slmddr_id walk.set_acc_id walk.set_acc_irq
    walk.set_self].

Ltac local_norm :=
  cbv beta iota zeta delta [
    assign_cpu assign_slm assign_slmddr assign_mem assign_io assign_acc
    tiles_set tiles_get on_self glue
    cpu_state cpu_tile slm_state slm_tile slm_cond slmddr_state slmddr_tile
    slmddr_cond mem_state mem_tile io_tile acc_state acc_tile acc_l2_cond
    sel_cpu sel_mem sel_io sel_acc sel_acc_l2 sel_slm sel_slmddr next_irq new_acc
    mbind result_bind lookup list_lookup insert list_insert andb negb
    cache_info.new cache_info.id cache_info.idx
    tile_info.set_type tile_info.set_row tile_info.set_col
    tile_info.set_cpu_id tile_info.set_mem_id tile_info.set_slm_id
    tile_info.set_slmddr_id tile_info.set_l2 tile_info.set_llc
    tile_info.set_acc tile_info.set_has_l2 tile_info.set_has_tdvfs
    tile_info.set_has_ddr tile_info.set_design_point
    tile_info.type tile_info.x tile_info.y tile_info.row tile_info.col
    tile_info.cpu_id tile_info.mem_id tile_info.slm_id tile_info.slmddr_id
    tile_info.l2 tile_info.llc tile_info.dvfs tile_info.acc tile_info.has_l2
    tile_info.has_tdvfs tile_info.has_ddr tile_info.design_point
    soc_config.set_nl2 soc_config.set_nthirdparty
    soc_config.set_accelerators soc_config.set_l2s soc_config.set_llcs
    soc_config.set_tiles
    soc_config.cpu_arch soc_config.ncpu soc_config.nacc soc_config.nmem
    soc_config.nslm soc_config.slm_kbytes soc_config.slm_tot_kbytes
    soc_config.slm_full_mask soc_config.nslmddr soc_config.slmddr_kbytes
    soc_config.slmddr_tot_kbytes soc_config.slmddr_full_mask
    soc_config.ntiles soc_config.coherence soc_config.has_dvfs
    soc_config.ndvfs soc_config.nl2 soc_config.nllc soc_config.ncdma
    soc_config.nthirdparty soc_config.accelerators soc_config.l2s
    soc_config.llcs soc_config.dvfs_ctrls soc_config.tiles
    walk.set_cpu_id walk.set_acc_l2_id walk.set_llc_id walk.set_mem_id
    walk.set_slm_id walk.set_slmddr_id walk.set_acc_id walk.set_acc_irq
    walk.set_self
    walk.cpu_id walk.cpu_dvfs_id walk.acc_l2_id walk.llc_id walk.mem_id
    walk.slm_id walk.slmddr_id walk.acc_id walk.acc_irq walk.self ].

Ltac local_run :=
  intros;
  match goal with r : walk.t, ti : tile_info.t |- _ =>
    destruct r as [? ? ? ? ? ? ? ? ? []], ti
  end;
  local_norm; repeat (split_if; local_norm); reflexivity.

Lemma tiles_set_local f r ti : tiles_set 0 f (glue r [ti]) = Ok (glue r [f ti]).
Proof. reflexivity. Qed.

Lemma assign_cpu_local r c ti :
  assign_cpu (noc_tile.ip_type c) 0 (glue r [ti]) =
    (i2 ← (if sel_cpu c && soc_config.coherence (walk.self r)
           then py_index L2_CACHE_PINDEX (walk.cpu_id r) else Ok 0);
     Ok (glue (cpu_state r c i2) [cpu_tile r c i2 ti])).
Proof. local_run. Qed.

Lemma assign_slm_local r c ti :
  assign_slm (noc_tile.ip_type c) 0 (glue r [ti]) =
    Ok (glue (slm_state r c ti) [slm_tile r c ti]).
Proof. local_run. Qed.

Lemma assign_slmddr_local r c ti :
  assign_slmddr (noc_tile.ip_type c) 0 (glue r [ti]) =
    Ok (glue (slmddr_state r c ti) [slmddr_tile r c ti]).
Proof. local_run. Qed.

Lemma assign_mem_local r c ti :
  assign_mem (noc_tile.ip_type c) 0 (glue r [ti]) =
    (il ← (if sel_mem c && soc_config.coherence (walk.self r)
           then py_index LLC_CACHE_PINDEX (walk.llc_id r) else Ok 0);
     Ok (glue (mem_state r c il) [mem_tile r c il ti])).
Proof. local_run. Qed.

Lemma assign_io_local r c ti :
  assign_io (noc_tile.ip_type c) 0 (glue r [ti]) = Ok (glue r [io_tile c ti]).
Proof. local_run. Qed.

Lemma assign_acc_local r x y ti :
  let c := soc.topology soc x y in
  assign_acc soc (noc_tile.ip_type c) x y 0 (glue r [ti]) =
    Ok (glue (acc_state soc r c ti) [acc_tile soc r c ti]).
Proof. intros c; subst c. local_run. Qed.

Lemma bind_Ok_l {A B} (a : A) (f : A -> result B) : Ok a ≫= f = f a.
Proof. reflexivity. Qed.

Lemma visit_tile_local x y r ti :
  visit_tile soc x y 0 (glue r [ti]) = visit_summary soc x y r ti.
Proof.
  unfold visit_tile, visit_summary. cbv zeta.
  repeat (rewrite tiles_set_local, bind_Ok_l).
  change (tile_info.set_has_ddr _ _) with (attrs_tile (soc.topology soc x y) x y ti).
  rewrite assign_cpu_local.
  destruct (if sel_cpu _ && _ then _ else _) as [i2|e]; [|reflexivity].
  rewrite !bind_Ok_l, assign_slm_local, bind_Ok_l, assign_slmddr_local, bind_Ok_l.
  rewrite assign_mem_local.
  change (soc_config.coherence (walk.self (slmddr_state _ _ _))) with
    (soc_config.coherence (walk.self r)).
  change (walk.llc_id (slmddr_state _ _ _)) with (walk.llc_id r).
  destruct (if sel_mem _ && _ then _ else _) as [il|e]; [|reflexivity].
  rewrite !bind_Ok_l, assign_io_local, bind_Ok_l.
  rewrite (assign_acc_local _ x y). cbv zeta.
  destruct r as [? ? ? ? ? ? ? ? ? []], ti.
  reflexivity.
Qed.

Lemma glue_glue r a b : glue (glue r a) b = glue r b.
Proof. reflexivity. Qed.

Lemma glue_tiles_of st : glue st (tiles_of st) = st.
Proof. by destruct st as [? ? ? ? ? ? ? ? ? []]. Qed.

Lemma glue_inj r r' a b : glue r [a] = glue r' [b] -> a = b /\ forall l, glue r l = glue r' l.
Proof.
  destruct r as [? ? ? ? ? ? ? ? ? []], r' as [? ? ? ? ? ? ? ? ? []].
  unfold glue; cbn. intros [= -> -> -> -> -> -> -> -> -> -> -> -> -> -> -> -> -> -> -> -> -> -> -> -> -> -> -> -> -> -> -> -> -> ->].
  done.
Qed.

(** One visit, in closed form, for a tile index within range. *)
Lemma visit_eq x y st ti :
  tiles_of st !! (y + x * soc.cols soc)%nat = Some ti ->
  visit soc x y st =
    (let c := soc.topology soc x y in
     let coh := soc_config.coherence (walk.self st) in
     i2 ← (if sel_cpu c && coh then py_index L2_CACHE_PINDEX (walk.cpu_id st) else Ok 0);
     il ← (if sel_mem c && coh then py_index LLC_CACHE_PINDEX (walk.llc_id st) else Ok 0);
     Ok (glue (next_state soc st c i2 il)
           (<[(y + x * soc.cols soc)%nat := resolved_tile soc st c x y i2 il ti]> (tiles_of st)))).
Proof.
  intros Hti. unfold visit. set (t := (y + x * soc.cols soc)%nat) in *.
  assert (sim (tiles_of st) t st (glue st [ti])) as Hsim.
  { eapply sim_intro; [by eapply lookup_lt_Some|done| |done].
    by rewrite list_insert_id. }
  apply (visit_tile_sim _ _ x y) in Hsim.
  rewrite visit_tile_local in Hsim. unfold visit_summary, lockstep in Hsim.
  cbv zeta in *.
  destruct (if sel_cpu _ && _ then _ else _) as [i2|e];
    [rewrite bind_Ok_l in *|destruct (visit_tile _ _ _ _ _); simpl in *; by subst].
  destruct (if sel_mem _ && _ then _ else _) as [il|e];
    [rewrite bind_Ok_l in *|destruct (visit_tile _ _ _ _ _); simpl in *; by subst].
  destruct (visit_tile _ _ _ _ _) as [st'|]; [|done].
  destruct Hsim as (_ & r & ti' & -> & Hg).
  apply glue_inj in Hg as [<- Hg]. by rewrite <-Hg.
Qed.

#[local] Transparent py_index.
End Sim.

(** ** Counting, scanning, indexing *)

Lemma count_nonneg {A} (p : A -> bool) l : 0 <= count p l.
Proof. induction l as [|a l IH]; simpl; [done|]. destruct (p a); lia. Qed.

Lemma count_app {A} (p : A -> bool) l1 l2 :
  count p (l1 ++ l2) = count p l1 + count p l2.
Proof. induction l1 as [|a l1 IH]; simpl; [done|]. rewrite IH. lia. Qed.

Lemma count_snoc {A} (p : A -> bool) l a :
  count p (l ++ [a]) = count p l + (if p a then 1 else 0).
Proof. rewrite count_app. simpl. lia. Qed.

Lemma count_take_le {A} (p : A -> bool) l n : count p (take n l) <= count p l.
Proof.
  rewrite <-(take_drop n l) at 2. rewrite count_app.
  pose proof (count_nonneg p (drop n l)). lia.
Qed.

Lemma count_le_length {A} (p : A -> bool) l : count p l <= Z.of_nat (length l).
Proof. induction l as [|a l IH]; simpl; [done|]. destruct (p a); lia. Qed.

Lemma scan_S r c :
  scan (S r) c = scan r c ++ ((fun y => (r, y)) <$> seq 0 c).
Proof. unfold scan. rewrite seq_S, bind_app. simpl. by rewrite app_nil_r. Qed.

Lemma length_scan r c : length (scan r c) = (r * c)%nat.
Proof.
  induction r as [|r IH]; [done|].
  rewrite scan_S, length_app, length_fmap, length_seq, IH. lia.
Qed.

Lemma scan_lookup r c x y :
  (x < r)%nat -> (y < c)%nat -> scan r c !! (y + x * c)%nat = Some (x, y).
Proof.
  induction r as [|r IH]; intros Hx Hy; [lia|]. rewrite scan_S.
  destruct (decide (x = r)) as [->|Hne].
  - rewrite lookup_app_r by (rewrite length_scan; lia).
    rewrite length_scan, list_lookup_fmap.
    replace (y + r * c - r * c)%nat with y by lia.
    by rewrite lookup_seq_lt.
  - rewrite lookup_app_l by (rewrite length_scan; nia). apply IH; lia.
Qed.

Lemma scan_lookup_inv r c n x y :
  scan r c !! n = Some (x, y) -> n = (y + x * c)%nat /\ (x < r)%nat /\ (y < c)%nat.
Proof.
  induction r as [|r IH]; [done|]. rewrite scan_S.
  intros [H|[Hge H]]%lookup_app_Some.
  - apply IH in H. lia.
  - rewrite length_scan in *. clear IH.
    apply list_lookup_fmap_Some in H as (y' & [= -> ->] & E).
    apply lookup_seq in E as [-> E]. simpl. split; [|by split; [lia|]].
    set (m := (r * c)%nat) in *. lia.
Qed.

Lemma py_index_seqZ m len i :
  0 <= i < len -> py_index (seqZ m len) i = Ok (m + i).
Proof.
  intros Hi. unfold py_index. rewrite length_seqZ.
  destruct (Z.leb_spec 0 i); [simpl|lia].
  destruct (Z.leb_spec 0 i); [simpl|lia].
  destruct (Z.ltb_spec i (Z.of_nat (Z.to_nat len))); [|lia].
  rewrite lookup_seqZ_lt by lia. f_equal. lia.
Qed.

Lemma py_index_seqZ_ge m len i :
  0 <= len <= i -> py_index (seqZ m len) i = Raise IndexError.
Proof.
  intros Hi. unfold py_index. rewrite length_seqZ.
  destruct (Z.leb_spec 0 i); [simpl|lia].
  destruct (Z.leb_spec 0 i); [simpl|lia].
  destruct (Z.ltb_spec i (Z.of_nat (Z.to_nat len))); [lia|done].
Qed.

Lemma L2_CACHE_PINDEX_lookup i :
  0 <= i < 16 -> py_index L2_CACHE_PINDEX i = Ok (8 + i).
Proof. apply (py_index_seqZ 8 16). Qed.

Lemma L2_CACHE_PINDEX_overflow i :
  16 <= i -> py_index L2_CACHE_PINDEX i = Raise IndexError.
Proof. intros. apply (py_index_seqZ_ge 8 16). lia. Qed.

Lemma LLC_CACHE_PINDEX_lookup i :
  0 <= i < 16 -> py_index LLC_CACHE_PINDEX i = Ok (24 + i).
Proof. apply (py_index_seqZ 24 16). Qed.

Lemma LLC_CACHE_PINDEX_overflow i :
  16 <= i -> py_index LLC_CACHE_PINDEX i = Raise IndexError.
Proof. intros. apply (py_index_seqZ_ge 24 16). lia. Qed.

Lemma irq_line_next a k :
  0 <= k -> next_irq a (irq_line a k) = irq_line a (k + 1).
Proof.
  intros Hk. unfold next_irq, irq_line. destruct (riscv a); [|done].
  repeat case_match; lia.
Qed.

Lemma walk_from_app soc cs1 cs2 st :
  walk_from soc (cs1 ++ cs2) st = walk_from soc cs1 st ≫= walk_from soc cs2.
Proof.
  revert st. induction cs1 as [|[x y] cs1 IH]; intros st; simpl; [done|].
  destruct (visit soc x y st) as [st'|e]; simpl; [apply IH|done].
Qed.

(** ** The invariant of the topology walk *)

Section WalkInv.
Variable soc : soc.t.

Lemma frozen_next st c i2 il L :
  frozen (walk.self (glue (next_state soc st c i2 il) L)) = frozen (walk.self st).
Proof. by destruct st as [? ? ? ? ? ? ? ? ? []]. Qed.

Lemma frozen_coherence c :
  frozen c = frozen (init_self soc) -> soc_config.coherence c = coherent soc.
Proof. intros H. by apply (f_equal soc_config.coherence) in H. Qed.

Lemma frozen_cpu_arch c :
  frozen c = frozen (init_self soc) -> soc_config.cpu_arch c = soc.CPU_ARCH soc.
Proof. intros H. by apply (f_equal soc_config.cpu_arch) in H. Qed.

Lemma cells_lookup n x y :
  scan (soc.rows soc) (soc.cols soc) !! n = Some (x, y) ->
  cells soc !! n = Some (soc.topology soc x y).
Proof. intros H. unfold cells. by rewrite list_lookup_fmap, H. Qed.

Lemma length_cells : length (cells soc) = (soc.rows soc * soc.cols soc)%nat.
Proof. unfold cells. by rewrite length_fmap, length_scan. Qed.

Lemma init_walk_inv : walk_inv soc 0 (init_walk soc).
Proof.
  constructor.
  - done.
  - unfold walk_at, init_walk, irq_line, walk.set_self. simpl.
    destruct (coherent soc), (riscv _); simpl; f_equal; lia.
  - unfold tiles_of. simpl. by rewrite length_replicate.
  - intros; lia.
  - intros k Hk. unfold tiles_of. simpl. apply lookup_replicate_2. lia.
  - simpl. by destruct (coherent soc).
  - done.
  - done.
  - intros k a. simpl. by rewrite lookup_nil.
  - done.
  - by constructor.
  - done.
  - by constructor.
Qed.

Lemma tiles_of_glue r L : tiles_of (glue r L) = L.
Proof. reflexivity. Qed.

Lemma walk_ctr_eqs st pre :
  walk.set_self (init_self soc) st = walk_at soc pre ->
  walk.cpu_id st = count sel_cpu pre /\
  walk.cpu_dvfs_id st = 0 /\
  walk.acc_l2_id st =
    soc.get_cpu_num soc + (if coherent soc then count (sel_acc_l2 soc) pre else 0) /\
  walk.llc_id st = (if coherent soc then count sel_mem pre else 0) /\
  walk.mem_id st = count sel_mem pre /\
  walk.slm_id st = count sel_slm pre /\
  walk.slmddr_id st = count sel_slmddr pre /\
  walk.acc_id st = count (sel_acc soc) pre /\
  walk.acc_irq st = irq_line (soc.CPU_ARCH soc) (count (sel_acc soc) pre).
Proof.
  destruct st. unfold walk.set_self, walk_at. simpl. intros [= -> -> -> -> -> -> -> -> ->].
  done.
Qed.

Lemma resolved_tile_final n st x y i2 il :
  let c := soc.topology soc x y in
  let pre := take n (cells soc) in
  walk_inv soc n st ->
  (sel_cpu c && coherent soc = true -> i2 = 8 + count sel_cpu pre) ->
  (sel_mem c && coherent soc = true -> il = 24 + count sel_mem pre) ->
  resolved_tile soc st c x y i2 il tile_info.new = final_tile soc n x y.
Proof.
  intros c pre Inv Hi2 Hil.
  destruct (walk_ctr_eqs _ _ (wi_ctr _ _ _ Inv))
    as (E1 & E2 & E3 & E4 & E5 & E6 & E7 & E8 & E9).
  pose proof (frozen_coherence _ (wi_frozen _ _ _ Inv)) as Hc.
  unfold final_tile, resolved_tile, new_acc. fold c pre. simpl.
  rewrite Hc, E1, E3, E4, E5, E6, E7, E8, E9.
  change (negb (soc.cache_en soc =? 0)) with (coherent soc).
  destruct (sel_cpu c && coherent soc) eqn:Ecpu; [rewrite Hi2 by done|];
  (destruct (sel_mem c && coherent soc) eqn:Emem; [rewrite Hil by done|]);
  reflexivity.
Qed.

Lemma take_cells_S n x y :
  scan (soc.rows soc) (soc.cols soc) !! n = Some (x, y) ->
  take (S n) (cells soc) = take n (cells soc) ++ [soc.topology soc x y].
Proof. intros H. by apply take_S_r, cells_lookup. Qed.

Lemma walk_inv_next n st x y i2 il :
  let c := soc.topology soc x y in
  let pre := take n (cells soc) in
  walk_inv soc n st ->
  scan (soc.rows soc) (soc.cols soc) !! n = Some (x, y) ->
  (sel_cpu c && coherent soc = true ->
   i2 = 8 + count sel_cpu pre /\ count sel_cpu pre < 16) ->
  (sel_mem c && coherent soc = true ->
   il = 24 + count sel_mem pre /\ count sel_mem pre < 16) ->
  walk_inv soc (S n)
    (glue (next_state soc st c i2 il)
       (<[n := resolved_tile soc st c x y i2 il tile_info.new]> (tiles_of st))).
Proof.
  intros c pre Inv Hxy Hi2 Hil. subst pre.
  destruct (walk_ctr_eqs _ _ (wi_ctr _ _ _ Inv))
    as (E1 & E2 & E3 & E4 & E5 & E6 & E7 & E8 & E9).
  pose proof (frozen_coherence _ (wi_frozen _ _ _ Inv)) as Hc.
  pose proof (frozen_cpu_arch _ (wi_frozen _ _ _ Inv)) as Ha.
  pose proof (scan_lookup_inv _ _ _ _ _ Hxy) as (Hn & Hx & Hy).
  assert (n < soc.rows soc * soc.cols soc)%nat as Hlt
    by (rewrite <-length_scan; by eapply lookup_lt_Some).
  pose proof (count_nonneg sel_cpu (take n (cells soc))) as P1.
  pose proof (count_nonneg sel_mem (take n (cells soc))) as P2.
  pose proof (count_nonneg (sel_acc soc) (take n (cells soc))) as P3.
  pose proof (count_nonneg (sel_acc_l2 soc) (take n (cells soc))) as P4.
  constructor; rewrite ?tiles_of_glue, ?(take_cells_S _ _ _ Hxy); fold c.
  - rewrite frozen_next. apply Inv.
  - unfold walk_at, glue, next_state, walk.set_self. simpl.
    rewrite Hc, Ha, E1, E3, E4, E5, E6, E7, E8, E9, !count_snoc.
    f_equal.
    + destruct (sel_cpu c); lia.
    + exact E2.
    + destruct (coherent soc), (sel_acc_l2 soc c); simpl; lia.
    + destruct (coherent soc), (sel_mem c); simpl; lia.
    + destruct (sel_mem c); lia.
    + destruct (sel_slm c); lia.
    + destruct (sel_slmddr c); lia.
    + destruct (sel_acc soc c); lia.
    + destruct (sel_acc soc c); [by rewrite irq_line_next|by rewrite Z.add_0_r].
  - rewrite length_insert. apply Inv.
  - intros k x' y' Hk Hs. destruct (decide (k = n)) as [->|Hne].
    + rewrite list_lookup_insert_eq by (rewrite (wi_len _ _ _ Inv); lia).
      rewrite Hxy in Hs. injection Hs as <- <-. f_equal.
      apply resolved_tile_final; [done| |];
        intros H; [by destruct (Hi2 H)|by destruct (Hil H)].
    + rewrite list_lookup_insert_ne by done. apply Inv; [lia|done].
  - intros k Hk. rewrite list_lookup_insert_ne by lia. apply Inv. lia.
  - unfold glue, next_state, next_self. simpl.
    rewrite Hc, (wi_nl2 _ _ _ Inv), !count_snoc.
    destruct (coherent soc), (sel_cpu c), (sel_acc_l2 soc c); simpl; lia.
  - unfold glue, next_state, next_self. simpl.
    rewrite (wi_nthirdparty _ _ _ Inv), count_snoc.
    change (sel_acc soc c && negb (String.eqb (noc_tile.vendor c) "sld"))
      with (sel_thirdparty soc c).
    destruct (sel_thirdparty soc c); lia.
  - unfold glue, next_state, next_self. simpl.
    rewrite count_snoc. destruct (sel_acc soc c).
    + rewrite length_app, Nat2Z.inj_add, (wi_accs_len _ _ _ Inv). done.
    + rewrite (wi_accs_len _ _ _ Inv). lia.
  - unfold glue, next_state, next_self. simpl. intros k a.
    destruct (sel_acc soc c); [|apply Inv].
    intros [H|[Hk H]]%lookup_app_Some; [by eapply Inv|].
    pose proof (wi_accs_len _ _ _ Inv) as Hlen.
    destruct (k - _)%nat eqn:Ek; [|done]. injection H as <-.
    assert (Z.of_nat k = count (sel_acc soc) (take n (cells soc))) as Hk' by lia.
    unfold acc_ok, new_acc. simpl. by rewrite E8, E9, Hk'.
  - unfold glue, next_state, next_self. simpl. rewrite Hc.
    pose proof (wi_l2s_len _ _ _ Inv) as Hlen.
    destruct (sel_acc_l2 soc c && coherent soc), (sel_cpu c && coherent soc);
      rewrite ?length_app; simpl; lia.
  - unfold glue, next_state, next_self. simpl. rewrite Hc.
    pose proof (wi_l2s _ _ _ Inv) as Hl2.
    assert (sel_cpu c && coherent soc = true ->
            l2_ok soc (cache_info.mk (walk.cpu_id st) i2)) as Hnew.
    { intros [-> ?]%Hi2. left. simpl. lia. }
    assert (l2_ok soc (cache_info.mk (walk.acc_l2_id st) (-1))) as Hnew'.
    { right. simpl. rewrite E3. destruct (coherent soc); lia. }
    destruct (sel_acc_l2 soc c && coherent soc), (sel_cpu c && coherent soc);
      rewrite ?Forall_app, ?Forall_singleton; auto.
  - unfold glue, next_state, next_self. simpl. rewrite Hc.
    pose proof (wi_llcs_len _ _ _ Inv) as Hlen.
    destruct (sel_mem c && coherent soc); rewrite ?length_app; simpl; lia.
  - unfold glue, next_state, next_self. simpl. rewrite Hc.
    pose proof (wi_llcs _ _ _ Inv) as Hllc.
    destruct (sel_mem c && coherent soc) eqn:Em; [|done].
    rewrite Forall_app, Forall_singleton. split; [done|].
    destruct (Hil eq_refl) as [-> ?]. split; simpl.
    + rewrite E4. destruct (coherent soc); lia.
    + rewrite E4. destruct (coherent soc); [lia|]. by rewrite andb_false_r in Em.
Qed.

Lemma within_bands_snoc pre c :
  within_bands soc (pre ++ [c]) = true -> within_bands soc pre = true.
Proof.
  unfold within_bands. rewrite !count_snoc.
  destruct (coherent soc); simpl; [|done].
  rewrite !andb_true_iff, !Z.leb_le. destruct (sel_cpu c), (sel_mem c); lia.
Qed.

Lemma visit_step n st x y :
  walk_inv soc n st ->
  scan (soc.rows soc) (soc.cols soc) !! n = Some (x, y) ->
  within_bands soc (take n (cells soc)) = true ->
  if within_bands soc (take (S n) (cells soc))
  then exists st', visit soc x y st = Ok st' /\ walk_inv soc (S n) st'
  else visit soc x y st = Raise IndexError.
Proof.
  intros Inv Hxy Hw.
  destruct (walk_ctr_eqs _ _ (wi_ctr _ _ _ Inv))
    as (E1 & _ & _ & E4 & _).
  pose proof (frozen_coherence _ (wi_frozen _ _ _ Inv)) as Hc.
  pose proof (scan_lookup_inv _ _ _ _ _ Hxy) as (Hn & Hx & Hy).
  assert (n < soc.rows soc * soc.cols soc)%nat as Hlt
    by (rewrite <-length_scan; by eapply lookup_lt_Some).
  pose proof (count_nonneg sel_cpu (take n (cells soc))) as P1.
  pose proof (count_nonneg sel_mem (take n (cells soc))) as P2.
  assert (tiles_of st !! (y + x * soc.cols soc)%nat = Some tile_info.new) as Hti.
  { rewrite <-Hn. apply Inv. lia. }
  rewrite (visit_eq soc x y st _ Hti), <-Hn. cbv zeta.
  rewrite Hc, E1, E4.
  rewrite (take_cells_S _ _ _ Hxy). unfold within_bands in *.
  rewrite !count_snoc.
  set (c := soc.topology soc x y) in *.
  set (a := count sel_cpu (take n (cells soc))) in *.
  set (b := count sel_mem (take n (cells soc))) in *.
  destruct (coherent soc) eqn:Ecoh; simpl in *.
  - apply andb_true_iff in Hw as [Ha%Z.leb_le Hb%Z.leb_le].
    rewrite !andb_true_r.
    destruct (sel_cpu c) eqn:Ecpu.
    + destruct (Z.leb_spec (a + 1) 16); simpl.
      * rewrite L2_CACHE_PINDEX_lookup by lia. rewrite ?bind_Ok_l.
        destruct (sel_mem c) eqn:Emem.
        -- destruct (Z.leb_spec (b + 1) 16); simpl.
           ++ rewrite LLC_CACHE_PINDEX_lookup by lia. rewrite ?bind_Ok_l.
              eexists; split; [done|].
              apply walk_inv_next; fold c; rewrite ?Ecoh, ?Ecpu, ?Emem;
                try done; intros _; fold a b; split; lia.
           ++ by rewrite LLC_CACHE_PINDEX_overflow by lia.
        -- rewrite Z.add_0_r. destruct (Z.leb_spec b 16); [|lia]. simpl.
           rewrite ?bind_Ok_l. eexists; split; [done|].
           apply walk_inv_next; fold c; rewrite ?Ecoh, ?Ecpu, ?Emem;
             try done; intros _; fold a b; split; lia.
      * by rewrite L2_CACHE_PINDEX_overflow by lia.
    + rewrite Z.add_0_r. destruct (Z.leb_spec a 16); [|lia]. simpl.
      rewrite ?bind_Ok_l. destruct (sel_mem c) eqn:Emem.
      * destruct (Z.leb_spec (b + 1) 16); simpl.
        -- rewrite LLC_CACHE_PINDEX_lookup by lia. rewrite ?bind_Ok_l.
           eexists; split; [done|].
           apply walk_inv_next; fold c; rewrite ?Ecoh, ?Ecpu, ?Emem;
             try done; intros _; fold a b; split; lia.
        -- by rewrite LLC_CACHE_PINDEX_overflow by lia.
      * rewrite Z.add_0_r. destruct (Z.leb_spec b 16); [|lia]. simpl.
        rewrite ?bind_Ok_l. eexists; split; [done|].
        apply walk_inv_next; fold c; rewrite ?Ecoh, ?Ecpu, ?Emem; done.
  - rewrite ?andb_false_r, ?bind_Ok_l.
    eexists; split; [done|].
    apply walk_inv_next; fold c; rewrite ?Ecoh, ?andb_false_r; done.
Qed.

Lemma within_bands_nil : within_bands soc [] = true.
Proof. unfold within_bands. simpl. by destruct (coherent soc). Qed.

(** The walk over the first [n] cells: it either succeeds and establishes
    the invariant, or some index band has overflowed and it has raised. *)
Lemma walk_prefix n :
  (n <= soc.rows soc * soc.cols soc)%nat ->
  if within_bands soc (take n (cells soc))
  then exists st,
    walk_from soc (take n (scan (soc.rows soc) (soc.cols soc))) (init_walk soc)
      = Ok st /\ walk_inv soc n st
  else
    walk_from soc (take n (scan (soc.rows soc) (soc.cols soc))) (init_walk soc)
      = Raise IndexError.
Proof.
  induction n as [|n IH]; intros Hn.
  - rewrite !take_0, within_bands_nil. eexists; split; [done|apply init_walk_inv].
  - destruct (lookup_lt_is_Some_2 (scan (soc.rows soc) (soc.cols soc)) n)
      as [[x y] Hxy]; [rewrite length_scan; lia|].
    rewrite (take_S_r _ _ _ Hxy), walk_from_app.
    specialize (IH ltac:(lia)).
    destruct (within_bands soc (take n (cells soc))) eqn:W.
    + destruct IH as (st & -> & Inv). rewrite bind_Ok_l. simpl.
      pose proof (visit_step n st x y Inv Hxy W) as Hstep.
      destruct (within_bands soc (take (S n) (cells soc))).
      * destruct Hstep as (st' & -> & Inv'). by exists st'.
      * by rewrite Hstep.
    + rewrite IH. simpl.
      destruct (within_bands soc (take (S n) (cells soc))) eqn:W'; [|done].
      rewrite (take_cells_S _ _ _ Hxy) in W'.
      apply within_bands_snoc in W'. congruence.
Qed.

(** [soc_config(soc)] returns iff the index bands suffice, and then the
    invariant holds for the whole grid. *)
Lemma soc_config_init_ok :
  within_bands soc (cells soc) = true ->
  exists st, soc_config_init soc = Ok (walk.self st) /\
             walk_inv soc (soc.rows soc * soc.cols soc) st.
Proof.
  intros W. pose proof (walk_prefix (soc.rows soc * soc.cols soc) ltac:(lia)) as H.
  rewrite !take_ge in H by (rewrite ?length_cells, ?length_scan; lia).
  rewrite W in H. destruct H as (st & Hst & Inv).
  exists st. split; [|done]. unfold soc_config_init. by rewrite Hst.
Qed.

Lemma soc_config_init_raise :
  within_bands soc (cells soc) = false ->
  soc_config_init soc = Raise IndexError.
Proof.
  intros W. pose proof (walk_prefix (soc.rows soc * soc.cols soc) ltac:(lia)) as H.
  rewrite !take_ge in H by (rewrite ?length_cells, ?length_scan; lia).
  rewrite W in H. unfold soc_config_init. by rewrite H.
Qed.

Lemma soc_config_init_inv cfg :
  soc_config_init soc = Ok cfg ->
  within_bands soc (cells soc) = true /\
  exists st, cfg = walk.self st /\
             walk_inv soc (soc.rows soc * soc.cols soc) st.
Proof.
  intros H. destruct (within_bands soc (cells soc)) eqn:W.
  - split; [done|]. destruct (soc_config_init_ok W) as (st & Hst & Inv).
    exists st. split; [congruence|done].
  - rewrite (soc_config_init_raise W) in H. done.
Qed.
End WalkInv.

(** ** The resolved configuration *)

Section Resolved.
Variable soc : soc.t.
Variable cfg : soc_config.t.
Hypothesis Hinit : soc_config_init soc = Ok cfg.

Lemma resolved_frozen : frozen cfg = frozen (init_self soc).
Proof.
  destruct (soc_config_init_inv soc cfg Hinit) as (_ & st & -> & Inv). apply Inv.
Qed.

Lemma resolved_coherence : soc_config.coherence cfg = coherent soc.
Proof. apply frozen_coherence, resolved_frozen. Qed.

Lemma resolved_cpu_arch : soc_config.cpu_arch cfg = soc.CPU_ARCH soc.
Proof. apply frozen_cpu_arch, resolved_frozen. Qed.

Lemma resolved_ntiles :
  soc_config.ntiles cfg = (soc.rows soc * soc.cols soc)%nat.
Proof. by pose proof (f_equal soc_config.ntiles resolved_frozen). Qed.

Lemma resolved_nmem : soc_config.nmem cfg = soc.get_mem_num soc.
Proof. by pose proof (f_equal soc_config.nmem resolved_frozen). Qed.

Lemma resolved_ndvfs : soc_config.ndvfs cfg = 0.
Proof. by pose proof (f_equal soc_config.ndvfs resolved_frozen). Qed.

Lemma resolved_dvfs_ctrls : soc_config.dvfs_ctrls cfg = [].
Proof. by pose proof (f_equal soc_config.dvfs_ctrls resolved_frozen). Qed.

Lemma resolved_length_tiles :
  length (soc_config.tiles cfg) = (soc.rows soc * soc.cols soc)%nat.
Proof.
  destruct (soc_config_init_inv soc cfg Hinit) as (_ & st & -> & Inv). apply Inv.
Qed.

Lemma resolved_tile_lookup n x y :
  scan (soc.rows soc) (soc.cols soc) !! n = Some (x, y) ->
  soc_config.tiles cfg !! n = Some (final_tile soc n x y).
Proof.
  intros Hxy.
  destruct (soc_config_init_inv soc cfg Hinit) as (_ & st & -> & Inv).
  apply (wi_done _ _ _ Inv); [|done].
  rewrite <-length_scan. by eapply lookup_lt_Some.
Qed.

Lemma resolved_tile_at x y :
  (x < soc.rows soc)%nat -> (y < soc.cols soc)%nat ->
  soc_config.tiles cfg !! (y + x * soc.cols soc)%nat =
    Some (final_tile soc (y + x * soc.cols soc) x y).
Proof. intros Hx Hy. by apply resolved_tile_lookup, scan_lookup. Qed.

Lemma resolved_tile_inv n ti :
  soc_config.tiles cfg !! n = Some ti ->
  exists x y, scan (soc.rows soc) (soc.cols soc) !! n = Some (x, y) /\
              ti = final_tile soc n x y.
Proof.
  intros Hti. pose proof (lookup_lt_Some _ _ _ Hti) as Hlt.
  rewrite resolved_length_tiles, <-length_scan in Hlt.
  destruct (lookup_lt_is_Some_2 _ _ Hlt) as [[x y] Hxy].
  exists x, y. split; [done|]. rewrite (resolved_tile_lookup _ _ _ Hxy) in Hti. congruence.
Qed.

Lemma resolved_within_bands : within_bands soc (cells soc) = true.
Proof. by destruct (soc_config_init_inv soc cfg Hinit). Qed.
End Resolved.

(** ** Facts about resolved tiles *)

Lemma count_take_lt {A} (p : A -> bool) l t c :
  l !! t = Some c -> p c = true -> count p (take t l) < count p l.
Proof.
  intros Hl Hp. rewrite <-(take_drop (S t) l) at 2.
  rewrite (take_S_r _ _ _ Hl), !count_app. simpl. rewrite Hp.
  pose proof (count_nonneg p (drop (S t) l)). lia.
Qed.

Lemma count_take_mono {A} (p : A -> bool) l i j :
  (i <= j)%nat -> count p (take i l) <= count p (take j l).
Proof.
  intros Hij. replace i with (i `min` j)%nat by lia.
  rewrite <-take_take. apply count_take_le.
Qed.

Lemma count_take_strict {A} (p : A -> bool) l i j c :
  (i < j)%nat -> l !! i = Some c -> p c = true ->
  count p (take i l) < count p (take j l).
Proof.
  intros Hij Hl Hp.
  pose proof (count_take_mono p l (S i) j ltac:(lia)) as H.
  rewrite (take_S_r _ _ _ Hl), count_snoc, Hp in H. lia.
Qed.

Lemma mapM_result_cons {A B} (f : A -> result B) a l :
  mapM f (a :: l) = (y ← f a; k ← mapM f l; Ok (y :: k)).
Proof. reflexivity. Qed.

Lemma mapM_result_enum {A} (l0 l : list A) :
  mapM (fun i => match (l0 ++ l) !! i with
                 | Some t => Ok (i, t)
                 | None => Raise IndexError
                 end) (seq (length l0) (length l))
  = Ok (imap (fun i t => ((length l0 + i)%nat, t)) l).
Proof.
  revert l0. induction l as [|a l IH]; intros l0; [done|].
  cbn [length seq]. rewrite mapM_result_cons, list_lookup_middle by done.
  rewrite bind_Ok_l.
  replace (S (length l0)) with (length (l0 ++ [a])) by (rewrite length_app; simpl; lia).
  replace (l0 ++ a :: l) with ((l0 ++ [a]) ++ l) by (by rewrite <-app_assoc).
  rewrite IH, bind_Ok_l. simpl. f_equal. f_equal.
  - f_equal. lia.
  - apply imap_ext. intros i x _. simpl. f_equal. rewrite length_app. simpl. lia.
Qed.

Lemma tiles_enum_ok cfg :
  soc_config.ntiles cfg = length (soc_config.tiles cfg) ->
  tiles_enum cfg = Ok (enum (soc_config.tiles cfg)).
Proof.
  intros H. unfold tiles_enum. rewrite H.
  apply (mapM_result_enum [] (soc_config.tiles cfg)).
Qed.

Lemma elem_of_enum l i t : (i, t) ∈ enum l <-> l !! i = Some t.
Proof.
  unfold enum. rewrite elem_of_lookup_imap. split.
  - intros (j & y & [= -> ->] & H). done.
  - intros H. by exists i, t.
Qed.

Lemma enum_lookup l i : enum l !! i = (fun t => (i, t)) <$> l !! i.
Proof. unfold enum. apply list_lookup_imap. Qed.

Lemma fst_enum l : (enum l).*1 = seq 0 (length l).
Proof.
  apply list_eq. intros i. rewrite list_lookup_fmap, enum_lookup.
  destruct (l !! i) as [t|] eqn:E; simpl.
  - symmetry. apply lookup_seq. split; [done|]. by eapply lookup_lt_Some.
  - symmetry. apply lookup_seq_ge. by apply lookup_ge_None.
Qed.

(** ** Identifier assignment: CPUs, caches, accelerators *)

Section Ids.
Variable soc : soc.t.

Lemma final_tile_type_cpu n x y :
  tile_info.type (final_tile soc n x y) = ty_cpu ->
  sel_cpu (soc.topology soc x y) = true /\
  sel_acc soc (soc.topology soc x y) = false.
Proof.
  unfold final_tile, resolved_tile. simpl.
  by repeat (case_match; try done).
Qed.

Lemma final_tile_type_mem n x y :
  tile_info.type (final_tile soc n x y) = ty_mem ->
  sel_mem (soc.topology soc x y) = true /\
  sel_acc soc (soc.topology soc x y) = false.
Proof.
  unfold final_tile, resolved_tile. simpl.
  by repeat (case_match; try done).
Qed.

Lemma final_tile_type_acc n x y :
  tile_info.type (final_tile soc n x y) = ty_acc ->
  sel_acc soc (soc.topology soc x y) = true.
Proof.
  unfold final_tile, resolved_tile. simpl.
  by repeat (case_match; try done).
Qed.

Lemma within_bands_cpu n c :
  within_bands soc (cells soc) = true -> coherent soc = true ->
  cells soc !! n = Some c -> sel_cpu c = true ->
  0 <= count sel_cpu (take n (cells soc)) < 16.
Proof.
  unfold within_bands. intros W Hcoh Hc Hp. rewrite Hcoh in W. simpl in W.
  apply andb_true_iff in W as [W%Z.leb_le _].
  pose proof (count_take_lt sel_cpu _ _ _ Hc Hp).
  pose proof (count_nonneg sel_cpu (take n (cells soc))). lia.
Qed.

Lemma within_bands_mem n c :
  within_bands soc (cells soc) = true -> coherent soc = true ->
  cells soc !! n = Some c -> sel_mem c = true ->
  0 <= count sel_mem (take n (cells soc)) < 16.
Proof.
  unfold within_bands. intros W Hcoh Hc Hp. rewrite Hcoh in W. simpl in W.
  apply andb_true_iff in W as [_ W%Z.leb_le].
  pose proof (count_take_lt sel_mem _ _ _ Hc Hp).
  pose proof (count_nonneg sel_mem (take n (cells soc))). lia.
Qed.
End Ids.

(** C4. With coherence enabled, a CPU tile's identifier is the number of CPU
    cells before it in row-major scan order (a counter starting at 0), its
    private-cache descriptor has that same identifier and the bus index
    [L2_CACHE_PINDEX[cpu_id]]; a memory tile's identifier is the number of
    memory cells before it and its LLC-split descriptor has that identifier
    and the bus index [LLC_CACHE_PINDEX[llc_id]]. *)
Theorem C4_cpu_and_llc_descriptors (soc : soc.t) (cfg : soc_config.t) :
  soc_config_init soc = Ok cfg ->
  coherent soc = true ->
  forall t ti, soc_config.tiles cfg !! t = Some ti ->
    (tile_info.type ti = ty_cpu ->
       tile_info.cpu_id ti = count sel_cpu (take t (cells soc)) /\
       cache_info.id (tile_info.l2 ti) = tile_info.cpu_id ti /\
       py_index L2_CACHE_PINDEX (tile_info.cpu_id ti)
         = Ok (cache_info.idx (tile_info.l2 ti))) /\
    (tile_info.type ti = ty_mem ->
       tile_info.mem_id ti = count sel_mem (take t (cells soc)) /\
       cache_info.id (tile_info.llc ti) = tile_info.mem_id ti /\
       py_index LLC_CACHE_PINDEX (cache_info.id (tile_info.llc ti))
         = Ok (cache_info.idx (tile_info.llc ti))).
Proof.
  intros Hinit Hcoh t ti Hti.
  destruct (resolved_tile_inv soc cfg Hinit t ti Hti) as (x & y & Hxy & ->).
  pose proof (resolved_within_bands soc cfg Hinit) as W.
  pose proof (cells_lookup soc _ _ _ Hxy) as Hc.
  split; intros Hty.
  - apply final_tile_type_cpu in Hty as [Hcpu Hacc].
    pose proof (within_bands_cpu soc t _ W Hcoh Hc Hcpu) as Hb.
    unfold final_tile, resolved_tile, sel_acc_l2. simpl.
    change (negb (soc.cache_en soc =? 0)) with (coherent soc).
    rewrite Hcpu, Hacc, Hcoh. simpl.
    split; [done|split; [done|]]. by apply L2_CACHE_PINDEX_lookup.
  - apply final_tile_type_mem in Hty as [Hmem Hacc].
    pose proof (within_bands_mem soc t _ W Hcoh Hc Hmem) as Hb.
    unfold final_tile, resolved_tile. simpl.
    change (negb (soc.cache_en soc =? 0)) with (coherent soc).
    rewrite Hmem, Hcoh. simpl.
    split; [done|split; [done|]]. by apply LLC_CACHE_PINDEX_lookup.
Qed.

Lemma C4_cpu_and_llc_descriptors_witness :
  soc_config_init soc_scenario_a = Ok (resolved soc_scenario_a) /\
  coherent soc_scenario_a = true /\
  exists t0 c0 t1 c1,
    soc_config.tiles (resolved soc_scenario_a) !! 0%nat = Some t0 /\
    tile_info.cpu_id t0 = 0 /\ tile_info.l2 t0 = c0 /\
    cache_info.id c0 = 0 /\ py_index L2_CACHE_PINDEX 0 = Ok (cache_info.idx c0) /\
    soc_config.tiles (resolved soc_scenario_a) !! 15%nat = Some t1 /\
    tile_info.mem_id t1 = 0 /\ tile_info.llc t1 = c1 /\
    cache_info.id c1 = 0 /\ py_index LLC_CACHE_PINDEX 0 = Ok (cache_info.idx c1).
Proof.
  assert (soc_config_init soc_scenario_a = Ok (resolved soc_scenario_a)) as Hinit
    by (vm_compute; reflexivity).
  assert (coherent soc_scenario_a = true) as Hcoh by reflexivity.
  split; [exact Hinit|split; [exact Hcoh|]].
  destruct (soc_config.tiles (resolved soc_scenario_a) !! 0%nat) as [t0|] eqn:E0;
    [|vm_compute in E0; discriminate].
  destruct (soc_config.tiles (resolved soc_scenario_a) !! 15%nat) as [t1|] eqn:E1;
    [|vm_compute in E1; discriminate].
  exists t0, (tile_info.l2 t0), t1, (tile_info.llc t1).
  destruct (C4_cpu_and_llc_descriptors _ _ Hinit Hcoh _ _ E0) as [Hcpu _].
  destruct (C4_cpu_and_llc_descriptors _ _ Hinit Hcoh _ _ E1) as [_ Hmem].
  assert (tile_info.type t0 = ty_cpu) as Ht0
    by (vm_compute in E0; injection E0 as <-; reflexivity).
  assert (tile_info.type t1 = ty_mem) as Ht1
    by (vm_compute in E1; injection E1 as <-; reflexivity).
  destruct (Hcpu Ht0) as (H1 & H2 & H3). destruct (Hmem Ht1) as (H4 & H5 & H6).
  assert (tile_info.cpu_id t0 = 0) as Z0 by (rewrite H1; reflexivity).
  assert (tile_info.mem_id t1 = 0) as Z1 by (rewrite H4; reflexivity).
  rewrite Z0 in *. rewrite Z1 in *. rewrite H5 in H6.
  repeat split; assumption || reflexivity.
Defined.

(** C3 (as amended). Every private-cache descriptor of a CPU and every
    LLC-split descriptor carries a bus index from its band ([8 + id],
    [24 + id]); the descriptor allocated for an accelerator tile with the
    private-cache flag keeps the sentinel bus index [-1], and its
    identifier is the reported CPU count plus the number of such
    accelerator tiles before it in scan order. *)
Theorem C3_cache_descriptor_indices (soc : soc.t) (cfg : soc_config.t) :
  soc_config_init soc = Ok cfg ->
  Forall (l2_ok soc) (soc_config.l2s cfg) /\
  Forall llc_ok (soc_config.llcs cfg) /\
  forall t ti c,
    soc_config.tiles cfg !! t = Some ti -> cells soc !! t = Some c ->
    coherent soc = true -> sel_acc_l2 soc c = true ->
    tile_info.l2 ti =
      cache_info.mk
        (soc.get_cpu_num soc + count (sel_acc_l2 soc) (take t (cells soc))) (-1).
Proof.
  intros Hinit.
  destruct (soc_config_init_inv soc cfg Hinit) as (_ & st & -> & Inv).
  split; [apply Inv|split; [apply Inv|]].
  intros t ti c Hti Hc Hcoh Hacc.
  destruct (resolved_tile_inv soc _ Hinit t ti Hti) as (x & y & Hxy & ->).
  rewrite (cells_lookup soc _ _ _ Hxy) in Hc. injection Hc as <-.
  unfold final_tile, resolved_tile. simpl.
  change (negb (soc.cache_en soc =? 0)) with (coherent soc).
  by rewrite Hacc, Hcoh.
Qed.

Lemma C3_cache_descriptor_indices_witness :
  Forall (l2_ok (soc_mixed ariane)) (soc_config.l2s (resolved (soc_mixed ariane))) /\
  Forall llc_ok (soc_config.llcs (resolved (soc_mixed ariane))) /\
  forall ti, soc_config.tiles (resolved (soc_mixed ariane)) !! 1%nat = Some ti ->
             tile_info.l2 ti = cache_info.mk 1 (-1).
Proof.
  assert (soc_config_init (soc_mixed ariane) = Ok (resolved (soc_mixed ariane)))
    as Hinit by (vm_compute; reflexivity).
  destruct (C3_cache_descriptor_indices _ _ Hinit) as (H1 & H2 & H3).
  split; [exact H1|split; [exact H2|]]. intros ti Hti.
  exact (H3 1%nat ti (acc_cell "FFT" "sld" 1) Hti eq_refl eq_refl eq_refl).
Defined.

(** C3 fails as stated: the private cache of a coherent accelerator tile
    with the private-cache flag has bus index [-1], outside the band. *)
Lemma C3_counterexample :
  soc_config_init (soc_mixed ariane) = Ok (resolved (soc_mixed ariane)) /\
  coherent (soc_mixed ariane) = true /\
  sel_acc_l2 (soc_mixed ariane) (soc.topology (soc_mixed ariane) 0 1) = true /\
  exists ti,
    soc_config.tiles (resolved (soc_mixed ariane)) !! 1%nat = Some ti /\
    tile_info.type ti = ty_acc /\
    cache_info.id (tile_info.l2 ti) = 1 /\
    cache_info.idx (tile_info.l2 ti) = -1 /\
    ~ In (cache_info.idx (tile_info.l2 ti)) L2_CACHE_PINDEX.
Proof.
  split; [vm_compute; reflexivity|]. split; [reflexivity|]. split; [reflexivity|].
  eexists. split; [vm_compute; reflexivity|]. simpl.
  repeat split. vm_compute. intros H.
  repeat (destruct H as [H|H]; [discriminate H|]). exact H.
Qed.

(** C6. The accelerator interrupt-line counter starts at 3 for leon3 and at
    5 for ariane/ibex.  Under leon3 every accelerator gets line 3; under
    ariane/ibex the accelerator with [k] accelerators before it in scan
    order gets line [5 + k] while that is below 11 and [7 + k] afterwards,
    so the lines are consecutive except that 11 and 12, reserved to
    Ethernet, are never assigned. *)
Theorem C6_accelerator_interrupt_lines (soc : soc.t) (cfg : soc_config.t) :
  soc_config_init soc = Ok cfg ->
  walk.acc_irq (init_walk soc) =
    match soc.CPU_ARCH soc with leon3 => 3 | ariane | ibex => 5 end /\
  Z.of_nat (length (soc_config.accelerators cfg)) = count (sel_acc soc) (cells soc) /\
  (forall k a, soc_config.accelerators cfg !! k = Some a ->
     acc_info.id a = Z.of_nat k /\
     acc_info.irq a =
       match soc.CPU_ARCH soc with
       | leon3 => 3
       | ariane | ibex => if Z.of_nat k <? 6 then 5 + Z.of_nat k else 7 + Z.of_nat k
       end /\
     (soc.CPU_ARCH soc <> leon3 -> acc_info.irq a <> 11 /\ acc_info.irq a <> 12)) /\
  (forall t ti, soc_config.tiles cfg !! t = Some ti ->
     tile_info.type ti = ty_acc ->
     acc_info.id (tile_info.acc ti) = count (sel_acc soc) (take t (cells soc)) /\
     acc_info.irq (tile_info.acc ti) =
       irq_line (soc.CPU_ARCH soc) (acc_info.id (tile_info.acc ti))).
Proof.
  intros Hinit.
  destruct (soc_config_init_inv soc cfg Hinit) as (_ & st & -> & Inv).
  split; [|split; [|split]].
  - simpl. by destruct (soc.CPU_ARCH soc).
  - rewrite (wi_accs_len _ _ _ Inv).
    by rewrite take_ge by (rewrite length_cells; lia).
  - intros k a Hk. destruct (wi_accs _ _ _ Inv k a Hk) as (H1 & _ & H3).
    split; [done|]. rewrite H3. unfold irq_line.
    destruct (soc.CPU_ARCH soc); simpl; (split; [done|]); intros ?;
      try done; destruct (Z.ltb_spec (Z.of_nat k) 6); lia.
  - intros t ti Hti Hty.
    destruct (resolved_tile_inv soc _ Hinit t ti Hti) as (x & y & Hxy & ->).
    apply final_tile_type_acc in Hty.
    unfold final_tile, resolved_tile, new_acc. simpl. by rewrite Hty.
Qed.

Lemma C6_accelerator_interrupt_lines_witness :
  acc_info.irq <$> soc_config.accelerators (resolved (soc_8acc ariane))
    = [5; 6; 7; 8; 9; 10; 13; 14] /\
  forall a, soc_config.accelerators (resolved (soc_8acc ariane)) !! 6%nat = Some a ->
            acc_info.id a = 6 /\ acc_info.irq a = 13 /\
            (ariane <> leon3 -> acc_info.irq a <> 11 /\ acc_info.irq a <> 12).
Proof.
  split; [vm_compute; reflexivity|].
  assert (soc_config_init (soc_8acc ariane) = Ok (resolved (soc_8acc ariane)))
    as Hinit by (vm_compute; reflexivity).
  destruct (C6_accelerator_interrupt_lines _ _ Hinit) as (_ & _ & H & _).
  intros a Ha. exact (H 6%nat a Ha).
Defined.

(** C1 (as amended). Resolution checks no ceiling.  It raises (a list-index
    error from a bus-index band, not a configuration error) exactly when
    coherence is enabled and more than [NCPU_MAX] CPU tiles or more than
    [NMEM_MAX] memory tiles are declared; whenever it returns, the
    identifier of a CPU tile is the number of CPU tiles before it in scan
    order, neither truncated nor wrapped, also past the ceiling. *)
Theorem C1_no_ceiling_check (soc : soc.t) :
  (soc_config_init soc = Raise IndexError <->
   coherent soc = true /\
   (NCPU_MAX < count sel_cpu (cells soc) \/ NMEM_MAX < count sel_mem (cells soc))) /\
  (forall cfg, soc_config_init soc = Ok cfg ->
   forall t ti c,
     soc_config.tiles cfg !! t = Some ti -> cells soc !! t = Some c ->
     sel_cpu c = true ->
     tile_info.cpu_id ti = count sel_cpu (take t (cells soc))).
Proof.
  assert (within_bands soc (cells soc) = false <->
          coherent soc = true /\
          (NCPU_MAX < count sel_cpu (cells soc) \/
           NMEM_MAX < count sel_mem (cells soc))) as Hw.
  { unfold within_bands, NCPU_MAX, NMEM_MAX. destruct (coherent soc); simpl.
    - rewrite andb_false_iff, !Z.leb_gt.
      split; [intros H; split; [done|exact H]|intros [_ H]; exact H].
    - split; [done|intros [? _]; done]. }
  split.
  - rewrite <-Hw. split.
    + intros H. destruct (within_bands soc (cells soc)) eqn:W; [|done].
      destruct (soc_config_init_ok soc W) as (st & Hst & _). congruence.
    + apply soc_config_init_raise.
  - intros cfg Hinit t ti c Hti Hc Hcpu.
    destruct (resolved_tile_inv soc _ Hinit t ti Hti) as (x & y & Hxy & ->).
    rewrite (cells_lookup soc _ _ _ Hxy) in Hc. injection Hc as <-.
    unfold final_tile, resolved_tile. simpl. by rewrite Hcpu.
Qed.

Lemma C1_no_ceiling_check_witness :
  soc_config_init (soc_17cpu 1) = Raise IndexError /\
  forall ti, soc_config.tiles (resolved (soc_17cpu 0)) !! 16%nat = Some ti ->
             tile_info.cpu_id ti = 16.
Proof.
  split.
  - apply (proj1 (C1_no_ceiling_check (soc_17cpu 1))).
    split; [reflexivity|]. left. reflexivity.
  - intros ti Hti.
    exact (proj2 (C1_no_ceiling_check (soc_17cpu 0)) (resolved (soc_17cpu 0))
             ltac:(vm_compute; reflexivity) 16%nat ti (cell "cpu") Hti
             eq_refl eq_refl).
Defined.

(** C1 fails as stated: seventeen CPU tiles exceed [NCPU_MAX = 16], yet with
    coherence disabled resolution returns a configuration, the last CPU
    tile carrying identifier 16. *)
Lemma C1_counterexample :
  NCPU_MAX < count sel_cpu (cells (soc_17cpu 0)) /\
  exists cfg ti,
    soc_config_init (soc_17cpu 0) = Ok cfg /\
    soc_config.tiles cfg !! 16%nat = Some ti /\
    tile_info.type ti = ty_cpu /\ tile_info.cpu_id ti = 16.
Proof.
  split; [reflexivity|]. eexists _, _.
  split; [vm_compute; reflexivity|]. split; [vm_compute; reflexivity|]. done.
Qed.

(** ** DVFS descriptors *)

Lemma bind_nil_all {A B} (f : A -> list B) (l : list A) :
  (forall a, a ∈ l -> f a = []) -> l ≫= f = [].
Proof.
  induction l as [|a l IH]; intros H; [done|]. cbn.
  rewrite (H a) by left. rewrite IH; [done|]. intros b Hb. apply H. by right.
Qed.

Lemma resolved_tiles_enum soc cfg :
  soc_config_init soc = Ok cfg ->
  tiles_enum cfg = Ok (enum (soc_config.tiles cfg)).
Proof.
  intros Hinit. apply tiles_enum_ok.
  by rewrite (resolved_ntiles soc cfg Hinit), (resolved_length_tiles soc cfg Hinit).
Qed.

(** C10. Resolution never allocates a DVFS descriptor: [ndvfs] stays 0,
    [dvfs_ctrls] stays empty and every tile keeps the default DVFS
    descriptor (identifier -1), whatever its has-token-DVFS flag; the flag
    is only recorded in the tile and echoed into [tile_has_tdvfs].  Hence
    the DVFS entries of [fixed_apbo_pconfig] and of [cpu_dvfs_paddr] are
    empty. *)
Theorem C10_dvfs_never_allocated (soc : soc.t) (cfg : soc_config.t) :
  soc_config_init soc = Ok cfg ->
  soc_config.ndvfs cfg = 0 /\
  soc_config.dvfs_ctrls cfg = [] /\
  (forall t ti c,
     soc_config.tiles cfg !! t = Some ti -> cells soc !! t = Some c ->
     tile_info.dvfs ti = cache_info.new /\
     cache_info.id (tile_info.dvfs ti) = -1 /\
     tile_info.has_tdvfs ti = noc_tile.has_tdvfs c) /\
  fixed_apbo_dvfs cfg = Ok [] /\
  exists ts,
    tiles_enum cfg = Ok ts /\
    cpu_dvfs_paddr ts = [] /\
    tile_has_tdvfs ts =
      imap (fun i c => (Z.of_nat i, noc_tile.has_tdvfs c)) (cells soc).
Proof.
  intros Hinit.
  pose proof (resolved_ndvfs soc cfg Hinit) as Hn.
  pose proof (resolved_dvfs_ctrls soc cfg Hinit) as Hd.
  assert (forall t ti c,
     soc_config.tiles cfg !! t = Some ti -> cells soc !! t = Some c ->
     tile_info.dvfs ti = cache_info.new /\
     cache_info.id (tile_info.dvfs ti) = -1 /\
     tile_info.has_tdvfs ti = noc_tile.has_tdvfs c) as Htiles.
  { intros t ti c Hti Hc.
    destruct (resolved_tile_inv soc _ Hinit t ti Hti) as (x & y & Hxy & ->).
    rewrite (cells_lookup soc _ _ _ Hxy) in Hc. by injection Hc as <-. }
  split; [done|split; [done|split; [done|split]]].
  - unfold fixed_apbo_dvfs. by rewrite Hn.
  - exists (enum (soc_config.tiles cfg)).
    split; [by eapply resolved_tiles_enum|split].
    + apply bind_nil_all. intros [i ti] Hi%elem_of_enum. simpl.
      destruct (resolved_tile_inv soc _ Hinit i ti Hi) as (x & y & Hxy & ->).
      done.
    + apply list_eq. intros i. unfold tile_has_tdvfs.
      rewrite list_lookup_fmap, enum_lookup, list_lookup_imap.
      destruct (soc_config.tiles cfg !! i) as [ti|] eqn:Hti; simpl.
      * destruct (resolved_tile_inv soc _ Hinit i ti Hti) as (x & y & Hxy & ->).
        by rewrite (cells_lookup soc _ _ _ Hxy).
      * apply lookup_ge_None in Hti.
        rewrite (resolved_length_tiles soc cfg Hinit), <-(length_cells soc) in Hti.
        apply lookup_ge_None in Hti. by rewrite Hti.
Qed.

Lemma C10_dvfs_never_allocated_witness :
  soc_config.ndvfs (resolved (soc_mixed leon3)) = 0 /\
  soc_config.dvfs_ctrls (resolved (soc_mixed leon3)) = [] /\
  (forall ti, soc_config.tiles (resolved (soc_mixed leon3)) !! 5%nat = Some ti ->
     cache_info.id (tile_info.dvfs ti) = -1 /\ tile_info.has_tdvfs ti = 1) /\
  fixed_apbo_dvfs (resolved (soc_mixed leon3)) = Ok [].
Proof.
  assert (soc_config_init (soc_mixed leon3) = Ok (resolved (soc_mixed leon3)))
    as Hinit by (vm_compute; reflexivity).
  destruct (C10_dvfs_never_allocated _ _ Hinit) as (H1 & H2 & H3 & H4 & _).
  split; [exact H1|split; [exact H2|split; [|exact H4]]].
  intros ti Hti.
  exact (proj2 (H3 5%nat ti (noc_tile.mk "slm" 0 0 1 0 "sld") Hti eq_refl)).
Defined.

(** ** Address maps *)

Lemma table_get_unique d (tbl : table) k v :
  NoDup tbl.*1 -> (k, v) ∈ tbl -> table_get d tbl k = v.
Proof.
  unfold table_get. induction tbl as [|[k' v'] tbl IH]; intros Hnd Hin.
  - by apply elem_of_nil in Hin.
  - apply NoDup_cons in Hnd as [Hk' Hnd]. simpl.
    destruct (Z.eqb_spec k' k) as [->|Hne].
    + apply elem_of_cons in Hin as [[= ->]|Hin]; [done|].
      destruct Hk'. apply list_elem_of_fmap. by exists (k, v).
    + apply elem_of_cons in Hin as [[= -> ->]|Hin]; [done|]. by apply IH.
Qed.

Lemma emit_stepping_add d l acc :
  emit_stepping (fun o => o + d) l acc
  = imap (fun k i => (i, acc + Z.of_nat k * d)) l.
Proof.
  revert acc. induction l as [|i l IH]; intros acc; [done|]. simpl.
  f_equal; [f_equal; lia|]. rewrite IH. apply imap_ext. intros k j _. simpl.
  f_equal. lia.
Qed.

Lemma emit_stepping_range d n acc :
  emit_stepping (fun o => o + d) (py_range0 n) acc
  = (fun i => (i, acc + i * d)) <$> py_range0 n.
Proof.
  rewrite emit_stepping_add. unfold py_range0, py_range.
  apply list_eq. intros k. rewrite list_lookup_imap, list_lookup_fmap.
  destruct (seqZ 0 (n - 0) !! k) as [i|] eqn:E; [|done]. simpl.
  apply lookup_seqZ in E as [-> _]. by rewrite Z.add_0_l.
Qed.

Lemma elem_of_py_range0 n i : i ∈ py_range0 n <-> 0 <= i < n.
Proof. unfold py_range0, py_range. rewrite elem_of_seqZ. lia. Qed.

Lemma fst_tabulate {B} (g : Z -> B) (l : list Z) :
  ((fun i => (i, g i)) <$> l).*1 = l.
Proof. induction l as [|i l IH]; [done|]. cbn. f_equal. exact IH. Qed.

Lemma table_get_range d0 (g : Z -> Z) n i :
  0 <= i < n -> table_get d0 ((fun i => (i, g i)) <$> py_range0 n) i = g i.
Proof.
  intros Hi. apply table_get_unique.
  - rewrite fst_tabulate. apply NoDup_seqZ.
  - apply list_elem_of_fmap. exists i. split; [done|]. by apply elem_of_py_range0.
Qed.

(** C5. A memory controller's region size is the DDR window divided by the
    controller count for one to four controllers, the fixed [DDR_SIZE / 8]
    for more than four (so 128 units for five, not [DDR_SIZE / 5]), and the
    whole window for none; the base addresses step by that size from the
    DDR base of the CPU architecture. *)
Theorem C5_memory_controller_regions (cfg : soc_config.t) :
  let n := soc_config.nmem cfg in
  (0 < n <= 4 -> ddr_size cfg = py_int_div DDR_SIZE n) /\
  (4 < n -> ddr_size cfg = py_int_div DDR_SIZE 8) /\
  (n = 5 -> ddr_size cfg = 128 /\ ddr_size cfg <> py_int_div DDR_SIZE 5) /\
  (n <= 0 -> ddr_size cfg = DDR_SIZE) /\
  (forall i, 0 <= i < n ->
     table_get 0 (ddr_haddr cfg) i
       = DDR_HADDR (soc_config.cpu_arch cfg) + i * ddr_size cfg).
Proof.
  intros n. unfold ddr_size. fold n.
  split; [|split; [|split; [|split]]].
  - intros H. destruct (Z.ltb_spec 0 n); [|lia]. by destruct (Z.ltb_spec 4 n); [lia|].
  - intros H. destruct (Z.ltb_spec 0 n); [|lia]. by destruct (Z.ltb_spec 4 n); [|lia].
  - by intros ->.
  - intros H. by destruct (Z.ltb_spec 0 n); [lia|].
  - intros i Hi. unfold ddr_haddr. fold n.
    rewrite emit_stepping_range. by rewrite table_get_range.
Qed.

Lemma C5_memory_controller_regions_witness :
  ddr_size (resolved (soc_nmem leon3 5)) = 128 /\
  ddr_size (resolved (soc_nmem leon3 5)) <> py_int_div DDR_SIZE 5 /\
  table_get 0 (ddr_haddr (resolved (soc_nmem leon3 5))) 4 = 0x400 + 4 * 128 /\
  ddr_size (resolved (soc_nmem ariane 2)) = 512 /\
  ddr_size (resolved (soc_nomem ariane)) = DDR_SIZE.
Proof.
  destruct (C5_memory_controller_regions (resolved (soc_nmem leon3 5)))
    as (_ & _ & H5 & _ & Hb).
  destruct (C5_memory_controller_regions (resolved (soc_nmem ariane 2)))
    as (H2 & _).
  destruct (C5_memory_controller_regions (resolved (soc_nomem ariane)))
    as (_ & _ & _ & H0 & _).
  split; [exact (proj1 (H5 eq_refl))|]. split; [exact (proj2 (H5 eq_refl))|].
  split; [exact (Hb 4 ltac:(vm_compute; split; [discriminate|reflexivity]))|].
  split; [exact (H2 ltac:(vm_compute; split; [reflexivity|discriminate]))|].
  exact (H0 ltac:(vm_compute; discriminate)).
Defined.

(** *** Masks *)

Lemma mask12_bits units n :
  0 <= n ->
  Z.testbit (mask12 units) n = (n <? 12) && negb (Z.testbit (units - 1) n).
Proof.
  intros Hn. unfold mask12. rewrite Z.land_spec, Z.lnot_spec by done.
  change 4095 with (Z.ones 12). rewrite Z.testbit_ones_nonneg by lia. done.
Qed.


Lemma mask12_pow2_aligned k base :
  0 <= k <= 12 -> 0 <= base < 0x1000 -> base mod 2 ^ k = 0 ->
  Z.land base (Z.lnot (mask12 (2 ^ k))) = 0.
Proof.
  intros Hk Hb Hmod. apply Z.bits_inj'. intros n Hn.
  rewrite Z.land_spec, Z.lnot_spec, mask12_bits, Z.bits_0 by done.
  replace (2 ^ k - 1) with (Z.ones k) by (rewrite Z.ones_equiv; lia).
  rewrite Z.testbit_ones_nonneg by lia.
  destruct (Z.ltb_spec n k) as [Hlt|Hge].
  - rewrite <-(Z.mod_pow2_bits_low base k n) by lia.
    by rewrite Hmod, Z.bits_0.
  - destruct (Z.ltb_spec n 12) as [Hlt|Hge'].
    + simpl. apply andb_false_r.
    + rewrite <-(Z.mod_small base (2 ^ 12)) by lia.
      by rewrite Z.mod_pow2_bits_high by lia.
Qed.





Section Masks.
Variable soc : soc.t.
Variable cfg : soc_config.t.
Hypothesis Hinit : soc_config_init soc = Ok cfg.


End Masks.




(** C9. With no memory-controller tile, resolution never raises on behalf
    of the memory category (it can only raise when coherence is on and the
    CPU band overflows), and [print_mapping] takes the SLM-as-main-memory
    path: the SLM base address becomes [DDR_HADDR] of the CPU architecture,
    the SLM regions are laid out from there, no memory-controller region is
    emitted, and the DRAM base exported to the link header is the SLM base
    with the DRAM size overridden by the total SLM size. *)
Theorem C9_slm_as_main_memory (soc : soc.t) (g : Z) :
  (count sel_mem (cells soc) = 0 ->
   forall e, soc_config_init soc = Raise e ->
     coherent soc = true /\ NCPU_MAX < count sel_cpu (cells soc)) /\
  (forall cfg, soc_config_init soc = Ok cfg -> soc.get_mem_num soc = 0 ->
     slm_haddr_global cfg g = DDR_HADDR (soc.CPU_ARCH soc) /\
     fst (cpu_tile_slm_hconfig cfg g) = DDR_HADDR (soc.CPU_ARCH soc) /\
     (forall i, 0 <= i < soc_config.nslm cfg ->
        table_get 0 (slm_haddr cfg g) i
          = DDR_HADDR (soc.CPU_ARCH soc) + i * py_int_div (soc.slm_kbytes soc) 1024) /\
     ddr_haddr cfg = [] /\
     ddr_hindex cfg = Ok [] /\
     DRAM_BASE_ADDR cfg = Z.shiftl (slm_haddr_global cfg g) 20 /\
     OVERRIDE_DRAM_SIZE cfg = Some (soc_config.slm_tot_kbytes cfg * 1024)).
Proof.
  split.
  - intros Hmem [] Hraise.
    destruct (proj1 (proj1 (C1_no_ceiling_check soc)) Hraise) as [Hc [H|H]].
    + done.
    + rewrite Hmem in H. done.
  - intros cfg Hinit Hn.
    pose proof (resolved_nmem soc cfg Hinit) as Hnmem. rewrite Hn in Hnmem.
    pose proof (resolved_cpu_arch soc cfg Hinit) as Ha.
    pose proof (f_equal soc_config.slm_kbytes (resolved_frozen soc cfg Hinit)) as Hk.
    simpl in Hk.
    assert (slm_haddr_global cfg g = DDR_HADDR (soc.CPU_ARCH soc)) as Hg.
    { unfold slm_haddr_global. by rewrite Hnmem, Ha. }
    split; [done|split; [done|split; [|split; [|split; [|split]]]]].
    + intros i Hi. unfold slm_haddr. rewrite emit_stepping_range, Hg, Hk.
      by rewrite table_get_range.
    + unfold ddr_haddr. by rewrite Hnmem.
    + unfold ddr_hindex. by rewrite Hnmem.
    + unfold DRAM_BASE_ADDR. by rewrite Hg, Ha.
    + unfold OVERRIDE_DRAM_SIZE. by rewrite Hnmem.
Qed.

Lemma C9_slm_as_main_memory_witness :
  slm_haddr_global (resolved (soc_nomem ariane)) SLM_HADDR = 0x800 /\
  table_get 0 (slm_haddr (resolved (soc_nomem ariane)) SLM_HADDR) 1 = 0x800 + 1 * 2 /\
  ddr_haddr (resolved (soc_nomem ariane)) = [] /\
  OVERRIDE_DRAM_SIZE (resolved (soc_nomem ariane)) = Some (4096 * 1024).
Proof.
  assert (soc_config_init (soc_nomem ariane) = Ok (resolved (soc_nomem ariane)))
    as Hinit by (vm_compute; reflexivity).
  destruct (proj2 (C9_slm_as_main_memory (soc_nomem ariane) SLM_HADDR)
              _ Hinit eq_refl) as (H1 & _ & H3 & H4 & _ & _ & H7).
  split; [exact H1|]. split; [exact (H3 1 ltac:(vm_compute; split; [discriminate|reflexivity]))|].
  split; [exact H4|exact H7].
Defined.

(** ** Cross-reference tables *)

Lemma table_get_functional d (tbl : table) k v :
  (forall v', (k, v') ∈ tbl -> v' = v) -> (k, v) ∈ tbl -> table_get d tbl k = v.
Proof.
  intros Hfun Hin. unfold table_get.
  destruct (List.find _ tbl) as [[k' v']|] eqn:E.
  - apply List.find_some in E as [Hin' Hk]. simpl in *.
    apply Z.eqb_eq in Hk as ->. apply Hfun. by apply list_elem_of_In.
  - apply list_elem_of_In in Hin.
    pose proof (List.find_none _ _ E _ Hin) as H. simpl in H.
    by rewrite Z.eqb_refl in H.
Qed.

Lemma elem_of_xref_tile_id id ts k v :
  (k, v) ∈ xref_tile_id id ts <->
  exists i t, (i, t) ∈ ts /\ id t <> -1 /\ k = Z.of_nat i /\ v = id t.
Proof.
  unfold xref_tile_id. rewrite list_elem_of_bind. split.
  - intros ([i t] & Hin & Hts). simpl in Hin.
    destruct (Z.eqb_spec (id t) (-1)); simpl in Hin.
    + by apply elem_of_nil in Hin.
    + apply list_elem_of_singleton in Hin as [= -> ->]. by exists i, t.
  - intros (i & t & Hts & Hne & -> & ->). exists (i, t). split; [|done]. simpl.
    destruct (Z.eqb_spec (id t) (-1)); [done|]. simpl. by apply list_elem_of_singleton.
Qed.

Lemma elem_of_xref_id_tile sel id ts v k :
  (v, k) ∈ xref_id_tile sel id ts <->
  exists i t, (i, t) ∈ ts /\ sel t = true /\ k = Z.of_nat i /\ v = id t.
Proof.
  unfold xref_id_tile. rewrite list_elem_of_bind. split.
  - intros ([i t] & Hin & Hts). simpl in Hin.
    destruct (sel t) eqn:E.
    + apply list_elem_of_singleton in Hin as [= -> ->]. by exists i, t.
    + by apply elem_of_nil in Hin.
  - intros (i & t & Hts & Hsel & -> & ->). exists (i, t). split; [|done]. simpl.
    rewrite Hsel. by apply list_elem_of_singleton.
Qed.

(** The generic argument: an identifier that is injective over the tiles
    that own one gives mutually inverse tables. *)
Lemma xref_inverse (tiles : list tile_info.t) id sel :
  (forall n t, tiles !! n = Some t -> sel t = has_id id t) ->
  (forall n m t u, tiles !! n = Some t -> tiles !! m = Some u ->
     id t <> -1 -> id t = id u -> n = m) ->
  mutual_inverse (xref_tile_id id (enum tiles)) (xref_id_tile sel id (enum tiles)).
Proof.
  intros Hsel Hinj.
  assert (forall n t, tiles !! n = Some t -> sel t = true <-> id t <> -1) as Hsel'.
  { intros n t Ht. rewrite (Hsel n t Ht). unfold has_id.
    destruct (Z.eqb_spec (id t) (-1)); simpl; split; done. }
  assert (forall i v, (i, v) ∈ xref_tile_id id (enum tiles) ->
            table_get 0 (xref_tile_id id (enum tiles)) i = v) as Hfwd.
  { intros i v Hin. apply table_get_functional; [|done].
    intros v' Hin'.
    apply elem_of_xref_tile_id in Hin as (n & t & Ht%elem_of_enum & _ & -> & ->).
    apply elem_of_xref_tile_id in Hin' as (n' & t' & Ht'%elem_of_enum & _ & Hn & ->).
    apply Nat2Z.inj in Hn as <-. congruence. }
  assert (forall v i, (v, i) ∈ xref_id_tile sel id (enum tiles) ->
            table_get 0 (xref_id_tile sel id (enum tiles)) v = i) as Hbwd.
  { intros v i Hin. apply table_get_functional; [|done].
    intros i' Hin'.
    apply elem_of_xref_id_tile in Hin as (n & t & Ht%elem_of_enum & Hs & -> & ->).
    apply elem_of_xref_id_tile in Hin' as (n' & t' & Ht'%elem_of_enum & Hs' & -> & He).
    f_equal. symmetry. apply (Hinj n n' t t'); try done. by apply (Hsel' n t). }
  split.
  - intros i v Hin. split; [by apply Hfwd|]. apply Hbwd.
    apply elem_of_xref_tile_id in Hin as (n & t & Ht & Hne & -> & ->).
    apply elem_of_xref_id_tile. exists n, t. split; [done|]. split; [|done].
    apply elem_of_enum in Ht. by apply (Hsel' n t).
  - intros v i Hin. split; [by apply Hbwd|]. apply Hfwd.
    apply elem_of_xref_id_tile in Hin as (n & t & Ht & Hs & -> & ->).
    apply elem_of_xref_tile_id. exists n, t. split; [done|]. split; [|done].
    apply elem_of_enum in Ht. by apply (Hsel' n t).
Qed.

Section Xref.
Variable soc : soc.t.
Variable cfg : soc_config.t.
Hypothesis Hinit : soc_config_init soc = Ok cfg.

(** Identifiers handed out by a counter over the cells satisfying [p]. *)
Lemma counted_id_inj (p : noc_tile.t -> bool) (id : tile_info.t -> Z) :
  (forall n x y,
     scan (soc.rows soc) (soc.cols soc) !! n = Some (x, y) ->
     id (final_tile soc n x y) =
       if p (soc.topology soc x y) then count p (take n (cells soc)) else -1) ->
  forall n m t u,
    soc_config.tiles cfg !! n = Some t -> soc_config.tiles cfg !! m = Some u ->
    id t <> -1 -> id t = id u -> n = m.
Proof.
  intros Hid n m t u Ht Hu Hne Heq.
  destruct (resolved_tile_inv soc cfg Hinit n t Ht) as (x & y & Hxy & ->).
  destruct (resolved_tile_inv soc cfg Hinit m u Hu) as (x' & y' & Hxy' & ->).
  rewrite (Hid _ _ _ Hxy) in Hne, Heq. rewrite (Hid _ _ _ Hxy') in Heq.
  pose proof (cells_lookup soc _ _ _ Hxy) as Hc.
  pose proof (cells_lookup soc _ _ _ Hxy') as Hc'.
  destruct (p (soc.topology soc x y)) eqn:Hp; [|done].
  pose proof (count_nonneg p (take n (cells soc))).
  destruct (p (soc.topology soc x' y')) eqn:Hp'; [|lia].
  destruct (Nat.lt_trichotomy n m) as [Hlt|[->|Hlt]]; [|done|].
  - pose proof (count_take_strict p _ _ _ _ Hlt Hc Hp). lia.
  - pose proof (count_take_strict p _ _ _ _ Hlt Hc' Hp'). lia.
Qed.

Lemma sel_cpu_exclusive c :
  sel_cpu c = true ->
  sel_io c = false /\ sel_mem c = false /\ sel_slm c = false /\
  sel_slmddr c = false /\ sel_acc soc c = is_accelerator soc "cpu".
Proof.
  unfold sel_cpu, sel_io, sel_mem, sel_slm, sel_slmddr, sel_acc.
  intros ->%String.eqb_eq. done.
Qed.

Lemma cpu_type_iff_id n t :
  is_accelerator soc "cpu" = false ->
  soc_config.tiles cfg !! n = Some t ->
  is_type ty_cpu t = has_id tile_info.cpu_id t.
Proof.
  intros Hname Ht.
  destruct (resolved_tile_inv soc cfg Hinit n t Ht) as (x & y & Hxy & ->).
  unfold is_type, has_id, final_tile, resolved_tile. simpl.
  pose proof (count_nonneg sel_cpu (take n (cells soc))).
  destruct (sel_cpu (soc.topology soc x y)) eqn:Hcpu.
  - destruct (sel_cpu_exclusive _ Hcpu) as (-> & -> & -> & -> & ->).
    rewrite Hname. simpl. by destruct (Z.eqb_spec (count sel_cpu (take n (cells soc))) (-1)); [lia|].
  - simpl. by repeat case_match.
Qed.

Lemma l2_id_inj :
  soc.get_cpu_num soc = count sel_cpu (cells soc) ->
  forall n m t u,
    soc_config.tiles cfg !! n = Some t -> soc_config.tiles cfg !! m = Some u ->
    l2_id t <> -1 -> l2_id t = l2_id u -> n = m.
Proof.
  intros Hncpu n m t u Ht Hu Hne Heq.
  destruct (resolved_tile_inv soc cfg Hinit n t Ht) as (x & y & Hxy & ->).
  destruct (resolved_tile_inv soc cfg Hinit m u Hu) as (x' & y' & Hxy' & ->).
  pose proof (cells_lookup soc _ _ _ Hxy) as Hc.
  pose proof (cells_lookup soc _ _ _ Hxy') as Hc'.
  unfold l2_id, final_tile, resolved_tile in *. simpl in *.
  change (negb (soc.cache_en soc =? 0)) with (coherent soc) in *.
  rewrite Hncpu in *.
  pose proof (count_nonneg sel_cpu (take n (cells soc))).
  pose proof (count_nonneg sel_cpu (take m (cells soc))).
  pose proof (count_nonneg (sel_acc_l2 soc) (take n (cells soc))).
  pose proof (count_nonneg (sel_acc_l2 soc) (take m (cells soc))).
  destruct (coherent soc); rewrite ?andb_false_r, ?andb_true_r in *; [|done].
  destruct (sel_acc_l2 soc (soc.topology soc x y)) eqn:A1;
    destruct (sel_acc_l2 soc (soc.topology soc x' y')) eqn:A2; simpl in *.
  - destruct (Nat.lt_trichotomy n m) as [Hlt|[->|Hlt]]; [|done|].
    + pose proof (count_take_strict _ _ _ _ _ Hlt Hc A1). lia.
    + pose proof (count_take_strict _ _ _ _ _ Hlt Hc' A2). lia.
  - destruct (sel_cpu (soc.topology soc x' y')) eqn:C2; simpl in *; [|lia].
    pose proof (count_take_lt sel_cpu _ _ _ Hc' C2). lia.
  - destruct (sel_cpu (soc.topology soc x y)) eqn:C1; simpl in *; [|done].
    pose proof (count_take_lt sel_cpu _ _ _ Hc C1). lia.
  - destruct (sel_cpu (soc.topology soc x y)) eqn:C1; simpl in *; [|done].
    destruct (sel_cpu (soc.topology soc x' y')) eqn:C2; simpl in *; [|lia].
    destruct (Nat.lt_trichotomy n m) as [Hlt|[->|Hlt]]; [|done|].
    + pose proof (count_take_strict _ _ _ _ _ Hlt Hc C1). lia.
    + pose proof (count_take_strict _ _ _ _ _ Hlt Hc' C2). lia.
Qed.

Lemma llc_id_inj n m t u :
  soc_config.tiles cfg !! n = Some t -> soc_config.tiles cfg !! m = Some u ->
  llc_id t <> -1 -> llc_id t = llc_id u -> n = m.
Proof.
  destruct (coherent soc) eqn:Hcoh.
  - apply (counted_id_inj sel_mem). intros k x y _.
    unfold llc_id, final_tile, resolved_tile. simpl.
    change (negb (soc.cache_en soc =? 0)) with (coherent soc).
    rewrite Hcoh, andb_true_r. by destruct (sel_mem _).
  - intros Ht _ Hne _.
    destruct (resolved_tile_inv soc cfg Hinit n t Ht) as (x & y & Hxy & ->).
    unfold llc_id, final_tile, resolved_tile in Hne. simpl in Hne.
    change (negb (soc.cache_en soc =? 0)) with (coherent soc) in Hne.
    rewrite Hcoh, andb_false_r in Hne. by simpl in Hne.
Qed.
End Xref.

(** ** The initialization sequence *)

Lemma enum_snoc l (x : tile_info.t) : enum (l ++ [x]) = enum l ++ [(length l, x)].
Proof. unfold enum. rewrite imap_app. simpl. by rewrite Nat.add_0_r. Qed.

Lemma misc_id_unique l k t :
  l !! k = Some t -> tile_info.type t = ty_misc ->
  (forall j u, l !! j = Some u -> tile_info.type u = ty_misc -> j = k) ->
  misc_id (enum l) = k.
Proof.
  unfold misc_id. induction l as [|x l IH] using rev_ind; [done|].
  intros Hk Ht Huniq. rewrite enum_snoc, fold_left_app. simpl.
  unfold is_type at 1. case_bool_decide as Hx.
  - apply (Huniq (length l) x); [|done].
    by rewrite lookup_app_r, Nat.sub_diag.
  - apply lookup_app_Some in Hk as [Hk|[Hge Hk]].
    + apply IH; [done..|]. intros j u Hj Hu. apply (Huniq j u); [|done].
      by apply lookup_app_l_Some.
    + apply list_lookup_singleton_Some in Hk as [_ ->]. done.
Qed.

Lemma outward_cons a n :
  outward a n = a :: rev (seq 0 a) ++ seq (S a) (n - S a).
Proof. unfold outward. by rewrite seq_S, rev_unit. Qed.

Lemma outward_Permutation a n : (a < n)%nat -> outward a n ≡ₚ seq 0 n.
Proof.
  intros Han. unfold outward. rewrite <-Permutation_rev.
  replace n with (S a + (n - S a))%nat at 2 by lia. by rewrite seq_app.
Qed.

Lemma bind_Permutation_ext {A B} (f g : A -> list B) l :
  (forall x, f x ≡ₚ g x) -> l ≫= f ≡ₚ l ≫= g.
Proof.
  intros Hfg. induction l as [|x l IH]; [done|].
  by rewrite !bind_cons, Hfg, IH.
Qed.

Lemma row_flat i c b m :
  (j ← seq b m; [(i * c + j)%nat]) = seq (i * c + b) m.
Proof.
  revert b. induction m as [|m IH]; intros b; [done|].
  simpl seq. rewrite bind_cons, IH. simpl. do 2 f_equal. lia.
Qed.

Lemma grid_flat c a n :
  (i ← seq a n; j ← seq 0 c; [(i * c + j)%nat]) = seq (a * c) (n * c).
Proof.
  revert a. induction n as [|n IH]; intros a; [done|].
  simpl seq. rewrite bind_cons, IH, row_flat, Nat.add_0_r.
  replace (S n * c)%nat with (c + n * c)%nat by lia.
  rewrite seq_app. do 2 f_equal. lia.
Qed.

Lemma grid_Permutation rows cols r c :
  (r < rows)%nat -> (c < cols)%nat ->
  (i ← outward r rows; j ← outward c cols; [(i * cols + j)%nat])
    ≡ₚ seq 0 (rows * cols).
Proof.
  intros Hr Hc. rewrite (outward_Permutation r rows Hr).
  change (seq 0 (rows * cols)) with (seq (0 * cols) (rows * cols)).
  rewrite <-(grid_flat cols 0 rows). apply bind_Permutation_ext. intros i.
  by rewrite (outward_Permutation c cols Hc).
Qed.

(** The CPU part of the sequence: indices of the selected tiles, highest first. *)
Lemma desc_select_snoc (p : tile_info.t -> bool) l x :
  (it ← rev (enum (l ++ [x])); if p it.2 then [it.1] else []) =
  (if p x then [length l] else []) ++
  (it ← rev (enum l); if p it.2 then [it.1] else []).
Proof. rewrite enum_snoc, rev_unit, bind_cons. done. Qed.

Lemma elem_of_desc_select (p : tile_info.t -> bool) l i :
  i ∈ (it ← rev (enum l); if p it.2 then [it.1] else []) <->
  exists t, l !! i = Some t /\ p t = true.
Proof.
  rewrite list_elem_of_bind. split.
  - intros ([j t] & Hi & Hjt). apply list_elem_of_In, in_rev, list_elem_of_In in Hjt.
    apply elem_of_enum in Hjt. simpl in Hi. destruct (p t) eqn:Hp.
    + apply list_elem_of_singleton in Hi as ->. by exists t.
    + by apply elem_of_nil in Hi.
  - intros (t & Hi & Hp). exists (i, t). simpl. rewrite Hp. split.
    + by apply list_elem_of_singleton.
    + apply list_elem_of_In, in_rev. rewrite rev_involutive.
      by apply list_elem_of_In, elem_of_enum.
Qed.

Lemma desc_select_sorted (p : tile_info.t -> bool) l :
  StronglySorted (fun a b => (b < a)%nat)
    (it ← rev (enum l); if p it.2 then [it.1] else []).
Proof.
  induction l as [|x l IH] using rev_ind; [constructor|].
  rewrite desc_select_snoc. destruct (p x); [|done]. simpl.
  constructor; [done|]. apply Forall_forall. intros i Hi.
  apply elem_of_desc_select in Hi as (t & Hi & _). by eapply lookup_lt_Some.
Qed.

Lemma sorted_desc_last (l : list nat) i :
  StronglySorted (fun a b => (b < a)%nat) l -> i ∈ l ->
  exists j, last l = Some j /\ (j <= i)%nat /\ j ∈ l.
Proof.
  intros Hs. revert i.
  induction Hs as [|a l Hs IH Hall]; intros i Hi; [by apply elem_of_nil in Hi|].
  destruct l as [|b l].
  - apply list_elem_of_singleton in Hi as ->. exists a.
    split; [done|split; [done|by apply list_elem_of_singleton]].
  - rewrite last_cons_cons.
    assert (exists j, last (b :: l) = Some j /\ (j <= b)%nat /\ j ∈ b :: l)
      as (j & Hj & Hle & Hin) by (apply IH; left).
    apply elem_of_cons in Hi as [->|Hi].
    + exists j. split; [done|]. split; [|by right].
      rewrite Forall_forall in Hall. specialize (Hall j Hin). lia.
    + destruct (IH i Hi) as (j' & Hj' & Hle' & Hin').
      exists j'. split; [done|]. split; [done|by right].
Qed.

(** C8 fails as stated. Five rows of two tiles with the I/O tile at row 2:
    the generated sequence takes the rows in the order 2, 1, 0, 3, 4, which
    moves back towards the I/O row after row 0, whereas offsets alternating
    outward give 2, 1, 3, 0, 4. *)
Lemma C8_counterexample :
  soc_config_init soc_5rows = Ok (resolved soc_5rows) /\
  (exists io, soc_config.tiles (resolved soc_5rows) !! 4%nat = Some io /\
     tile_info.type io = ty_misc /\
     tile_info.row io = 2%nat /\ tile_info.col io = 0%nat) /\
  esp_init_sequence soc_5rows (resolved soc_5rows) =
    Ok ([4; 5; 2; 3; 0; 1; 6; 7; 8; 9] ++ [8; 5; 0])%nat /\
  spec_init_grid 5 2 2 0 = [4; 5; 2; 3; 6; 7; 0; 1; 8; 9]%nat /\
  expanding 2 ((fun t => t `div` 2)%nat <$> [4; 5; 2; 3; 0; 1; 6; 7; 8; 9]%nat)
    = false /\
  ~ exists cpus, esp_init_sequence soc_5rows (resolved soc_5rows) =
                   Ok (spec_init_grid 5 2 2 0 ++ cpus).
Proof.
  assert (esp_init_sequence soc_5rows (resolved soc_5rows) =
          Ok ([4; 5; 2; 3; 0; 1; 6; 7; 8; 9] ++ [8; 5; 0])%nat) as Hseq
    by (vm_compute; reflexivity).
  split; [vm_compute; reflexivity|]. split.
  { eexists. split; [vm_compute; reflexivity|].
    vm_compute. split; [reflexivity|split; reflexivity]. }
  split; [exact Hseq|]. split; [vm_compute; reflexivity|].
  split; [vm_compute; reflexivity|].
  intros [cpus H]. rewrite Hseq in H. vm_compute in H. discriminate.
Qed.

(** C8 (as amended). With a designated I/O tile at row [r], column [c], the
    initialization sequence starts at the I/O tile and visits every tile
    exactly once, taking the rows in the order [r, r-1, ..., 0, r+1, ...,
    rows-1] and within each row the columns in the order [c, c-1, ..., 0,
    c+1, ..., cols-1]; it is followed by all CPU tiles in descending
    tile-index order, so that the tile hosting CPU identifier 0 comes last. *)
Theorem C8_init_sequence (soc : soc.t) (cfg : soc_config.t) (k : nat)
    (io : tile_info.t) :
  soc_config_init soc = Ok cfg ->
  is_accelerator soc "cpu" = false ->
  soc_config.tiles cfg !! k = Some io ->
  tile_info.type io = ty_misc ->
  (forall j u, soc_config.tiles cfg !! j = Some u ->
               tile_info.type u = ty_misc -> j = k) ->
  exists grid cpus,
    esp_init_sequence soc cfg = Ok (grid ++ cpus) /\
    grid = (i ← outward (tile_info.row io) (soc.rows soc);
            j ← outward (tile_info.col io) (soc.cols soc);
            [(i * soc.cols soc + j)%nat]) /\
    head grid = Some k /\
    grid ≡ₚ seq 0 (soc.rows soc * soc.cols soc) /\
    StronglySorted (fun a b => (b < a)%nat) cpus /\
    (forall i, i ∈ cpus <->
       exists t, soc_config.tiles cfg !! i = Some t /\ tile_info.type t = ty_cpu) /\
    (forall i t, soc_config.tiles cfg !! i = Some t -> tile_info.cpu_id t = 0 ->
       last (grid ++ cpus) = Some i).
Proof.
  intros Hinit Hname Hk Hty Huniq.
  unfold esp_init_sequence. rewrite (resolved_tiles_enum soc cfg Hinit). simpl.
  rewrite (misc_id_unique _ k io Hk Hty Huniq), Hk. simpl.
  eexists _, _. split; [reflexivity|]. split; [reflexivity|].
  destruct (resolved_tile_inv soc cfg Hinit k io Hk) as (x & y & Hxy & ->).
  apply scan_lookup_inv in Hxy as (Hkxy & Hx & Hy).
  change (tile_info.row (final_tile soc k x y)) with x.
  change (tile_info.col (final_tile soc k x y)) with y.
  assert (forall i, i ∈ (it ← rev (enum (soc_config.tiles cfg));
                          if is_type ty_cpu it.2 then [it.1] else []) <->
            exists t, soc_config.tiles cfg !! i = Some t /\
                      tile_info.type t = ty_cpu) as Hmem.
  { intros i. rewrite elem_of_desc_select. unfold is_type.
    by setoid_rewrite bool_decide_eq_true. }
  split; [|split; [|split; [|split]]].
  - rewrite (outward_cons x), bind_cons, (outward_cons y), bind_cons. simpl.
    f_equal. lia.
  - by apply grid_Permutation.
  - apply desc_select_sorted.
  - exact Hmem.
  - intros i t Hi Hcpu0.
    assert (is_type ty_cpu t = true) as Htype.
    { rewrite (cpu_type_iff_id soc cfg Hinit i t Hname Hi).
      unfold has_id. by rewrite Hcpu0. }
    apply bool_decide_eq_true in Htype.
    destruct (sorted_desc_last _ i
                (desc_select_sorted (is_type ty_cpu) (soc_config.tiles cfg)))
      as (j & Hlast & Hle & Hj); [apply Hmem; by exists t|].
    apply last_app_Some. left. rewrite Hlast. f_equal.
    apply Hmem in Hj as (u & Hj & Hu).
    pose proof (cpu_type_iff_id soc cfg Hinit j u Hname Hj) as Hid.
    unfold is_type in Hid. rewrite bool_decide_eq_true_2 in Hid by done.
    unfold has_id in Hid. symmetry in Hid. apply negb_true_iff, Z.eqb_neq in Hid.
    apply (counted_id_inj soc cfg Hinit sel_cpu tile_info.cpu_id
             ltac:(done) j i u t Hj Hi Hid).
    destruct (resolved_tile_inv soc cfg Hinit j u Hj) as (xj & yj & _ & ->).
    destruct (resolved_tile_inv soc cfg Hinit i t Hi) as (xi & yi & _ & ->).
    unfold final_tile, resolved_tile in *. simpl in *.
    pose proof (count_take_mono sel_cpu (cells soc) j i Hle).
    pose proof (count_nonneg sel_cpu (take j (cells soc))).
    destruct (sel_cpu (soc.topology soc xj yj)); [|done].
    destruct (sel_cpu (soc.topology soc xi yi)); [|done]. lia.
Qed.

Lemma C8_init_sequence_witness :
  soc_config_init soc_5rows = Ok (resolved soc_5rows) /\
  is_accelerator soc_5rows "cpu" = false /\
  exists io,
    soc_config.tiles (resolved soc_5rows) !! 4%nat = Some io /\
    tile_info.type io = ty_misc /\
    (forall j u, soc_config.tiles (resolved soc_5rows) !! j = Some u ->
                 tile_info.type u = ty_misc -> j = 4%nat) /\
    exists grid cpus,
      esp_init_sequence soc_5rows (resolved soc_5rows) = Ok (grid ++ cpus) /\
      grid = (i ← outward (tile_info.row io) (soc.rows soc_5rows);
              j ← outward (tile_info.col io) (soc.cols soc_5rows);
              [(i * soc.cols soc_5rows + j)%nat]) /\
      head grid = Some 4%nat /\
      grid ≡ₚ seq 0 (soc.rows soc_5rows * soc.cols soc_5rows) /\
      StronglySorted (fun a b => (b < a)%nat) cpus /\
      (forall i, i ∈ cpus <->
         exists t, soc_config.tiles (resolved soc_5rows) !! i = Some t /\
                   tile_info.type t = ty_cpu) /\
      (forall i t, soc_config.tiles (resolved soc_5rows) !! i = Some t ->
         tile_info.cpu_id t = 0 -> last (grid ++ cpus) = Some i).
Proof.
  assert (soc_config_init soc_5rows = Ok (resolved soc_5rows)) as Hinit
    by (vm_compute; reflexivity).
  assert (is_accelerator soc_5rows "cpu" = false) as Hname
    by (vm_compute; reflexivity).
  split; [exact Hinit|split; [exact Hname|]].
  destruct (soc_config.tiles (resolved soc_5rows) !! 4%nat) as [io|] eqn:Hio;
    [|vm_compute in Hio; discriminate].
  assert (tile_info.type io = ty_misc) as Hty
    by (vm_compute in Hio; injection Hio as <-; reflexivity).
  assert (forall j u, soc_config.tiles (resolved soc_5rows) !! j = Some u ->
                      tile_info.type u = ty_misc -> j = 4%nat) as Huniq.
  { intros j u Hj Hu. pose proof (lookup_lt_Some _ _ _ Hj) as Hlt.
    vm_compute in Hlt.
    do 10 (destruct j as [|j];
           [vm_compute in Hj; injection Hj as <-;
            first [reflexivity | discriminate Hu]|]).
    lia. }
  exists io. split; [reflexivity|split; [exact Hty|split; [exact Huniq|]]].
  exact (C8_init_sequence _ _ _ _ Hinit Hname Hio Hty Huniq).
Defined.

(** ** [uint_to_bin] *)

Lemma list_ascii_of_string_app a b :
  list_ascii_of_string (String.append a b)
    = list_ascii_of_string a ++ list_ascii_of_string b.
Proof. induction a as [|c a IH]; simpl; [done|]. by rewrite IH. Qed.

Lemma length_list_ascii s : length (list_ascii_of_string s) = String.length s.
Proof. induction s as [|c s IH]; simpl; [done|]. by rewrite IH. Qed.

Lemma land_pow2_eqb x n :
  0 <= n -> (Z.land x (2 ^ n) =? 2 ^ n) = Z.testbit x n.
Proof.
  intros Hn. destruct (Z.testbit x n) eqn:Hb.
  - apply Z.eqb_eq, Z.bits_inj'. intros m Hm.
    rewrite Z.land_spec, Z.pow2_bits_eqb by done.
    destruct (Z.eqb_spec n m) as [<-|]; [by rewrite Hb|apply andb_false_r].
  - apply Z.eqb_neq. intros H. apply (f_equal (fun v => Z.testbit v n)) in H.
    rewrite Z.land_spec, Z.pow2_bits_true, Hb in H by done. done.
Qed.

Lemma uint_to_bin_while_spec x (k : nat) z b :
  Zpos z = 2 ^ Z.of_nat k ->
  list_ascii_of_string (uint_to_bin_while x z b)
    = list_ascii_of_string b ++ bits_down x k.
Proof.
  revert z b. induction k as [|k IH]; intros z b Hz.
  - assert (z = xH) as -> by (simpl in Hz; lia).
    cbn [uint_to_bin_while bits_down]. rewrite list_ascii_of_string_app.
    change (Z.pos 1) with (2 ^ 0). rewrite land_pow2_eqb by done.
    change (Z.of_nat 0) with 0. by destruct (Z.testbit x 0).
  - rewrite Nat2Z.inj_succ, Z.pow_succ_r in Hz by lia.
    destruct z as [z'|z'|]; [lia| |lia].
    assert (Zpos z' = 2 ^ Z.of_nat k) as Hz' by lia.
    cbn [uint_to_bin_while bits_down]. rewrite (IH _ _ Hz').
    rewrite list_ascii_of_string_app, <-app_assoc. f_equal.
    replace (Zpos z'~0) with (2 ^ Z.of_nat (S k))
      by (rewrite Nat2Z.inj_succ, Z.pow_succ_r; lia).
    rewrite land_pow2_eqb by lia.
    by destruct (Z.testbit x (Z.of_nat (S k))).
Qed.

Lemma length_bits_down x k : length (bits_down x k) = S k.
Proof. induction k as [|k IH]; simpl; [done|]. by rewrite IH. Qed.

Lemma bits_down_lookup x k i :
  (i <= k)%nat ->
  bits_down x k !! i =
    Some (if Z.testbit x (Z.of_nat (k - i)) then "1"%char else "0"%char).
Proof.
  revert i. induction k as [|k IH]; intros i Hi.
  - by replace i with 0%nat by lia.
  - destruct i as [|i]; [done|]. cbn [bits_down]. rewrite lookup_cons.
    rewrite IH by lia. done.
Qed.

Lemma bits_down_value x k v :
  fold_left (fun v c => 2 * v + (if Ascii.eqb c "1" then 1 else 0))
    (bits_down x k) v
  = v * 2 ^ (Z.of_nat k + 1) + x mod 2 ^ (Z.of_nat k + 1).
Proof.
  revert v. induction k as [|k IH]; intros v.
  - cbn [bits_down fold_left]. change (2 ^ (Z.of_nat 0 + 1)) with 2.
    pose proof (Z.testbit_spec' x 0 ltac:(done)) as H.
    rewrite Z.pow_0_r, Z.div_1_r in H. rewrite <-H. change (Z.of_nat 0) with 0.
    destruct (Z.testbit x 0); cbn [Z.b2z];
      [change (Ascii.eqb "1" "1") with true|change (Ascii.eqb "0" "1") with false];
      cbv beta iota;
      lia.
  - cbn [bits_down fold_left]. rewrite IH.
    replace (Z.of_nat (S k) + 1) with (Z.succ (Z.of_nat k + 1)) by lia.
    rewrite Z.pow_succ_r by lia.
    rewrite (Z.mul_comm 2 (2 ^ _)).
    rewrite (Z.rem_mul_r x (2 ^ (Z.of_nat k + 1)) 2) by lia.
    rewrite <-(Z.testbit_spec' x (Z.of_nat k + 1)) by lia.
    replace (Z.of_nat (S k)) with (Z.of_nat k + 1) by lia.
    destruct (Z.testbit x (Z.of_nat k + 1)); cbn [Z.b2z];
      [change (Ascii.eqb "1" "1") with true|change (Ascii.eqb "0" "1") with false];
      cbv beta iota;
      lia.
Qed.

Lemma uint_to_bin_ok (x bits : Z) :
  1 <= bits ->
  exists s,
    uint_to_bin x bits = Returned s /\
    String.length s = Z.to_nat bits /\
    (forall i, (i < Z.to_nat bits)%nat ->
       list_ascii_of_string s !! i =
         Some (if Z.testbit x (bits - 1 - Z.of_nat i) then "1"%char else "0"%char)) /\
    bin_value s = x mod 2 ^ bits.
Proof.
  intros Hb. unfold uint_to_bin.
  destruct (Z.ltb_spec (bits - 1) 0) as [?|_]; [lia|].
  rewrite Z.shiftl_1_l.
  set (k := Z.to_nat (bits - 1)).
  assert (bits - 1 = Z.of_nat k) as Hk by lia.
  destruct (2 ^ (bits - 1)) as [|z|z] eqn:Hz;
    [pose proof (Z.pow_pos_nonneg 2 (bits - 1)); lia| |
     pose proof (Z.pow_pos_nonneg 2 (bits - 1)); lia].
  rewrite Hk in Hz. symmetry in Hz.
  pose proof (uint_to_bin_while_spec x k z "" Hz) as Hs. simpl in Hs.
  eexists. split; [done|].
  assert (bin_value (uint_to_bin_while x z "") = x mod 2 ^ bits) as Hv.
  { unfold bin_value. rewrite Hs, bits_down_value.
    replace (Z.of_nat k + 1) with bits by lia. lia. }
  split; [|split; [|done]].
  - rewrite <-length_list_ascii, Hs, length_bits_down. lia.
  - intros i Hi. rewrite Hs, bits_down_lookup by lia.
    by replace (Z.of_nat (k - i)) with (bits - 1 - Z.of_nat i) by lia.
Qed.

(** X1. For a positive width, [uint_to_bin(x, bits)] returns exactly [bits]
    characters, the character at position [i] being the bit of [x] of
    weight [bits - 1 - i] (two's complement for negative [x]); read back
    as a binary literal the string is [x mod 2^bits], so every [x] in
    [0, 2^bits) is recovered and larger values lose their high bits
    without any error. *)
Theorem X1_uint_to_bin_encodes (x bits : Z) :
  1 <= bits ->
  exists s,
    uint_to_bin x bits = Returned s /\
    String.length s = Z.to_nat bits /\
    (forall i, (i < Z.to_nat bits)%nat ->
       list_ascii_of_string s !! i =
         Some (if Z.testbit x (bits - 1 - Z.of_nat i) then "1"%char else "0"%char)) /\
    bin_value s = x mod 2 ^ bits /\
    (0 <= x < 2 ^ bits -> bin_value s = x).
Proof.
  intros Hb. destruct (uint_to_bin_ok x bits Hb) as (s & Hs & Hlen & Hbit & Hv).
  exists s. split; [done|]. split; [done|]. split; [done|]. split; [done|].
  intros Hx. rewrite Hv. by apply Z.mod_small.
Qed.

Lemma X1_uint_to_bin_encodes_witness :
  exists s,
    uint_to_bin 5 3 = Returned s /\
    String.length s = 3%nat /\
    (forall i, (i < 3)%nat ->
       list_ascii_of_string s !! i =
         Some (if Z.testbit 5 (3 - 1 - Z.of_nat i) then "1"%char else "0"%char)) /\
    bin_value s = 5 mod 2 ^ 3 /\
    (0 <= 5 < 2 ^ 3 -> bin_value s = 5).
Proof. apply (X1_uint_to_bin_encodes 5 3). lia. Defined.

(** X2. [uint_to_bin] with a width of zero or less raises [ValueError]
    (the shift [1 << (bits - 1)] has a negative count); it never returns
    an empty string. *)
Theorem X2_uint_to_bin_rejects_nonpositive_width (x bits : Z) :
  (bits <= 0 -> uint_to_bin x bits = Threw PyValueError) /\
  (forall s, uint_to_bin x bits = Returned s -> s <> ""%string /\ 1 <= bits).
Proof.
  split.
  - intros Hb. unfold uint_to_bin.
    by destruct (Z.ltb_spec (bits - 1) 0); [|lia].
  - intros s Hs.
    destruct (Z.le_gt_cases 1 bits) as [Hb|Hb].
    + destruct (uint_to_bin_ok x bits Hb) as (s' & Hs' & Hlen & _).
      rewrite Hs in Hs'. injection Hs' as <-. split; [|done].
      intros ->. simpl in Hlen. lia.
    + unfold uint_to_bin in Hs.
      by destruct (Z.ltb_spec (bits - 1) 0); [|lia].
Qed.

Lemma X2_uint_to_bin_rejects_nonpositive_width_witness :
  uint_to_bin 7 0 = Threw PyValueError /\
  (forall s, uint_to_bin 7 4 = Returned s -> s <> ""%string /\ 1 <= 4).
Proof.
  split.
  - apply (proj1 (X2_uint_to_bin_rejects_nonpositive_width 7 0)). lia.
  - apply (proj2 (X2_uint_to_bin_rejects_nonpositive_width 7 4)).
Defined.

(** ** The descriptor lists of the resolved configuration *)

Lemma tiles_with_nil {A} p (f : tile_info.t -> A) l :
  (forall t, t ∈ l -> p t = false) -> tiles_with p f l = [].
Proof.
  induction l as [|t l IH]; intros H; [done|].
  unfold tiles_with in *. rewrite bind_cons, (H t) by left.
  apply IH. intros u Hu. apply H. by right.
Qed.

Lemma tiles_with_app {A} p (f : tile_info.t -> A) l1 l2 :
  tiles_with p f (l1 ++ l2) = tiles_with p f l1 ++ tiles_with p f l2.
Proof. apply bind_app. Qed.

(** Resolving the first unvisited tile appends its contribution. *)
Lemma tiles_with_visit {A} p (f : tile_info.t -> A) tiles n rt :
  (n < length tiles)%nat ->
  (forall k, (n <= k < length tiles)%nat -> tiles !! k = Some tile_info.new) ->
  p tile_info.new = false ->
  tiles_with p f (<[n := rt]> tiles)
    = tiles_with p f tiles ++ (if p rt then [f rt] else []).
Proof.
  intros Hn Hnew Hp.
  assert (tiles_with p f (drop (S n) tiles) = []) as Hrest.
  { apply tiles_with_nil. intros t Ht.
    apply list_elem_of_lookup in Ht as [k Hk]. rewrite lookup_drop in Hk.
    pose proof (lookup_lt_Some _ _ _ Hk) as Hlt.
    rewrite Hnew in Hk by lia. by injection Hk as <-. }
  rewrite <-(take_drop_middle tiles n tile_info.new) at 2 by (apply Hnew; lia).
  rewrite insert_take_drop by done.
  unfold tiles_with in *. rewrite !bind_app, !bind_cons, Hrest, Hp. simpl.
  by rewrite !app_nil_r.
Qed.

Section Lists.
Variable soc : soc.t.

(** A visit that returns has produced the closed-form state, with the bus
    indices read from the bands. *)
Lemma visit_shape n st x y st' :
  walk_inv soc n st ->
  scan (soc.rows soc) (soc.cols soc) !! n = Some (x, y) ->
  visit soc x y st = Ok st' ->
  exists i2 il,
    st' = glue (next_state soc st (soc.topology soc x y) i2 il)
            (<[n := resolved_tile soc st (soc.topology soc x y) x y i2 il
                      tile_info.new]> (tiles_of st)) /\
    (sel_cpu (soc.topology soc x y) && coherent soc = true ->
     i2 = 8 + walk.cpu_id st) /\
    (sel_mem (soc.topology soc x y) && coherent soc = true ->
     il = 24 + walk.llc_id st).
Proof.
  intros Inv Hxy Hv.
  destruct (walk_ctr_eqs _ _ _ (wi_ctr _ _ _ Inv)) as (E1 & _ & _ & E4 & _).
  pose proof (frozen_coherence _ _ (wi_frozen _ _ _ Inv)) as Hc.
  pose proof (scan_lookup_inv _ _ _ _ _ Hxy) as (Hn & Hx & Hy).
  assert (n < soc.rows soc * soc.cols soc)%nat as Hlt
    by (rewrite <-length_scan; by eapply lookup_lt_Some).
  pose proof (count_nonneg sel_cpu (take n (cells soc))) as P1.
  pose proof (count_nonneg sel_mem (take n (cells soc))) as P2.
  assert (0 <= walk.llc_id st) as P3 by (rewrite E4; destruct (coherent soc); lia).
  assert (tiles_of st !! (y + x * soc.cols soc)%nat = Some tile_info.new) as Hti.
  { rewrite <-Hn. apply Inv. lia. }
  rewrite (visit_eq soc x y st _ Hti), <-Hn in Hv. cbv zeta in Hv.
  rewrite Hc in Hv.
  set (c := soc.topology soc x y) in *.
  destruct (sel_cpu c && coherent soc) eqn:Ecpu.
  - destruct (Z.lt_ge_cases (walk.cpu_id st) 16) as [Hlt16|Hge16].
    + rewrite L2_CACHE_PINDEX_lookup, bind_Ok_l in Hv by lia.
      destruct (sel_mem c && coherent soc) eqn:Emem.
      * destruct (Z.lt_ge_cases (walk.llc_id st) 16) as [Hl|Hl].
        -- rewrite LLC_CACHE_PINDEX_lookup, bind_Ok_l in Hv by lia.
           injection Hv as <-. by eexists _, _.
        -- by rewrite LLC_CACHE_PINDEX_overflow in Hv by lia.
      * rewrite bind_Ok_l in Hv. injection Hv as <-. by eexists _, _.
    + by rewrite L2_CACHE_PINDEX_overflow in Hv by lia.
  - rewrite bind_Ok_l in Hv.
    destruct (sel_mem c && coherent soc) eqn:Emem.
    + destruct (Z.lt_ge_cases (walk.llc_id st) 16) as [Hl|Hl].
      * rewrite LLC_CACHE_PINDEX_lookup, bind_Ok_l in Hv by lia.
        injection Hv as <-. by eexists _, _.
      * by rewrite LLC_CACHE_PINDEX_overflow in Hv by lia.
    + rewrite bind_Ok_l in Hv. injection Hv as <-. by eexists _, _.
Qed.
Lemma walk_lists_next n st x y i2 il :
  let c := soc.topology soc x y in
  walk_inv soc n st -> walk_lists soc st ->
  scan (soc.rows soc) (soc.cols soc) !! n = Some (x, y) ->
  (sel_cpu c && coherent soc = true -> i2 = 8 + walk.cpu_id st) ->
  (sel_mem c && coherent soc = true -> il = 24 + walk.llc_id st) ->
  walk_lists soc
    (glue (next_state soc st c i2 il)
       (<[n := resolved_tile soc st c x y i2 il tile_info.new]> (tiles_of st))).
Proof.
  intros c Inv (La & Lc & Lc' & L2 & L2' & Lt) Hxy Hi2 Hil.
  destruct (walk_ctr_eqs _ _ _ (wi_ctr _ _ _ Inv))
    as (E1 & E2 & E3 & E4 & E5 & E6 & E7 & E8 & E9).
  pose proof (frozen_coherence _ _ (wi_frozen _ _ _ Inv)) as Hc.
  assert (n < length (tiles_of st))%nat as Hlt.
  { rewrite (wi_len _ _ _ Inv), <-length_scan. by eapply lookup_lt_Some. }
  assert (forall k, (n <= k < length (tiles_of st))%nat ->
            tiles_of st !! k = Some tile_info.new) as Hnew.
  { intros k Hk. apply Inv. rewrite <-(wi_len _ _ _ Inv). lia. }
  pose proof (count_nonneg sel_cpu (take n (cells soc))) as P1.
  pose proof (count_nonneg sel_mem (take n (cells soc))) as P2.
  pose proof (count_nonneg (sel_acc_l2 soc) (take n (cells soc))) as P4.
  assert (is_type ty_acc (resolved_tile soc st c x y i2 il tile_info.new)
          = sel_acc soc c) as Tacc.
  { unfold is_type, resolved_tile. simpl.
    by destruct (sel_acc soc c), (sel_io c), (sel_mem c), (sel_slmddr c),
      (sel_slm c), (sel_cpu c). }
  assert (has_id llc_id (resolved_tile soc st c x y i2 il tile_info.new)
          = sel_mem c && coherent soc) as Tllc.
  { unfold has_id, llc_id, resolved_tile. simpl. rewrite Hc.
    destruct (sel_mem c && coherent soc); simpl; [|done].
    destruct (Z.eqb_spec (walk.llc_id st) (-1)); [|done].
    destruct (coherent soc); lia. }
  unfold walk_lists. rewrite tiles_of_glue.
  rewrite !(tiles_with_visit _ _ _ _ _ Hlt Hnew) by done.
  rewrite Tacc, Tllc.
  unfold glue, next_state, next_self. simpl.
  rewrite Hc. fold c.
  split; [|split; [|split; [|split; [|split]]]].
  - rewrite La. destruct (sel_acc soc c); [done|by rewrite app_nil_r].
  - rewrite Lc. destruct (sel_mem c && coherent soc); [done|by rewrite app_nil_r].
  - rewrite Lc'. destruct (sel_mem c && coherent soc) eqn:Em; [|done].
    rewrite (Hil eq_refl).
    assert (0 <= walk.llc_id st) by (destruct (coherent soc); lia).
    rewrite seqZ_app, fmap_app by lia. done.
  - intros Hname Hnn. rewrite (L2 Hname Hnn).
    assert (has_id l2_id (resolved_tile soc st c x y i2 il tile_info.new)
            = (sel_acc_l2 soc c || sel_cpu c) && coherent soc) as Tl2.
    { unfold has_id, l2_id, resolved_tile. simpl. rewrite Hc.
      destruct (sel_acc_l2 soc c), (sel_cpu c), (coherent soc); simpl; try done.
      all: match goal with
           | |- negb (?a =? -1) = true =>
               destruct (Z.eqb_spec a (-1)); [lia|done]
           end. }
    rewrite Tl2.
    destruct (sel_cpu c) eqn:Ecpu.
    + destruct (sel_cpu_exclusive soc _ Ecpu) as (_ & _ & _ & _ & Hacc).
      unfold sel_acc_l2. rewrite Hacc, Hname. simpl.
      by destruct (coherent soc); [|rewrite app_nil_r].
    + rewrite orb_false_r. simpl.
      by destruct (sel_acc_l2 soc c && coherent soc); [|rewrite app_nil_r].
  - assert (on_io_bus (cache_info.mk (walk.cpu_id st) (8 + walk.cpu_id st)) = true)
      as Hon.
    { unfold on_io_bus. simpl.
      destruct (Z.eqb_spec (8 + walk.cpu_id st) (-1)); [lia|done]. }
    destruct (coherent soc) eqn:Ecoh; rewrite ?andb_true_r, ?andb_false_r.
    + destruct (sel_cpu c) eqn:Ecpu.
      * rewrite (Hi2 eq_refl).
        rewrite seqZ_app, fmap_app by lia.
        destruct (sel_acc_l2 soc c);
          rewrite ?List.filter_app, L2'; simpl; rewrite Hon; simpl;
          by rewrite ?app_nil_r.
      * destruct (sel_acc_l2 soc c); rewrite ?List.filter_app, L2'; simpl;
          by rewrite ?app_nil_r.
    + done.
  - rewrite Lt. destruct (sel_acc soc c); simpl; [|done].
    rewrite count_snoc.
    change (thirdparty_vendor (new_acc st c))
      with (negb (String.eqb (noc_tile.vendor c) "sld")).
    destruct (negb _); lia.
Qed.

Lemma walk_lists_init : walk_lists soc (init_walk soc).
Proof.
  assert (forall A p (f : tile_info.t -> A),
            p tile_info.new = false ->
            tiles_with p f (tiles_of (init_walk soc)) = []) as Hnil.
  { intros A p f Hp. apply tiles_with_nil. intros t Ht.
    unfold tiles_of in Ht. simpl in Ht.
    by apply elem_of_replicate in Ht as [-> _]. }
  unfold walk_lists. rewrite !Hnil by done. simpl.
  split; [done|]. split; [done|]. split; [done|]. split; [done|].
  split; [by destruct (coherent soc)|done].
Qed.

(** The walk over the first [n] cells, when it returns, establishes both
    invariants. *)
Lemma walk_prefix_lists n st :
  (n <= soc.rows soc * soc.cols soc)%nat ->
  walk_from soc (take n (scan (soc.rows soc) (soc.cols soc))) (init_walk soc)
    = Ok st ->
  within_bands soc (take n (cells soc)) = true /\
  walk_inv soc n st /\ walk_lists soc st.
Proof.
  revert st. induction n as [|n IH]; intros st Hn Hw.
  - rewrite take_0 in Hw. injection Hw as <-.
    split; [by rewrite take_0; apply within_bands_nil|].
    split; [apply init_walk_inv|apply walk_lists_init].
  - destruct (lookup_lt_is_Some_2 (scan (soc.rows soc) (soc.cols soc)) n)
      as [[x y] Hxy]; [rewrite length_scan; lia|].
    rewrite (take_S_r _ _ _ Hxy), walk_from_app in Hw.
    destruct (walk_from soc (take n _) (init_walk soc)) as [st0|] eqn:H0;
      [|done].
    rewrite bind_Ok_l in Hw. simpl in Hw.
    destruct (visit soc x y st0) as [st1|] eqn:Hv; [|done].
    simpl in Hw. injection Hw as <-.
    destruct (IH st0 ltac:(lia) eq_refl) as (W & Inv & Ls).
    pose proof (visit_step soc n st0 x y Inv Hxy W) as Hstep.
    destruct (within_bands soc (take (S n) (cells soc))); [|congruence].
    destruct Hstep as (st' & Hst' & Inv').
    rewrite Hv in Hst'. injection Hst' as <-.
    split; [done|]. split; [done|].
    destruct (visit_shape n st0 x y st1 Inv Hxy Hv) as (i2 & il & -> & Hi2 & Hil).
    by apply walk_lists_next.
Qed.

Lemma soc_config_init_lists cfg :
  soc_config_init soc = Ok cfg ->
  exists st, cfg = walk.self st /\
             walk_inv soc (soc.rows soc * soc.cols soc) st /\
             walk_lists soc st.
Proof.
  unfold soc_config_init. intros H.
  destruct (walk_from soc _ (init_walk soc)) as [st|] eqn:Hw; [|done].
  simpl in H. injection H as <-. exists st. split; [done|].
  rewrite <-(take_ge (scan (soc.rows soc) (soc.cols soc))
               (soc.rows soc * soc.cols soc)) in Hw
    by (rewrite length_scan; lia).
  by destruct (walk_prefix_lists (soc.rows soc * soc.cols soc) st
                ltac:(lia) Hw) as (_ & ? & ?).
Qed.
End Lists.

(** ** What resolution leaves in the configuration *)

Section ResolvedLists.
Variable soc : soc.t.
Variable cfg : soc_config.t.
Hypothesis Hinit : soc_config_init soc = Ok cfg.

Lemma resolved_accelerators :
  soc_config.accelerators cfg
    = tiles_with (is_type ty_acc) tile_info.acc (soc_config.tiles cfg).
Proof.
  destruct (soc_config_init_lists soc cfg Hinit) as (st & -> & Inv & Ls).
  apply Ls.
Qed.

Lemma resolved_accelerators_len :
  Z.of_nat (length (soc_config.accelerators cfg)) = count (sel_acc soc) (cells soc).
Proof.
  destruct (soc_config_init_lists soc cfg Hinit) as (st & -> & Inv & Ls).
  rewrite (wi_accs_len _ _ _ Inv), take_ge; [done|]. by rewrite length_cells.
Qed.

Lemma resolved_accelerators_ok k a :
  soc_config.accelerators cfg !! k = Some a -> acc_ok soc k a.
Proof.
  destruct (soc_config_init_lists soc cfg Hinit) as (st & -> & Inv & Ls).
  apply Inv.
Qed.

Lemma resolved_nthirdparty :
  soc_config.nthirdparty cfg
    = count thirdparty_vendor (soc_config.accelerators cfg).
Proof.
  destruct (soc_config_init_lists soc cfg Hinit) as (st & -> & Inv & Ls).
  apply Ls.
Qed.

Lemma resolved_llcs :
  soc_config.llcs cfg
    = (fun k => cache_info.mk k (24 + k))
        <$> seqZ 0 (if coherent soc then count sel_mem (cells soc) else 0).
Proof.
  destruct (soc_config_init_lists soc cfg Hinit) as (st & -> & Inv & Ls).
  destruct (walk_ctr_eqs _ _ _ (wi_ctr _ _ _ Inv)) as (_ & _ & _ & E4 & _).
  rewrite take_ge in E4 by (by rewrite length_cells).
  destruct Ls as (_ & _ & -> & _). by rewrite E4.
Qed.

Lemma resolved_llcs_tiles :
  soc_config.llcs cfg
    = tiles_with (has_id llc_id) tile_info.llc (soc_config.tiles cfg).
Proof.
  destruct (soc_config_init_lists soc cfg Hinit) as (st & -> & Inv & Ls).
  apply Ls.
Qed.

Lemma resolved_l2s_tiles :
  is_accelerator soc "cpu" = false -> 0 <= soc.get_cpu_num soc ->
  soc_config.l2s cfg
    = tiles_with (has_id l2_id) tile_info.l2 (soc_config.tiles cfg).
Proof.
  destruct (soc_config_init_lists soc cfg Hinit) as (st & -> & Inv & Ls).
  apply Ls.
Qed.

Lemma resolved_l2s_on_bus :
  List.filter on_io_bus (soc_config.l2s cfg)
    = (fun k => cache_info.mk k (8 + k))
        <$> seqZ 0 (if coherent soc then count sel_cpu (cells soc) else 0).
Proof.
  destruct (soc_config_init_lists soc cfg Hinit) as (st & -> & Inv & Ls).
  destruct (walk_ctr_eqs _ _ _ (wi_ctr _ _ _ Inv)) as (E1 & _).
  rewrite take_ge in E1 by (by rewrite length_cells).
  destruct Ls as (_ & _ & _ & _ & -> & _). by rewrite E1.
Qed.

Lemma resolved_nl2 :
  Z.of_nat (length (soc_config.l2s cfg)) = soc_config.nl2 cfg /\
  soc_config.nl2 cfg =
    if coherent soc
    then count sel_cpu (cells soc) + count (sel_acc_l2 soc) (cells soc)
    else 0.
Proof.
  destruct (soc_config_init_lists soc cfg Hinit) as (st & -> & Inv & Ls).
  split; [apply Inv|]. rewrite (wi_nl2 _ _ _ Inv).
  by rewrite take_ge by (by rewrite length_cells).
Qed.
End ResolvedLists.

(** X3. After resolution the [accelerators] list holds, in tile order,
    exactly the descriptors stored in the accelerator tiles; it has one
    entry per accelerator cell, the entry at position [k] has identifier
    [k], bus index [296 + k] and a lower-case name derived from its
    upper-case name, and [nthirdparty] is the number of its entries whose
    vendor is not "sld". *)
Theorem X3_accelerators_list (soc : soc.t) (cfg : soc_config.t) :
  soc_config_init soc = Ok cfg ->
  soc_config.accelerators cfg
    = tiles_with (is_type ty_acc) tile_info.acc (soc_config.tiles cfg) /\
  Z.of_nat (length (soc_config.accelerators cfg))
    = count (sel_acc soc) (cells soc) /\
  (forall k a, soc_config.accelerators cfg !! k = Some a ->
     acc_info.id a = Z.of_nat k /\
     acc_info.idx a = SLD_APB_PINDEX + Z.of_nat k /\
     acc_info.lowercase_name a = lower (acc_info.uppercase_name a)) /\
  soc_config.nthirdparty cfg
    = count thirdparty_vendor (soc_config.accelerators cfg).
Proof.
  intros Hinit.
  split; [by apply (resolved_accelerators soc)|].
  split; [by apply resolved_accelerators_len|].
  split; [|by apply (resolved_nthirdparty soc)].
  intros k a Ha.
  destruct (resolved_accelerators_ok soc cfg Hinit k a Ha) as (H1 & H2 & _).
  split; [done|]. split; [done|].
  apply list_elem_of_lookup_2 in Ha.
  rewrite (resolved_accelerators soc cfg Hinit) in Ha.
  unfold tiles_with in Ha. apply list_elem_of_bind in Ha as (ti & Ha & Hti).
  apply list_elem_of_lookup in Hti as [n Hn].
  destruct (resolved_tile_inv soc cfg Hinit n ti Hn) as (x & y & _ & ->).
  destruct (is_type ty_acc _) eqn:Hty; [|by apply elem_of_nil in Ha].
  apply list_elem_of_singleton in Ha as ->.
  apply bool_decide_eq_true, final_tile_type_acc in Hty.
  unfold final_tile, resolved_tile. simpl. by rewrite Hty.
Qed.

Lemma X3_accelerators_list_witness :
  soc_config.accelerators (resolved (soc_mixed ariane))
    = tiles_with (is_type ty_acc) tile_info.acc
        (soc_config.tiles (resolved (soc_mixed ariane))) /\
  soc_config.nthirdparty (resolved (soc_mixed ariane)) = 1.
Proof.
  destruct (X3_accelerators_list (soc_mixed ariane) (resolved (soc_mixed ariane))
              ltac:(vm_compute; reflexivity)) as (H1 & _ & _ & H4).
  split; [exact H1|]. rewrite H4. reflexivity.
Defined.

(** X4. After resolution [nl2] equals [len(l2s)] (CPU tiles plus
    accelerator tiles with the private-cache flag when coherence is on, 0
    otherwise); the entries of [l2s] that sit on the I/O bus are exactly
    the CPU caches, numbered from 0 with bus index [8 + id]; [llcs] is the
    list of LLC splits numbered from 0 with bus index [24 + id]; and both
    lists hold, in tile order, the very descriptors stored in the tiles. *)
Theorem X4_cache_lists (soc : soc.t) (cfg : soc_config.t) :
  soc_config_init soc = Ok cfg ->
  Z.of_nat (length (soc_config.l2s cfg)) = soc_config.nl2 cfg /\
  soc_config.nl2 cfg =
    (if coherent soc
     then count sel_cpu (cells soc) + count (sel_acc_l2 soc) (cells soc)
     else 0) /\
  List.filter on_io_bus (soc_config.l2s cfg)
    = (fun k => cache_info.mk k (8 + k))
        <$> seqZ 0 (if coherent soc then count sel_cpu (cells soc) else 0) /\
  soc_config.llcs cfg
    = (fun k => cache_info.mk k (24 + k))
        <$> seqZ 0 (if coherent soc then count sel_mem (cells soc) else 0) /\
  soc_config.llcs cfg
    = tiles_with (has_id llc_id) tile_info.llc (soc_config.tiles cfg) /\
  (is_accelerator soc "cpu" = false -> 0 <= soc.get_cpu_num soc ->
   soc_config.l2s cfg
     = tiles_with (has_id l2_id) tile_info.l2 (soc_config.tiles cfg)).
Proof.
  intros Hinit. destruct (resolved_nl2 soc cfg Hinit) as [H1 H2].
  split; [done|]. split; [done|].
  split; [by apply resolved_l2s_on_bus|].
  split; [by apply resolved_llcs|].
  split; [by apply (resolved_llcs_tiles soc)|by apply resolved_l2s_tiles].
Qed.

Lemma X4_cache_lists_witness :
  soc_config.nl2 (resolved (soc_mixed ariane)) = 2 /\
  soc_config.l2s (resolved (soc_mixed ariane))
    = tiles_with (has_id l2_id) tile_info.l2
        (soc_config.tiles (resolved (soc_mixed ariane))).
Proof.
  destruct (X4_cache_lists (soc_mixed ariane) (resolved (soc_mixed ariane))
              ltac:(vm_compute; reflexivity)) as (_ & H2 & _ & _ & _ & H6).
  split; [rewrite H2; reflexivity|].
  apply H6; [reflexivity|vm_compute; discriminate].
Defined.

Lemma count_hits {A} (p : A -> bool) (l : list A) k :
  0 <= k < count p l ->
  exists n c, l !! n = Some c /\ p c = true /\ count p (take n l) = k.
Proof.
  induction l as [|a l IH] using rev_ind; [simpl; lia|].
  rewrite count_snoc. intros Hk.
  destruct (Z.lt_ge_cases k (count p l)) as [Hlt|Hge].
  - destruct (IH ltac:(lia)) as (n & c & Hn & Hp & Hc).
    exists n, c. split; [by apply lookup_app_l_Some|]. split; [done|].
    rewrite take_app_le; [done|].
    apply lookup_lt_Some in Hn. lia.
  - destruct (p a) eqn:Hp; [|lia].
    exists (length l), a. split; [by rewrite lookup_app_r, Nat.sub_diag|].
    split; [done|]. rewrite take_app_length. lia.
Qed.

Section ResolvedIds.
Variable soc : soc.t.
Variable cfg : soc_config.t.
Hypothesis Hinit : soc_config_init soc = Ok cfg.

(** Identifiers handed out by a counter over the cells satisfying [p]. *)
Lemma counted_id_dense (p : noc_tile.t -> bool) (id : tile_info.t -> Z) :
  (forall n x y,
     scan (soc.rows soc) (soc.cols soc) !! n = Some (x, y) ->
     id (final_tile soc n x y) =
       if p (soc.topology soc x y) then count p (take n (cells soc)) else -1) ->
  dense_ids id (count p (cells soc)) (soc_config.tiles cfg).
Proof.
  intros Hid. split.
  - intros t ti Ht.
    destruct (resolved_tile_inv soc cfg Hinit t ti Ht) as (x & y & Hxy & ->).
    rewrite (Hid _ _ _ Hxy).
    destruct (p (soc.topology soc x y)) eqn:Hp; [right|by left].
    pose proof (count_nonneg p (take t (cells soc))).
    pose proof (count_take_lt p _ _ _ (cells_lookup soc _ _ _ Hxy) Hp). lia.
  - intros k Hk. destruct (count_hits p _ k Hk) as (n & c & Hn & Hp & Hc).
    assert (n < length (scan (soc.rows soc) (soc.cols soc)))%nat as Hlt.
    { apply lookup_lt_Some in Hn. by rewrite length_cells, <-length_scan in Hn. }
    destruct (lookup_lt_is_Some_2 _ _ Hlt) as [[x y] Hxy].
    exists n, (final_tile soc n x y).
    split; [by apply resolved_tile_lookup|].
    rewrite (Hid _ _ _ Hxy).
    rewrite (cells_lookup soc _ _ _ Hxy) in Hn. injection Hn as <-.
    by rewrite Hp.
Qed.
End ResolvedIds.

(** X5. After resolution the tile list has [rows * cols] entries and the
    tile at index [t] records row [t / cols] and column [t mod cols] (so
    [t = col + row * cols] with the coordinates inside the grid) together
    with the flags and design point declared for that grid cell. *)
Theorem X5_tile_coordinates (soc : soc.t) (cfg : soc_config.t) :
  soc_config_init soc = Ok cfg ->
  length (soc_config.tiles cfg) = (soc.rows soc * soc.cols soc)%nat /\
  soc_config.ntiles cfg = (soc.rows soc * soc.cols soc)%nat /\
  forall t ti, soc_config.tiles cfg !! t = Some ti ->
    let c := soc.topology soc (tile_info.row ti) (tile_info.col ti) in
    (tile_info.row ti < soc.rows soc)%nat /\
    (tile_info.col ti < soc.cols soc)%nat /\
    t = (tile_info.col ti + tile_info.row ti * soc.cols soc)%nat /\
    tile_info.row ti = (t / soc.cols soc)%nat /\
    tile_info.col ti = (t mod soc.cols soc)%nat /\
    tile_info.has_l2 ti = noc_tile.has_l2 c /\
    tile_info.has_tdvfs ti = noc_tile.has_tdvfs c /\
    tile_info.has_ddr ti = noc_tile.has_ddr c /\
    tile_info.design_point ti = noc_tile.point c.
Proof.
  intros Hinit.
  split; [by apply resolved_length_tiles|]. split; [by apply resolved_ntiles|].
  intros t ti Ht.
  destruct (resolved_tile_inv soc cfg Hinit t ti Ht) as (x & y & Hxy & ->).
  apply scan_lookup_inv in Hxy as (-> & Hx & Hy).
  change (tile_info.row (final_tile soc (y + x * soc.cols soc) x y)) with x.
  change (tile_info.col (final_tile soc (y + x * soc.cols soc) x y)) with y.
  cbv zeta.
  split; [done|]. split; [done|]. split; [done|].
  split; [by rewrite Nat.div_add, Nat.div_small, Nat.add_0_l by lia|].
  split; [by rewrite Nat.Div0.mod_add, Nat.mod_small by lia|]. done.
Qed.

Lemma X5_tile_coordinates_witness :
  length (soc_config.tiles (resolved soc_5rows)) = 10%nat /\
  forall ti, soc_config.tiles (resolved soc_5rows) !! 7%nat = Some ti ->
    tile_info.row ti = 3%nat /\ tile_info.col ti = 1%nat.
Proof.
  destruct (X5_tile_coordinates soc_5rows (resolved soc_5rows)
              ltac:(vm_compute; reflexivity)) as (H1 & _ & H3).
  split; [exact H1|]. intros ti Hti.
  destruct (H3 7%nat ti Hti) as (_ & _ & _ & Hr & Hc & _).
  split; [exact Hr|exact Hc].
Defined.

(** X6. A grid cell whose type is none of "cpu", "slm", "mem", "IO" and
    no accelerator name resolves to an untouched tile: its type stays
    "empty", every identifier keeps the sentinel [-1] and the cache and
    accelerator descriptors are the class defaults; only the coordinates
    and the copied flags are set. *)
Theorem X6_unknown_cell_stays_empty (soc : soc.t) (cfg : soc_config.t) t ti c :
  soc_config_init soc = Ok cfg ->
  soc_config.tiles cfg !! t = Some ti -> cells soc !! t = Some c ->
  noc_tile.ip_type c <> "cpu" -> noc_tile.ip_type c <> "slm" ->
  noc_tile.ip_type c <> "mem" -> noc_tile.ip_type c <> "IO" ->
  is_accelerator soc (noc_tile.ip_type c) = false ->
  tile_info.type ti = ty_empty /\
  tile_info.cpu_id ti = -1 /\ tile_info.mem_id ti = -1 /\
  tile_info.slm_id ti = -1 /\ tile_info.slmddr_id ti = -1 /\
  tile_info.l2 ti = cache_info.new /\ tile_info.llc ti = cache_info.new /\
  tile_info.dvfs ti = cache_info.new /\ tile_info.acc ti = acc_info.new.
Proof.
  intros Hinit Hti Hc H1 H2 H3 H4 H5.
  destruct (resolved_tile_inv soc cfg Hinit t ti Hti) as (x & y & Hxy & ->).
  rewrite (cells_lookup soc _ _ _ Hxy) in Hc. injection Hc as <-.
  apply String.eqb_neq in H1, H2, H3, H4.
  unfold final_tile, resolved_tile, sel_acc_l2, sel_acc, sel_cpu, sel_slm,
    sel_slmddr, sel_mem, sel_io. simpl.
  by rewrite H1, H2, H3, H4, H5.
Qed.

Lemma X6_unknown_cell_stays_empty_witness :
  exists ti,
    soc_config.tiles (resolved soc_scenario_a) !! 1%nat = Some ti /\
    tile_info.type ti = ty_empty /\
    tile_info.cpu_id ti = -1 /\ tile_info.mem_id ti = -1 /\
    tile_info.slm_id ti = -1 /\ tile_info.slmddr_id ti = -1 /\
    tile_info.l2 ti = cache_info.new /\ tile_info.llc ti = cache_info.new /\
    tile_info.dvfs ti = cache_info.new /\ tile_info.acc ti = acc_info.new.
Proof.
  destruct (soc_config.tiles (resolved soc_scenario_a) !! 1%nat) as [ti|] eqn:Hti;
    [|vm_compute in Hti; discriminate].
  exists ti. split; [reflexivity|].
  apply (X6_unknown_cell_stays_empty soc_scenario_a (resolved soc_scenario_a)
           1%nat ti (cell "empty"));
    [vm_compute; reflexivity|exact Hti|reflexivity|discriminate|discriminate|
     discriminate|discriminate|reflexivity].
Defined.

(** X7. After resolution the identifiers of each category are exactly
    [0 .. n-1], [n] being the number of grid cells declaring that role:
    no identifier is skipped and none lies outside the range.  A tile
    never carries more than one of the CPU, memory, SLM and SLM-with-DDR
    identifiers. *)
Theorem X7_identifiers_dense (soc : soc.t) (cfg : soc_config.t) :
  soc_config_init soc = Ok cfg ->
  dense_ids tile_info.cpu_id (count sel_cpu (cells soc)) (soc_config.tiles cfg) /\
  dense_ids tile_info.mem_id (count sel_mem (cells soc)) (soc_config.tiles cfg) /\
  dense_ids tile_info.slm_id (count sel_slm (cells soc)) (soc_config.tiles cfg) /\
  dense_ids tile_info.slmddr_id (count sel_slmddr (cells soc))
    (soc_config.tiles cfg) /\
  dense_ids acc_id (count (sel_acc soc) (cells soc)) (soc_config.tiles cfg) /\
  forall t ti, soc_config.tiles cfg !! t = Some ti ->
    (assigned [tile_info.cpu_id ti; tile_info.mem_id ti; tile_info.slm_id ti;
               tile_info.slmddr_id ti] <= 1)%nat.
Proof.
  intros Hinit.
  split; [by apply (counted_id_dense soc cfg Hinit sel_cpu)|].
  split; [by apply (counted_id_dense soc cfg Hinit sel_mem)|].
  split; [by apply (counted_id_dense soc cfg Hinit sel_slm)|].
  split; [by apply (counted_id_dense soc cfg Hinit sel_slmddr)|].
  split.
  - apply (counted_id_dense soc cfg Hinit (sel_acc soc)).
    intros n x y _. unfold acc_id, final_tile, resolved_tile, new_acc. simpl.
    by destruct (sel_acc soc _).
  - intros t ti Ht.
    destruct (resolved_tile_inv soc cfg Hinit t ti Ht) as (x & y & Hxy & ->).
    unfold final_tile, resolved_tile, assigned. simpl.
    set (c := soc.topology soc x y).
    pose proof (count_nonneg sel_cpu (take t (cells soc))).
    pose proof (count_nonneg sel_mem (take t (cells soc))).
    pose proof (count_nonneg sel_slm (take t (cells soc))).
    pose proof (count_nonneg sel_slmddr (take t (cells soc))).
    assert (forall a, 0 <= a -> negb (a =? -1) = true) as Hpos.
    { intros a Ha. by destruct (Z.eqb_spec a (-1)); [lia|]. }
    unfold sel_cpu, sel_mem, sel_slm, sel_slmddr in *.
    destruct (String.eqb_spec (noc_tile.ip_type c) "cpu") as [E|E];
      [rewrite E; simpl; rewrite Hpos by done; simpl; lia|].
    destruct (String.eqb_spec (noc_tile.ip_type c) "mem") as [E'|E'];
      [rewrite E'; simpl; rewrite Hpos by done; simpl; lia|].
    destruct (String.eqb_spec (noc_tile.ip_type c) "slm") as [E''|E''];
      [|simpl; lia].
    simpl. destruct (noc_tile.has_ddr c =? 0); simpl;
      rewrite Hpos by done; simpl; lia.
Qed.

Lemma X7_identifiers_dense_witness :
  dense_ids tile_info.cpu_id 3 (soc_config.tiles (resolved soc_5rows)).
Proof.
  exact (proj1 (X7_identifiers_dense soc_5rows (resolved soc_5rows)
                  ltac:(vm_compute; reflexivity))).
Defined.

(** ** Bus maps of [print_mapping] *)

Lemma mapM_result_fmap {A B} (f : A -> result B) (g : A -> B) l :
  (forall a, a ∈ l -> f a = Ok (g a)) -> mapM f l = Ok (g <$> l).
Proof.
  induction l as [|a l IH]; intros H; [done|].
  rewrite mapM_result_cons, (H a) by left. rewrite bind_Ok_l.
  rewrite IH by (intros b Hb; apply H; by right). done.
Qed.

Lemma mapM_result_raise {A B} (f : A -> result B) (g : A -> B) l1 a l2 e :
  (forall b, b ∈ l1 -> f b = Ok (g b)) -> f a = Raise e ->
  mapM f (l1 ++ a :: l2) = Raise e.
Proof.
  induction l1 as [|b l1 IH]; intros H Ha.
  - change ([] ++ a :: l2) with (a :: l2). by rewrite mapM_result_cons, Ha.
  - change ((b :: l1) ++ a :: l2) with (b :: (l1 ++ a :: l2)).
    rewrite mapM_result_cons, (H b) by left. rewrite bind_Ok_l.
    rewrite IH; [done| |done]. intros c Hc. apply H. by right.
Qed.

(** Reading a band [seqZ m len] at the indices [0 .. n-1]. *)
Lemma mapM_band {B} (g : Z -> Z -> B) m len n :
  0 <= len ->
  mapM (fun i => h ← py_index (seqZ m len) i; Ok (g i h)) (py_range0 n)
  = if n <=? len then Ok ((fun i => g i (m + i)) <$> py_range0 n)
    else Raise IndexError.
Proof.
  intros Hlen. destruct (Z.leb_spec n len) as [Hn|Hn].
  - apply mapM_result_fmap. intros i Hi%elem_of_py_range0.
    by rewrite py_index_seqZ by lia.
  - unfold py_range0, py_range.
    replace (n - 0) with (len + (n - len)) by lia.
    rewrite seqZ_app by lia. rewrite (seqZ_cons (0 + len)) by lia.
    apply (mapM_result_raise _ (fun i => g i (m + i))).
    + intros i Hi%elem_of_seqZ. by rewrite py_index_seqZ by lia.
    + by rewrite py_index_seqZ_ge by lia.
Qed.

Lemma emit_stepping_no_skip l acc :
  12 <= acc ->
  emit_stepping next_hindex l acc = imap (fun k i => (i, acc + Z.of_nat k)) l.
Proof.
  revert acc. induction l as [|i l IH]; intros acc Hacc; [done|]. simpl.
  f_equal; [f_equal; lia|].
  assert (next_hindex acc = acc + 1) as ->.
  { unfold next_hindex. by destruct (Z.eqb_spec (acc + 1) 12); [lia|]. }
  rewrite IH by lia. apply imap_ext. intros k j _. simpl. f_equal. lia.
Qed.

Lemma emit_stepping_no_skip_range n acc :
  12 <= acc ->
  emit_stepping next_hindex (py_range0 n) acc
  = (fun i => (i, acc + i)) <$> py_range0 n.
Proof.
  intros Hacc. rewrite emit_stepping_no_skip by done.
  unfold py_range0, py_range.
  apply list_eq. intros k. rewrite list_lookup_imap, list_lookup_fmap.
  destruct (seqZ 0 (n - 0) !! k) as [i|] eqn:E; [|done]. simpl.
  apply lookup_seqZ in E as [-> _]. by rewrite Z.add_0_l.
Qed.

Lemma skip12_high i : 12 <= i -> skip12 i = i + 1.
Proof. intros H. unfold skip12. by destruct (Z.leb_spec 12 i); [|lia]. Qed.

Lemma NoDup_fmap_range {B} (f : Z -> B) n :
  (forall i j, 0 <= i < n -> 0 <= j < n -> f i = f j -> i = j) ->
  NoDup (f <$> py_range0 n).
Proof.
  intros Hinj. apply NoDup_fmap_2_strong; [|apply NoDup_seqZ].
  intros i j Hi%elem_of_py_range0 Hj%elem_of_py_range0. by apply Hinj.
Qed.

Lemma slm_hindex_eq (cfg : soc_config.t) :
  slm_hindex cfg
    = (fun i => (i, SLM_HINDEX + i)) <$> py_range0 (soc_config.nslm cfg).
Proof. by apply emit_stepping_no_skip_range. Qed.

Lemma slmddr_hindex_eq (cfg : soc_config.t) :
  0 <= soc_config.nslm cfg ->
  slmddr_hindex cfg
    = (fun i => (i, SLM_HINDEX + soc_config.nslm cfg + i))
        <$> py_range0 (soc_config.nslmddr cfg).
Proof. intros Hn. apply emit_stepping_no_skip_range. unfold SLM_HINDEX. lia. Qed.

Lemma NoDup_app_sep (b : Z) (l k : list Z) :
  NoDup l -> NoDup k -> Forall (fun x => x < b) l -> Forall (fun x => b <= x) k ->
  NoDup (l ++ k).
Proof.
  intros Hl Hk Fl Fk. apply NoDup_app. split; [done|]. split; [|done].
  intros x Hx Hx'. rewrite Forall_forall in Fl, Fk.
  specialize (Fl x Hx). specialize (Fk x Hx'). lia.
Qed.

Lemma Forall_range (P : Z -> Prop) (f : Z -> Z) n :
  (forall i, 0 <= i < n -> P (f i)) -> Forall P (f <$> py_range0 n).
Proof.
  intros H. apply Forall_fmap, Forall_forall.
  intros i Hi%elem_of_py_range0. by apply H.
Qed.

(** X8. The SLM bus-index table assigns [20 + i] to SLM tile [i]: the
    index counter starts at 20, so its skip of index 12 never fires.  With
    a non-negative SLM count the SLM-with-DDR table continues at
    [20 + nslm + i], and no index is handed out twice across the two
    tables. *)
Theorem X8_slm_bus_indices (cfg : soc_config.t) :
  slm_hindex cfg
    = (fun i => (i, SLM_HINDEX + i)) <$> py_range0 (soc_config.nslm cfg) /\
  (0 <= soc_config.nslm cfg ->
   slmddr_hindex cfg
     = (fun i => (i, SLM_HINDEX + soc_config.nslm cfg + i))
         <$> py_range0 (soc_config.nslmddr cfg) /\
   NoDup ((slm_hindex cfg).*2 ++ (slmddr_hindex cfg).*2) /\
   forall h, h ∈ (slm_hindex cfg).*2 ++ (slmddr_hindex cfg).*2 -> 20 <= h).
Proof.
  pose proof (slm_hindex_eq cfg) as H1.
  split; [exact H1|]. intros Hn.
  pose proof (slmddr_hindex_eq cfg Hn) as H2.
  split; [exact H2|]. rewrite H1, H2, <-!list_fmap_compose. unfold SLM_HINDEX.
  split.
  - apply NoDup_app. split; [apply NoDup_fmap_range; simpl; intros; lia|].
    split; [|apply NoDup_fmap_range; simpl; intros; lia].
    intros h (i & -> & Hi%elem_of_py_range0)%list_elem_of_fmap
             (j & Hj & Hj'%elem_of_py_range0)%list_elem_of_fmap.
    simpl in Hj. lia.
  - intros h [Hh|Hh]%elem_of_app;
      apply list_elem_of_fmap in Hh as (i & -> & Hi%elem_of_py_range0);
      simpl; lia.
Qed.

Lemma X8_slm_bus_indices_witness :
  slmddr_hindex (resolved (soc_nomem ariane)) = [] /\
  slm_hindex (resolved (soc_nomem ariane)) = [(0, 20); (1, 21)].
Proof.
  destruct (X8_slm_bus_indices (resolved (soc_nomem ariane))) as [H1 H2].
  destruct (H2 ltac:(vm_compute; discriminate)) as (H3 & _).
  split; [rewrite H3; reflexivity|rewrite H1; reflexivity].
Defined.

(** X9. The memory-controller bus-index table reads [DDR_HINDEX[i]] for
    every controller: with at most 16 controllers it assigns [4 + i], all
    below the first SLM index 20; with more than 16 it raises
    [IndexError]. *)
Theorem X9_ddr_bus_indices (cfg : soc_config.t) :
  (soc_config.nmem cfg <= NMEM_MAX ->
   ddr_hindex cfg = Ok ((fun i => (i, 4 + i)) <$> py_range0 (soc_config.nmem cfg)) /\
   forall i h, (i, h) ∈ (fun i => (i, 4 + i)) <$> py_range0 (soc_config.nmem cfg) ->
     4 <= h < SLM_HINDEX) /\
  (NMEM_MAX < soc_config.nmem cfg -> ddr_hindex cfg = Raise IndexError).
Proof.
  unfold ddr_hindex, DDR_HINDEX, py_range, NMEM_MAX, SLM_HINDEX.
  replace (4 + 16 - 4) with 16 by done.
  rewrite (mapM_band (fun i h => (i, h)) 4 16) by done.
  split; intros Hn.
  - destruct (Z.leb_spec (soc_config.nmem cfg) 16); [|lia]. split; [done|].
    intros i h (j & [= -> ->] & Hj%elem_of_py_range0)%list_elem_of_fmap. lia.
  - by destruct (Z.leb_spec (soc_config.nmem cfg) 16); [lia|].
Qed.

Lemma X9_ddr_bus_indices_witness :
  ddr_hindex (resolved (soc_nmem ariane 4))
    = Ok ((fun i => (i, 4 + i)) <$> py_range0 4) /\
  ddr_hindex (init_self (soc_nmem ariane 17))
    = Raise IndexError.
Proof.
  split.
  - apply (proj1 (X9_ddr_bus_indices (resolved (soc_nmem ariane 4)))).
    vm_compute. discriminate.
  - apply (proj2 (X9_ddr_bus_indices _)). vm_compute. reflexivity.
Defined.

Section HpBus.
Variable cfg : soc_config.t.

Lemma ahbso_mig7_eq :
  soc_config.nmem cfg <= NMEM_MAX ->
  ahbso_mig7 cfg
    = Ok ((fun i => (4 + i, mig7_hconfig i)) <$> py_range0 (soc_config.nmem cfg)).
Proof.
  intros Hn. unfold ahbso_mig7, DDR_HINDEX, py_range, NMEM_MAX in *.
  replace (4 + 16 - 4) with 16 by done.
  rewrite (mapM_band (fun i h => (h, mig7_hconfig i)) 4 16) by done.
  by destruct (Z.leb_spec (soc_config.nmem cfg) 16); [|lia].
Qed.

Lemma ahbso_slm_eq :
  ahbso_slm cfg
    = (fun i => (21 + i, slm_hconfig i)) <$> py_range0 (soc_config.nslm cfg).
Proof.
  unfold ahbso_slm, SLM_HINDEX. apply list_fmap_ext.
  intros k i Hi. apply list_elem_of_lookup_2 in Hi.
  apply elem_of_py_range0 in Hi. rewrite skip12_high by lia. f_equal. lia.
Qed.

Lemma ahbso_slmddr_eq :
  0 <= soc_config.nslm cfg ->
  ahbso_slmddr cfg
    = (fun i => (21 + soc_config.nslm cfg + i, slmddr_hconfig i))
        <$> py_range0 (soc_config.nslmddr cfg).
Proof.
  intros Hn. unfold ahbso_slmddr, SLM_HINDEX. apply list_fmap_ext.
  intros k i Hi. apply list_elem_of_lookup_2 in Hi.
  apply elem_of_py_range0 in Hi. rewrite skip12_high by lia. f_equal. lia.
Qed.
End HpBus.

(** X10. With a non-negative SLM count and at most 16 memory controllers
    the HP-bus slave map [fixed_ahbso_hconfig] never uses an index twice:
    boot ROM 0, bridge 1, CLINT 2 (RISC-V only), frame buffer 3, memory
    controller [i] at [4 + i], SLM tile [i] at [21 + i] and SLM-with-DDR
    tile [i] at [21 + nslm + i].  The SLM slots are one above the entries
    [20 + i] of the [slm_hindex] table. *)
Theorem X10_hp_bus_map_no_clash (cfg : soc_config.t) :
  0 <= soc_config.nslm cfg -> soc_config.nmem cfg <= NMEM_MAX ->
  exists tbl,
    fixed_ahbso_hconfig cfg = Ok tbl /\
    NoDup tbl.*1 /\
    (forall i, 0 <= i < soc_config.nmem cfg -> (4 + i, mig7_hconfig i) ∈ tbl) /\
    (forall i, 0 <= i < soc_config.nslm cfg ->
       (table_get 0 (slm_hindex cfg) i + 1, slm_hconfig i) ∈ tbl) /\
    (forall i, 0 <= i < soc_config.nslmddr cfg ->
       (table_get 0 (slmddr_hindex cfg) i + 1, slmddr_hconfig i) ∈ tbl).
Proof.
  intros Hslm Hmem. unfold fixed_ahbso_hconfig.
  rewrite (ahbso_mig7_eq cfg Hmem), bind_Ok_l.
  rewrite ahbso_slm_eq, (ahbso_slmddr_eq cfg Hslm).
  eexists. split; [done|].
  assert (forall i, 0 <= i < soc_config.nslm cfg ->
            table_get 0 (slm_hindex cfg) i = 20 + i) as Hs.
  { intros i Hi. rewrite slm_hindex_eq.
    by rewrite (table_get_range 0 (fun i => SLM_HINDEX + i)). }
  assert (forall i, 0 <= i < soc_config.nslmddr cfg ->
            table_get 0 (slmddr_hindex cfg) i = 20 + soc_config.nslm cfg + i)
    as Hd.
  { intros i Hi. rewrite slmddr_hindex_eq by done.
    by rewrite (table_get_range 0
                  (fun i => SLM_HINDEX + soc_config.nslm cfg + i)). }
  split; [|split; [|split]].
  - set (C := if riscv (soc_config.cpu_arch cfg)
              then [(RISCV_CLINT_HINDEX, clint_hconfig)] else []).
    rewrite !fmap_app, <-!list_fmap_compose.
    change ([(AHBROM_HINDEX, ahbrom_hconfig); (AHB2APB_HINDEX, ahb2apb_hconfig)].*1)
      with [0; 1].
    change ([(FB_HINDEX, fb_hconfig)].*1) with [3].
    rewrite !app_assoc.
    apply (NoDup_Permutation_proper _ _ (Permutation_app_comm _ _)).
    rewrite <-!app_assoc.
    change ([3] ++ [0; 1] ++ C.*1 ++ ?l)
      with (([3; 0; 1] ++ C.*1) ++ l).
    apply (NoDup_app_sep 4).
    + subst C. destruct (riscv _); simpl; repeat constructor;
        rewrite ?elem_of_cons, ?elem_of_nil;
        unfold RISCV_CLINT_HINDEX; lia.
    + apply (NoDup_app_sep 21).
      * apply NoDup_fmap_range. simpl. intros. lia.
      * apply (NoDup_app_sep (21 + soc_config.nslm cfg)).
        -- apply NoDup_fmap_range. simpl. intros. lia.
        -- apply NoDup_fmap_range. simpl. intros. lia.
        -- apply Forall_range. simpl. intros. lia.
        -- apply Forall_range. simpl. intros. lia.
      * apply Forall_range. simpl. unfold NMEM_MAX in Hmem. intros. lia.
      * apply Forall_app. split; apply Forall_range; simpl; intros; lia.
    + subst C. destruct (riscv _); simpl; repeat constructor;
        unfold RISCV_CLINT_HINDEX; lia.
    + repeat (apply Forall_app; split); apply Forall_range; simpl; intros; lia.
  - intros i Hi. rewrite !elem_of_app. right. right. left.
    apply list_elem_of_fmap. exists i. split; [done|]. by apply elem_of_py_range0.
  - intros i Hi. rewrite (Hs i Hi), !elem_of_app. do 3 right. left.
    apply list_elem_of_fmap. exists i. split; [f_equal; lia|].
    by apply elem_of_py_range0.
  - intros i Hi. rewrite (Hd i Hi), !elem_of_app. do 4 right. left.
    apply list_elem_of_fmap. exists i. split; [f_equal; lia|].
    by apply elem_of_py_range0.
Qed.

Lemma X10_hp_bus_map_no_clash_witness :
  exists tbl,
    fixed_ahbso_hconfig (resolved (soc_nomem ariane)) = Ok tbl /\
    NoDup tbl.*1 /\ (21, slm_hconfig 0) ∈ tbl.
Proof.
  destruct (X10_hp_bus_map_no_clash (resolved (soc_nomem ariane))
              ltac:(vm_compute; discriminate) ltac:(vm_compute; discriminate))
    as (tbl & H1 & H2 & _ & H4 & _).
  exists tbl. split; [exact H1|]. split; [exact H2|].
  exact (H4 0 ltac:(vm_compute; split; [discriminate|reflexivity])).
Defined.

(** X11. [print_tiles] flags as remote for the I/O tile exactly the HP-bus
    indices at which [print_mapping] places the memory controllers, the
    SLM tiles and the SLM-with-DDR tiles, in the same order (for
    non-negative SLM counts and at most 16 memory controllers). *)
Theorem X11_remote_mask_matches_hp_map (cfg : soc_config.t) :
  0 <= soc_config.nslm cfg -> 0 <= soc_config.nslmddr cfg ->
  soc_config.nmem cfg <= NMEM_MAX ->
  exists mig7,
    ahbso_mig7 cfg = Ok mig7 /\
    remote_ahb_mask_misc cfg
      = Ok ((mig7 ++ ahbso_slm cfg ++ ahbso_slmddr cfg).*1).
Proof.
  intros Hslm Hddr Hmem. eexists. split; [by apply ahbso_mig7_eq|].
  unfold remote_ahb_mask_misc.
  assert (mapM (fun j => py_index DDR_HINDEX j) (py_range0 (soc_config.nmem cfg))
          = Ok ((fun i => 4 + i) <$> py_range0 (soc_config.nmem cfg))) as ->.
  { apply mapM_result_fmap. intros i Hi%elem_of_py_range0.
    unfold DDR_HINDEX, py_range, NMEM_MAX in *.
    by rewrite py_index_seqZ by lia. }
  rewrite bind_Ok_l. f_equal.
  rewrite !fmap_app, <-!list_fmap_compose. f_equal.
  unfold ahbso_slm, ahbso_slmddr, py_range0, py_range.
  rewrite !Z.sub_0_r, seqZ_app, fmap_app by lia.
  rewrite <-!list_fmap_compose. f_equal.
  replace (0 + soc_config.nslm cfg) with (soc_config.nslm cfg + 0) by lia.
  rewrite <-(fmap_add_seqZ (soc_config.nslm cfg) 0), <-list_fmap_compose.
  apply list_fmap_ext. intros k i _. simpl. f_equal. lia.
Qed.

Lemma X11_remote_mask_matches_hp_map_witness :
  exists mig7,
    ahbso_mig7 (resolved (soc_nomem ariane)) = Ok mig7 /\
    remote_ahb_mask_misc (resolved (soc_nomem ariane))
      = Ok ((mig7 ++ ahbso_slm (resolved (soc_nomem ariane))
                  ++ ahbso_slmddr (resolved (soc_nomem ariane))).*1).
Proof.
  apply (X11_remote_mask_matches_hp_map (resolved (soc_nomem ariane)));
    vm_compute; discriminate.
Defined.

(** X12. Tile [i] gets the CSR bus index [40 + i] and the register window
    at [0x900 + 2 i] with mask [0xffe]: the windows are aligned to the
    mask, pairwise distinct and stay below [0xB00].  More than 256 tiles
    exhaust [CSR_PINDEX] and raise [IndexError]. *)
Theorem X12_tile_csr_windows (cfg : soc_config.t) :
  ((soc_config.ntiles cfg <= 256)%nat ->
   csr_t cfg
     = Ok ((fun i => (40 + i, 0x900 + 2 * i, 0xffe))
             <$> py_range0 (Z.of_nat (soc_config.ntiles cfg))) /\
   forall tbl, csr_t cfg = Ok tbl ->
     NoDup tbl.*1.*1 /\ NoDup tbl.*1.*2 /\
     forall pindex paddr pmask, (pindex, paddr, pmask) ∈ tbl ->
       Z.land paddr (Z.lnot pmask) = 0 /\ 0x900 <= paddr < 0xB00) /\
  ((256 < soc_config.ntiles cfg)%nat -> csr_t cfg = Raise IndexError).
Proof.
  unfold csr_t, CSR_PINDEX, py_range, NTILE_MAX.
  replace (40 + 256 - 40) with 256 by done.
  rewrite (mapM_band
             (fun i h => (h, CSR_APB_ADDR + i * csr_apb_size, CSR_APB_ADDR_MSK))
             40 256) by done.
  split; intros Hn.
  - destruct (Z.leb_spec (Z.of_nat (soc_config.ntiles cfg)) 256); [|lia].
    assert ((fun i => (40 + i, CSR_APB_ADDR + i * csr_apb_size, CSR_APB_ADDR_MSK))
              <$> py_range0 (Z.of_nat (soc_config.ntiles cfg))
            = (fun i => (40 + i, 0x900 + 2 * i, 0xffe))
                <$> py_range0 (Z.of_nat (soc_config.ntiles cfg))) as ->.
    { apply list_fmap_ext. intros k i _.
      unfold CSR_APB_ADDR, csr_apb_size, CSR_APB_ADDR_MSK.
      change (Z.land (Z.lnot 4094) 4095 + 1) with 2. f_equal. f_equal. lia. }
    split; [done|]. intros tbl [= <-].
    rewrite <-!list_fmap_compose.
    split; [apply NoDup_fmap_range; simpl; intros; lia|].
    split; [apply NoDup_fmap_range; simpl; intros; lia|].
    intros pindex paddr pmask
      (i & [= -> -> ->] & Hi%elem_of_py_range0)%list_elem_of_fmap.
    split; [|lia].
    change 4094 with (mask12 (2 ^ 1)).
    apply mask12_pow2_aligned; [lia|lia|].
    change (2 ^ 1) with 2. apply Z.mod_divide; [done|]. exists (1152 + i). lia.
  - by destruct (Z.leb_spec (Z.of_nat (soc_config.ntiles cfg)) 256); [lia|].
Qed.

Lemma X12_tile_csr_windows_witness :
  csr_t (resolved (soc_nomem ariane))
    = Ok ((fun i => (40 + i, 0x900 + 2 * i, 0xffe)) <$> py_range0 4).
Proof.
  apply (proj1 (X12_tile_csr_windows (resolved (soc_nomem ariane)))).
  vm_compute. lia.
Defined.

(** ** Tables over the tile list *)

Section DmaTables.
Variable soc : soc.t.
Variable cfg : soc_config.t.
Hypothesis Hinit : soc_config_init soc = Ok cfg.

Lemma acc_id_final n x y :
  acc_id (final_tile soc n x y) =
    if sel_acc soc (soc.topology soc x y)
    then count (sel_acc soc) (take n (cells soc)) else -1.
Proof.
  unfold acc_id, final_tile, resolved_tile, new_acc. simpl.
  by destruct (sel_acc soc _).
Qed.

Lemma acc_id_inj n m t u :
  soc_config.tiles cfg !! n = Some t -> soc_config.tiles cfg !! m = Some u ->
  acc_id t <> -1 -> acc_id t = acc_id u -> n = m.
Proof.
  apply (counted_id_inj soc cfg Hinit (sel_acc soc)).
  intros k x y _. apply acc_id_final.
Qed.

Lemma acc_id_bound n t :
  soc_config.tiles cfg !! n = Some t ->
  acc_id t = -1 \/ 0 <= acc_id t < count (sel_acc soc) (cells soc).
Proof.
  apply (counted_id_dense soc cfg Hinit (sel_acc soc)).
  intros k x y _. apply acc_id_final.
Qed.
End DmaTables.

(** X13. When the accelerator count reported for the topology is the
    number of accelerator cells and the tile designated as I/O tile is not
    an accelerator tile, the DMA tables [tile_dma_id] and [dma_tile_id] are
    mutual inverses on their entries: every accelerator tile maps to its
    accelerator identifier and back, and the extra identifier [nacc]
    stands for the I/O tile (Ethernet) in both directions. *)
Theorem X13_dma_tables_inverse (soc : soc.t) (cfg : soc_config.t) :
  soc_config_init soc = Ok cfg ->
  soc.get_acc_num soc = count (sel_acc soc) (cells soc) ->
  (forall t, soc_config.tiles cfg !! misc_id (enum (soc_config.tiles cfg)) = Some t ->
             acc_id t = -1) ->
  let ts := enum (soc_config.tiles cfg) in
  let fwd := tile_dma_id cfg ts in
  let bwd := dma_tile_id cfg ts in
  (forall i v, (i, v) ∈ fwd ->
     table_get (-1) fwd i = v /\ table_get 0 bwd v = i) /\
  (forall v i, (v, i) ∈ bwd ->
     table_get 0 bwd v = i /\ table_get (-1) fwd i = v) /\
  (io_tile_id ts, soc_config.nacc cfg) ∈ fwd /\
  (soc_config.nacc cfg, io_tile_id ts) ∈ bwd.
Proof.
  intros Hinit Hnacc Hio ts fwd bwd.
  assert (soc_config.nacc cfg = count (sel_acc soc) (cells soc)) as Hn.
  { rewrite <-Hnacc.
    exact (f_equal soc_config.nacc (resolved_frozen soc cfg Hinit)). }
  assert (forall i v, (i, v) ∈ fwd <->
            (exists n t, soc_config.tiles cfg !! n = Some t /\ acc_id t <> -1 /\
                         i = Z.of_nat n /\ v = acc_id t) \/
            (i = io_tile_id ts /\ v = soc_config.nacc cfg)) as Hfwd.
  { intros i v. unfold fwd, tile_dma_id, ts.
    rewrite elem_of_app, elem_of_xref_tile_id, list_elem_of_singleton.
    setoid_rewrite elem_of_enum. split; (intros [H|H]; [by left|right]).
    - by injection H as -> ->.
    - by destruct H as [-> ->]. }
  assert (forall v i, (v, i) ∈ bwd <->
            (exists n t, soc_config.tiles cfg !! n = Some t /\ acc_id t <> -1 /\
                         i = Z.of_nat n /\ v = acc_id t) \/
            (i = io_tile_id ts /\ v = soc_config.nacc cfg)) as Hbwd.
  { intros v i. unfold bwd, dma_tile_id, ts.
    rewrite elem_of_app, elem_of_xref_id_tile, list_elem_of_singleton.
    setoid_rewrite elem_of_enum. unfold has_id. split.
    - intros [(n & t & Ht & Hs & -> & ->)|H].
      + left. exists n, t. split; [done|]. split; [|done].
        by destruct (Z.eqb_spec (acc_id t) (-1)).
      + right. by injection H as -> ->.
    - intros [(n & t & Ht & Hs & -> & ->)|[-> ->]]; [left|by right].
      exists n, t. split; [done|]. split; [|done].
      by destruct (Z.eqb_spec (acc_id t) (-1)).  }
  assert (forall i v v', (i, v) ∈ fwd -> (i, v') ∈ fwd -> v = v') as Ffwd.
  { intros i v v' [(n & t & Ht & Hne & -> & ->)|[-> ->]]%Hfwd
                  [(n' & t' & Ht' & Hne' & Hi & ->)|[Hi ->]]%Hfwd.
    - apply Nat2Z.inj in Hi as <-. congruence.
    - unfold io_tile_id in Hi. apply Nat2Z.inj in Hi as ->.
      rewrite (Hio t Ht) in Hne. done.
    - unfold io_tile_id in Hi. apply Nat2Z.inj in Hi as <-.
      rewrite (Hio t' Ht') in Hne'. done.
    - done. }
  assert (forall v i i', (v, i) ∈ bwd -> (v, i') ∈ bwd -> i = i') as Fbwd.
  { intros v i i' [(n & t & Ht & Hne & -> & ->)|[-> ->]]%Hbwd
                  [(n' & t' & Ht' & Hne' & -> & Hv)|[-> Hv]]%Hbwd.
    - f_equal. by apply (acc_id_inj soc cfg Hinit n n' t t').
    - destruct (acc_id_bound soc cfg Hinit n t Ht); lia.
    - destruct (acc_id_bound soc cfg Hinit n' t' Ht'); lia.
    - done. }
  split; [|split; [|split]].
  - intros i v Hin. split.
    + apply table_get_functional; [|done]. intros v' Hv'. by apply (Ffwd i).
    + assert ((v, i) ∈ bwd) as Hin' by (by apply Hbwd, Hfwd).
      apply table_get_functional; [|done]. intros i' Hi'. by apply (Fbwd v).
  - intros v i Hin. split.
    + apply table_get_functional; [|done]. intros i' Hi'. by apply (Fbwd v).
    + assert ((i, v) ∈ fwd) as Hin' by (by apply Hfwd, Hbwd).
      apply table_get_functional; [|done]. intros v' Hv'. by apply (Ffwd i).
  - apply Hfwd. by right.
  - apply Hbwd. by right.
Qed.

Lemma X13_dma_tables_inverse_witness :
  table_get 0 (dma_tile_id (resolved (soc_mixed ariane))
                 (enum (soc_config.tiles (resolved (soc_mixed ariane))))) 2 = 3 /\
  table_get (-1) (tile_dma_id (resolved (soc_mixed ariane))
                    (enum (soc_config.tiles (resolved (soc_mixed ariane))))) 3 = 2.
Proof.
  destruct (X13_dma_tables_inverse (soc_mixed ariane) (resolved (soc_mixed ariane))
              ltac:(vm_compute; reflexivity) ltac:(vm_compute; reflexivity))
    as (_ & H2 & _ & H4).
  { intros t Ht. vm_compute in Ht. injection Ht as <-. reflexivity. }
  destruct (H2 _ _ H4) as [Ha Hb].
  split; [exact Ha|exact Hb].
Defined.

Lemma tiles_with_fmap {A} (p : tile_info.t -> bool) (f : tile_info.t -> A) l :
  tiles_with p f l = f <$> tiles_with p (fun t => t) l.
Proof.
  induction l as [|t l IH]; [done|]. unfold tiles_with in *.
  rewrite !bind_cons, fmap_app, <-IH. by destruct (p t).
Qed.

Lemma bind_enum {B} (g : tile_info.t -> list B) (p : tile_info.t -> bool)
    (l : list tile_info.t) :
  (it ← enum l; if p it.2 then g it.2 else []) = tiles_with p (fun t => t) l ≫= g.
Proof.
  induction l as [|t l IH] using rev_ind; [done|].
  rewrite enum_snoc, tiles_with_app, !bind_app, IH. f_equal.
  unfold tiles_with. rewrite !bind_cons. simpl.
  destruct (p t); simpl; by rewrite ?app_nil_r.
Qed.

Lemma tiles_with_ext {A} (p q : tile_info.t -> bool) (f : tile_info.t -> A) l :
  (forall n t, l !! n = Some t -> p t = q t) ->
  tiles_with p f l = tiles_with q f l.
Proof.
  induction l as [|t l IH]; intros H; [done|]. unfold tiles_with in *.
  rewrite !bind_cons, (H 0%nat t eq_refl), IH; [done|].
  intros n u Hn. by apply (H (S n)).
Qed.

(** Writing every element followed by a separator, except the one whose
    identifier is the last, separates the elements when the identifiers
    come in order. *)
Lemma separated_by_last {T A} (id : T -> Z) (f : T -> A) (sep : A) (L : list T) s n :
  id <$> L = seqZ s (n - s) ->
  L ≫= (fun t => f t :: (if negb (id t =? n - 1) then [sep] else []))
  = separated sep (f <$> L).
Proof.
  revert s. induction L as [|t L IH]; intros s Hid; [done|].
  assert (0 < n - s) as Hpos.
  { destruct (Z.lt_ge_cases 0 (n - s)); [done|].
    rewrite seqZ_nil in Hid by lia. done. }
  rewrite seqZ_cons in Hid by done. injection Hid as Ht HL.
  replace (Z.pred (n - s)) with (n - Z.succ s) in HL by lia.
  rewrite bind_cons, (IH _ HL), Ht.
  destruct L as [|t' L].
  - simpl in HL. destruct (Z.lt_ge_cases 0 (n - Z.succ s)) as [H|H].
    + rewrite seqZ_cons in HL by done. done.
    + destruct (Z.eqb_spec s (n - 1)); [done|lia].
  - destruct (Z.lt_ge_cases 0 (n - Z.succ s)) as [H|H].
    + destruct (Z.eqb_spec s (n - 1)); [lia|done].
    + rewrite seqZ_nil in HL by lia. done.
Qed.

Section IdsInOrder.
Variable soc : soc.t.
Variable cfg : soc_config.t.
Hypothesis Hinit : soc_config_init soc = Ok cfg.

(** Identifiers handed out by a counter come in tile order. *)
Lemma counted_ids_in_order (p : noc_tile.t -> bool) (id : tile_info.t -> Z) :
  (forall n x y,
     scan (soc.rows soc) (soc.cols soc) !! n = Some (x, y) ->
     id (final_tile soc n x y) =
       if p (soc.topology soc x y) then count p (take n (cells soc)) else -1) ->
  tiles_with (has_id id) id (soc_config.tiles cfg) = seqZ 0 (count p (cells soc)).
Proof.
  intros Hid.
  assert (forall k, (k <= soc.rows soc * soc.cols soc)%nat ->
            tiles_with (has_id id) id (take k (soc_config.tiles cfg))
            = seqZ 0 (count p (take k (cells soc)))) as H.
  { induction k as [|k IH]; intros Hk; [done|].
    destruct (lookup_lt_is_Some_2 (scan (soc.rows soc) (soc.cols soc)) k)
      as [[x y] Hxy]; [rewrite length_scan; lia|].
    rewrite (take_S_r _ _ _ (resolved_tile_lookup soc cfg Hinit _ _ _ Hxy)).
    rewrite (take_cells_S soc _ _ _ Hxy), tiles_with_app, IH, count_snoc by lia.
    pose proof (count_nonneg p (take k (cells soc))).
    unfold tiles_with. rewrite bind_cons. change ([] ≫= _) with (@nil Z).
    rewrite app_nil_r.
    unfold has_id. rewrite (Hid _ _ _ Hxy).
    destruct (p (soc.topology soc x y)).
    - destruct (Z.eqb_spec (count p (take k (cells soc))) (-1)); [lia|]. simpl.
      by rewrite seqZ_app by lia.
    - simpl. by rewrite Z.add_0_r, app_nil_r. }
  specialize (H (soc.rows soc * soc.cols soc)%nat ltac:(lia)).
  by rewrite !take_ge in H
    by (rewrite ?length_cells, ?(resolved_length_tiles soc cfg Hinit); lia).
Qed.

Lemma mem_type_iff_id n t :
  is_accelerator soc "mem" = false ->
  soc_config.tiles cfg !! n = Some t ->
  is_type ty_mem t = has_id tile_info.mem_id t.
Proof.
  intros Hname Ht.
  destruct (resolved_tile_inv soc cfg Hinit n t Ht) as (x & y & Hxy & ->).
  unfold is_type, has_id, final_tile, resolved_tile. simpl.
  pose proof (count_nonneg sel_mem (take n (cells soc))).
  destruct (sel_mem (soc.topology soc x y)) eqn:Hmem.
  - assert (sel_io (soc.topology soc x y) = false /\
            sel_acc soc (soc.topology soc x y) = is_accelerator soc "mem")
      as [-> ->].
    { unfold sel_mem, sel_io, sel_acc in *.
      apply String.eqb_eq in Hmem. by rewrite Hmem. }
    rewrite Hname. simpl.
    by destruct (Z.eqb_spec (count sel_mem (take n (cells soc))) (-1)); [lia|].
  - simpl. by repeat case_match.
Qed.
End IdsInOrder.

(** X14. When "cpu" and "mem" are not accelerator names and the CPU and
    memory counts reported for the topology are those of the grid, the
    initialisers [cpu_locs] and [mem_locs] written by
    [print_soc_locations] list the coordinates of the CPU (memory) tiles
    in tile order with a separator between consecutive entries and none
    after the last. *)
Theorem X14_soc_locations_separated (soc : soc.t) (cfg : soc_config.t) :
  soc_config_init soc = Ok cfg ->
  is_accelerator soc "cpu" = false -> is_accelerator soc "mem" = false ->
  soc.get_cpu_num soc = count sel_cpu (cells soc) ->
  soc.get_mem_num soc = count sel_mem (cells soc) ->
  cpu_locs cfg (enum (soc_config.tiles cfg))
    = separated loc_sep
        (tiles_with (is_type ty_cpu)
           (fun t => loc_yx (tile_info.row t) (tile_info.col t))
           (soc_config.tiles cfg)) /\
  mem_locs cfg (enum (soc_config.tiles cfg))
    = separated loc_sep
        (tiles_with (is_type ty_mem)
           (fun t => loc_yx (tile_info.row t) (tile_info.col t))
           (soc_config.tiles cfg)).
Proof.
  intros Hinit Hcpu Hmem Hncpu Hnmem.
  pose proof (f_equal soc_config.ncpu (resolved_frozen soc cfg Hinit)) as En.
  pose proof (f_equal soc_config.nmem (resolved_frozen soc cfg Hinit)) as Em.
  simpl in En, Em. split.
  - unfold cpu_locs.
    rewrite (bind_enum
               (fun t => loc_yx (tile_info.row t) (tile_info.col t)
                         :: (if negb (tile_info.cpu_id t =? soc_config.ncpu cfg - 1)
                             then [loc_sep] else []))).
    rewrite (tiles_with_fmap _ (fun t => loc_yx _ _)).
    apply (separated_by_last tile_info.cpu_id _ _ _ 0).
    rewrite <-tiles_with_fmap, Z.sub_0_r, En, Hncpu.
    rewrite (tiles_with_ext _ (has_id tile_info.cpu_id))
      by (intros n t Ht; by eapply cpu_type_iff_id).
    by apply (counted_ids_in_order soc cfg Hinit sel_cpu).
  - unfold mem_locs.
    rewrite (bind_enum
               (fun t => loc_yx (tile_info.row t) (tile_info.col t)
                         :: (if negb (tile_info.mem_id t =? soc_config.nmem cfg - 1)
                             then [loc_sep] else []))).
    rewrite (tiles_with_fmap _ (fun t => loc_yx _ _)).
    apply (separated_by_last tile_info.mem_id _ _ _ 0).
    rewrite <-tiles_with_fmap, Z.sub_0_r, Em, Hnmem.
    rewrite (tiles_with_ext _ (has_id tile_info.mem_id))
      by (intros n t Ht; by eapply mem_type_iff_id).
    by apply (counted_ids_in_order soc cfg Hinit sel_mem).
Qed.

Lemma X14_soc_locations_separated_witness :
  cpu_locs (resolved soc_5rows) (enum (soc_config.tiles (resolved soc_5rows)))
    = [loc_yx 0 0; loc_sep; loc_yx 2 1; loc_sep; loc_yx 4 0].
Proof.
  rewrite (proj1 (X14_soc_locations_separated soc_5rows (resolved soc_5rows)
                    ltac:(vm_compute; reflexivity) eq_refl eq_refl
                    eq_refl eq_refl)).
  vm_compute. reflexivity.
Defined.

(** *** The soft-reset sequence *)

Lemma sep_before_app {A} (sep : A) l1 l2 :
  sep_before sep (l1 ++ l2) = sep_before sep l1 ++ sep_before sep l2.
Proof. apply bind_app. Qed.

Lemma separated_drop {A} (sep : A) l :
  separated sep l = drop 1 (sep_before sep l).
Proof.
  induction l as [|a l IH]; [done|].
  destruct l as [|b l]; [done|].
  change (separated sep (a :: b :: l)) with (a :: sep :: separated sep (b :: l)).
  rewrite IH. done.
Qed.

Lemma fold_srst_mem l st :
  fold_left srst_mem l st
  = (st.1 && forallb (fun it => negb (is_type ty_mem it.2)) l,
     st.2 ++ drop (if st.1 then 1 else 0)
               (sep_before srst_sep (srst_tile <$> indices_of (is_type ty_mem) l))).
Proof.
  revert st. induction l as [|it l IH]; intros [first out].
  - simpl. rewrite andb_true_r. destruct first; by rewrite app_nil_r.
  - cbn [fold_left]. rewrite IH. unfold srst_mem.
    unfold indices_of. rewrite bind_cons. fold (indices_of (is_type ty_mem) l).
    cbn [forallb]. destruct (is_type ty_mem it.2); simpl.
    + rewrite andb_false_r. f_equal. destruct first; simpl.
      * by rewrite <-app_assoc.
      * by rewrite <-app_assoc.
    + done.
Qed.

Lemma fold_srst_cpu l st :
  fold_left srst_cpu l st
  = (st.1 && forallb (fun it => negb (is_type ty_cpu it.2)) l,
     st.2 ++ (if st.1 then srst_prefix l else [])
          ++ drop (if st.1 then 1 else 0)
               (sep_before srst_sep (srst_tile <$> indices_of (is_type ty_cpu) l))).
Proof.
  revert st. induction l as [|it l IH]; intros [first out].
  - simpl. rewrite andb_true_r. destruct first; by rewrite app_nil_r.
  - cbn [fold_left]. rewrite IH. unfold srst_cpu.
    unfold indices_of, srst_prefix. rewrite !bind_cons.
    fold (indices_of (is_type ty_cpu) l).
    cbn [forallb]. destruct (is_type ty_cpu it.2); simpl.
    + rewrite andb_false_r. f_equal. destruct first; simpl.
      * by rewrite <-!app_assoc.
      * by rewrite <-app_assoc.
    + done.
Qed.

Lemma indices_of_nil p l :
  forallb (fun it => negb (p it.2)) l = true -> indices_of p l = [].
Proof.
  induction l as [|it l IH]; [done|]. cbn [forallb].
  intros [H1 H2]%andb_true_iff. unfold indices_of in *. rewrite bind_cons.
  apply negb_true_iff in H1. rewrite H1. by apply IH.
Qed.

Lemma indices_of_cons p l :
  forallb (fun it => negb (p it.2)) l = false -> indices_of p l <> [].
Proof.
  induction l as [|it l IH]; [done|]. cbn [forallb].
  unfold indices_of in *. rewrite bind_cons.
  destruct (p it.2); simpl; [done|]. apply IH.
Qed.

(** The sequence for any tile list: memory tiles, then CPU tiles. *)
Lemma esp_srst_sequence_eq ts :
  esp_srst_sequence ts
  = (if forallb (fun it => negb (is_type ty_mem it.2)) (rev ts)
     then srst_prefix (rev ts) else [])
    ++ separated srst_sep
         (srst_tile <$> (tiles_desc (is_type ty_mem) ts
                         ++ tiles_desc (is_type ty_cpu) ts)).
Proof.
  unfold esp_srst_sequence. rewrite fold_srst_mem, fold_srst_cpu. simpl.
  change (tiles_desc ?p ts) with (indices_of p (rev ts)).
  rewrite separated_drop, fmap_app, sep_before_app.
  destruct (forallb _ (rev ts)) eqn:E.
  - by rewrite (indices_of_nil _ _ E).
  - apply indices_of_cons in E.
    destruct (indices_of (is_type ty_mem) (rev ts)) as [|i l]; [done|].
    done.
Qed.

Lemma selected_pairs (p : tile_info.t -> bool) (l : list (nat * tile_info.t)) :
  indices_of p l = (it ← l; if p it.2 then [it] else []).*1 /\
  (it ← l; if p it.2 then [it.2] else [])
    = (it ← l; if p it.2 then [it] else []).*2.
Proof.
  unfold indices_of. induction l as [|it l [IH1 IH2]]; [done|].
  rewrite !bind_cons, !fmap_app, <-IH1, <-IH2. by destruct (p it.2).
Qed.

(** X15. When "cpu" is not an accelerator name, the soft-reset sequence
    lists every memory tile and then every CPU tile, each group from the
    highest tile index down, with a separator between consecutive entries;
    the named association [0 =>] is written in front exactly when the
    sequence consists of a single CPU tile. *)
Theorem X15_srst_sequence (soc : soc.t) (cfg : soc_config.t) :
  soc_config_init soc = Ok cfg ->
  is_accelerator soc "cpu" = false ->
  let ts := enum (soc_config.tiles cfg) in
  let mems := tiles_desc (is_type ty_mem) ts in
  let cpus := tiles_desc (is_type ty_cpu) ts in
  esp_srst_sequence ts
    = (match mems, cpus with [], [_] => [srst_named0] | _, _ => [] end)
      ++ separated srst_sep (srst_tile <$> (mems ++ cpus)) /\
  StronglySorted (fun a b => (b < a)%nat) mems /\
  StronglySorted (fun a b => (b < a)%nat) cpus /\
  (forall i, i ∈ mems <->
     exists t, soc_config.tiles cfg !! i = Some t /\ tile_info.type t = ty_mem) /\
  (forall i, i ∈ cpus <->
     exists t, soc_config.tiles cfg !! i = Some t /\ tile_info.type t = ty_cpu).
Proof.
  intros Hinit Hname ts mems cpus.
  assert (forall ty i, i ∈ tiles_desc (is_type ty) ts <->
            exists t, soc_config.tiles cfg !! i = Some t /\ tile_info.type t = ty)
    as Hmem.
  { intros ty i. unfold tiles_desc, ts. rewrite elem_of_desc_select.
    unfold is_type. by setoid_rewrite bool_decide_eq_true. }
  assert (StronglySorted (fun a b => (b < a)%nat) cpus) as Hsorted
    by apply desc_select_sorted.
  split; [|split; [apply desc_select_sorted|split; [done|split; apply Hmem]]].
  rewrite esp_srst_sequence_eq. fold mems cpus. f_equal.
  destruct (forallb _ (rev ts)) eqn:E.
  2:{ apply indices_of_cons in E.
      change (indices_of (is_type ty_mem) (rev ts)) with mems in E.
      by destruct mems. }
  apply indices_of_nil in E.
  change (indices_of (is_type ty_mem) (rev ts)) with mems in E. rewrite E.
  destruct (selected_pairs (is_type ty_cpu) (rev ts)) as [H1 H2].
  change (indices_of (is_type ty_cpu) (rev ts)) with cpus in H1.
  unfold srst_prefix. rewrite H2.
  assert (forall it, it ∈ (it ← rev ts; if is_type ty_cpu it.2 then [it] else []) ->
            soc_config.tiles cfg !! it.1 = Some it.2 /\
            tile_info.type it.2 = ty_cpu) as Hin.
  { intros it (it' & Hit & Hts)%list_elem_of_bind.
    destruct (is_type ty_cpu it'.2) eqn:Ety; [|by apply elem_of_nil in Hit].
    apply list_elem_of_singleton in Hit as ->.
    apply bool_decide_eq_true in Ety. split; [|done].
    apply list_elem_of_In, in_rev, list_elem_of_In in Hts.
    destruct it' as [i t]. by apply elem_of_enum in Hts. }
  destruct (it ← rev ts; if is_type ty_cpu it.2 then [it] else [])
    as [|[i t] P] eqn:EP; [by rewrite H1|].
  rewrite H1 in *. cbn [fmap list_fmap fst snd] in *.
  destruct (Hin (i, t) ltac:(left)) as [Hi Hty]. simpl in Hi, Hty.
  assert (has_id tile_info.cpu_id t = true) as Hid.
  { rewrite <-(cpu_type_iff_id soc cfg Hinit i t Hname Hi).
    by apply bool_decide_eq_true. }
  destruct (resolved_tile_inv soc cfg Hinit i t Hi) as (x & y & Hxy & Et).
  assert (tile_info.cpu_id t =
          if sel_cpu (soc.topology soc x y)
          then count sel_cpu (take i (cells soc)) else -1) as Ecpu
    by (by rewrite Et).
  unfold has_id in Hid. rewrite Ecpu in Hid.
  destruct (sel_cpu (soc.topology soc x y)) eqn:Esel; [|done].
  destruct P as [|[j u] P].
  - (* a single CPU tile: it hosts CPU 0 *)
    simpl.
    destruct (proj2 (counted_id_dense soc cfg Hinit sel_cpu tile_info.cpu_id
                       ltac:(done)) 0) as (k & v & Hk & Hv).
    { pose proof (count_take_lt sel_cpu _ _ _ (cells_lookup soc _ _ _ Hxy) Esel).
      pose proof (count_nonneg sel_cpu (take i (cells soc))). lia. }
    assert (tile_info.type v = ty_cpu) as Hvty.
    { apply (bool_decide_eq_true_1 (tile_info.type v = ty_cpu)).
      change (is_type ty_cpu v = true).
      rewrite (cpu_type_iff_id soc cfg Hinit k v Hname Hk).
      unfold has_id. by rewrite Hv. }
    assert (k ∈ cpus) as Hkin by (apply Hmem; by exists v).
    rewrite H1 in Hkin. cbn [fmap list_fmap] in Hkin.
    apply list_elem_of_singleton in Hkin as ->.
    rewrite Hi in Hk. injection Hk as <-. by rewrite Hv.
  - (* a CPU tile with a lower index exists: the first is not CPU 0 *)
    simpl.
    destruct (Hin (j, u) ltac:(right; left)) as [Hj Hjty]. simpl in Hj, Hjty.
    assert (j < i)%nat as Hlt.
    { cbn [fmap list_fmap fst] in Hsorted.
      apply StronglySorted_inv in Hsorted as [_ Hall].
      by apply Forall_inv in Hall. }
    destruct (resolved_tile_inv soc cfg Hinit j u Hj) as (xj & yj & Hxyj & Eu).
    rewrite Eu in Hjty. apply final_tile_type_cpu in Hjty as [Hselj _].
    pose proof (count_take_strict sel_cpu _ _ _ _ Hlt
                  (cells_lookup soc _ _ _ Hxyj) Hselj).
    pose proof (count_nonneg sel_cpu (take j (cells soc))).
    rewrite Ecpu. by destruct (Z.eqb_spec (count sel_cpu (take i (cells soc))) 0);
      [lia|].
Qed.

Lemma X15_srst_sequence_witness :
  esp_srst_sequence (enum (soc_config.tiles (resolved soc_scenario_a)))
    = [srst_tile 15; srst_sep; srst_tile 0] /\
  esp_srst_sequence (enum (soc_config.tiles (resolved (soc_nomem ariane))))
    = [srst_named0; srst_tile 0].
Proof.
  split.
  - rewrite (proj1 (X15_srst_sequence soc_scenario_a (resolved soc_scenario_a)
                      ltac:(vm_compute; reflexivity) eq_refl)).
    vm_compute. reflexivity.
  - rewrite (proj1 (X15_srst_sequence (soc_nomem ariane) (resolved (soc_nomem ariane))
                      ltac:(vm_compute; reflexivity) eq_refl)).
    vm_compute. reflexivity.
Defined.

(** ** Coordinate vectors of [print_tiles] *)

Lemma mapM_outcome_cons {A B} (f : A -> outcome B) a l :
  mapM f (a :: l) = (y ← f a; k ← mapM f l; Returned (y :: k)).
Proof. reflexivity. Qed.

Lemma mapM_outcome_fmap {A B} (f : A -> outcome B) (g : A -> B) l :
  (forall a, a ∈ l -> f a = Returned (g a)) -> mapM f l = Returned (g <$> l).
Proof.
  induction l as [|a l IH]; intros H; [done|].
  rewrite mapM_outcome_cons, (H a) by left.
  rewrite IH by (intros b Hb; apply H; by right). done.
Qed.

Lemma yx_width_cases coh dma : yx_width coh dma = 3 \/ yx_width coh dma = 4.
Proof. unfold yx_width. destruct (_ || _); [by left|by right]. Qed.

(** What [uint_to_bin] returns, or the empty string when it raises. *)
Lemma coordinate_vector (f : tile_info.t -> nat) (tiles : list tile_info.t) bits :
  1 <= bits ->
  exists v,
    mapM (fun it : nat * tile_info.t =>
            s ← uint_to_bin (Z.of_nat (f it.2)) bits; Returned (it.1, s))
      (enum tiles) = Returned v /\
    length v = length tiles /\
    forall i t, tiles !! i = Some t ->
      exists s, v !! i = Some (i, s) /\
                String.length s = Z.to_nat bits /\
                bin_value s = Z.of_nat (f t) mod 2 ^ bits.
Proof.
  intros Hb.
  set (g := fun it : nat * tile_info.t =>
              (it.1, match uint_to_bin (Z.of_nat (f it.2)) bits with
                     | Returned s => s
                     | Threw _ => ""%string
                     end)).
  exists (g <$> enum tiles). split; [|split].
  - apply mapM_outcome_fmap. intros [i t] _. unfold g. simpl.
    by destruct (uint_to_bin_ok (Z.of_nat (f t)) bits Hb) as (s & -> & _).
  - unfold enum. by rewrite length_fmap, length_imap.
  - intros i t Ht.
    destruct (uint_to_bin_ok (Z.of_nat (f t)) bits Hb) as (s & Hs & Hlen & _ & Hv).
    exists s. split; [|done].
    rewrite list_lookup_fmap, enum_lookup, Ht. simpl. unfold g. simpl.
    by rewrite Hs.
Qed.

(** X16. [print_tiles] writes for every tile its column ([tile_x]) and
    row ([tile_y]) as a binary string of 3 bits when one of the NoC widths
    is 32 and of 4 bits otherwise.  The string of tile [i] reads back as
    [(i mod cols) mod 2^bits], resp. [(i / cols) mod 2^bits]: it is the
    coordinate itself when the grid has at most [2^bits] columns (rows),
    and a wrapped value, without any error, on a larger grid. *)
Theorem X16_tile_coordinate_strings (soc : soc.t) (cfg : soc_config.t)
    (coh_noc_width dma_noc_width : Z) :
  soc_config_init soc = Ok cfg ->
  let bits := yx_width coh_noc_width dma_noc_width in
  exists xs ys,
    tile_x (enum (soc_config.tiles cfg)) bits = Returned xs /\
    tile_y (enum (soc_config.tiles cfg)) bits = Returned ys /\
    length xs = (soc.rows soc * soc.cols soc)%nat /\
    length ys = (soc.rows soc * soc.cols soc)%nat /\
    forall i, (i < soc.rows soc * soc.cols soc)%nat ->
      exists sx sy,
        xs !! i = Some (i, sx) /\ ys !! i = Some (i, sy) /\
        String.length sx = Z.to_nat bits /\ String.length sy = Z.to_nat bits /\
        bin_value sx = Z.of_nat (i mod soc.cols soc) mod 2 ^ bits /\
        bin_value sy = Z.of_nat (i / soc.cols soc) mod 2 ^ bits /\
        (Z.of_nat (soc.cols soc) <= 2 ^ bits ->
         bin_value sx = Z.of_nat (i mod soc.cols soc)) /\
        (Z.of_nat (soc.rows soc) <= 2 ^ bits ->
         bin_value sy = Z.of_nat (i / soc.cols soc)).
Proof.
  intros Hinit bits.
  assert (1 <= bits) as Hb
    by (destruct (yx_width_cases coh_noc_width dma_noc_width); unfold bits; lia).
  destruct (coordinate_vector tile_info.col (soc_config.tiles cfg) bits Hb)
    as (xs & Hxs & Lx & Px).
  destruct (coordinate_vector tile_info.row (soc_config.tiles cfg) bits Hb)
    as (ys & Hys & Ly & Py).
  exists xs, ys. split; [exact Hxs|]. split; [exact Hys|].
  rewrite (resolved_length_tiles soc cfg Hinit) in Lx, Ly.
  split; [done|]. split; [done|]. intros i Hi.
  destruct (lookup_lt_is_Some_2 (soc_config.tiles cfg) i) as [t Ht];
    [by rewrite (resolved_length_tiles soc cfg Hinit)|].
  destruct (Px i t Ht) as (sx & Hsx & Lsx & Vx).
  destruct (Py i t Ht) as (sy & Hsy & Lsy & Vy).
  destruct (resolved_tile_inv soc cfg Hinit i t Ht) as (x & y & Hxy & ->).
  apply scan_lookup_inv in Hxy as (-> & Hx & Hy).
  change (tile_info.col (final_tile soc (y + x * soc.cols soc) x y)) with y in Vx.
  change (tile_info.row (final_tile soc (y + x * soc.cols soc) x y)) with x in Vy.
  rewrite Nat.div_add, Nat.div_small, Nat.add_0_l by lia.
  rewrite Nat.Div0.mod_add, Nat.mod_small by lia.
  exists sx, sy. split; [done|]. split; [done|]. split; [done|]. split; [done|].
  split; [done|]. split; [done|]. split.
  - intros Hc. rewrite Vx. apply Z.mod_small. lia.
  - intros Hr. rewrite Vy. apply Z.mod_small. lia.
Qed.

Lemma X16_tile_coordinate_strings_witness :
  exists xs ys,
    tile_x (enum (soc_config.tiles (resolved soc_5rows))) (yx_width 32 64)
      = Returned xs /\
    tile_y (enum (soc_config.tiles (resolved soc_5rows))) (yx_width 32 64)
      = Returned ys /\
    xs !! 9%nat = Some (9%nat, "001"%string) /\
    ys !! 9%nat = Some (9%nat, "100"%string).
Proof.
  destruct (X16_tile_coordinate_strings soc_5rows (resolved soc_5rows) 32 64
              ltac:(vm_compute; reflexivity)) as (xs & ys & Hx & Hy & _).
  exists xs, ys. split; [exact Hx|]. split; [exact Hy|].
  vm_compute in Hx, Hy. injection Hx as <-. injection Hy as <-.
  split; reflexivity.
Defined.

(** ** The I/O-bus slave map *)

Lemma py_index_lookup {A} (l : list A) n a :
  l !! n = Some a -> py_index l (Z.of_nat n) = Ok a.
Proof.
  intros H. pose proof (lookup_lt_Some _ _ _ H) as Hlt. unfold py_index.
  destruct (Z.leb_spec 0 (Z.of_nat n)); [|lia].
  destruct (Z.leb_spec 0 (Z.of_nat n)); [|lia].
  destruct (Z.ltb_spec (Z.of_nat n) (Z.of_nat (length l))); [|lia]. simpl.
  by rewrite Nat2Z.id, H.
Qed.

Lemma mapM_result_app {A B} (f : A -> result B) l1 l2 :
  mapM f (l1 ++ l2) = (a ← mapM f l1; b ← mapM f l2; Ok (a ++ b)).
Proof.
  induction l1 as [|x l1 IH].
  - simpl. by destruct (mapM f l2).
  - change ((x :: l1) ++ l2) with (x :: (l1 ++ l2)).
    rewrite !mapM_result_cons, IH.
    destruct (f x); [|done]. rewrite !bind_Ok_l.
    destruct (mapM f l1); [|done]. rewrite !bind_Ok_l.
    by destruct (mapM f l2).
Qed.

Lemma py_range0_to_nat c : py_range0 c = py_range0 (Z.of_nat (Z.to_nat c)).
Proof.
  unfold py_range0, py_range. destruct (Z.le_gt_cases 0 c).
  - by rewrite Z2Nat.id.
  - rewrite !seqZ_nil by lia. done.
Qed.

(** [for i in range(0, n): a = l[i]; ...] with [n] within the list. *)
Lemma mapM_py_index {A B} (l : list A) (g : Z -> A -> B) c :
  c <= Z.of_nat (length l) ->
  mapM (fun i => a ← py_index l i; Ok (g i a)) (py_range0 c)
  = Ok (imap (fun k a => g (Z.of_nat k) a) (take (Z.to_nat c) l)).
Proof.
  intros Hc. rewrite py_range0_to_nat.
  assert (Z.to_nat c <= length l)%nat as Hn by lia.
  clear Hc. induction (Z.to_nat c) as [|n IH]; [done|].
  unfold py_range0, py_range in *. rewrite Z.sub_0_r in *.
  rewrite seqZ_S, mapM_result_app, IH by lia. rewrite bind_Ok_l.
  destruct (lookup_lt_is_Some_2 l n ltac:(lia)) as [a Ha].
  rewrite mapM_result_cons, Z.add_0_l, (py_index_lookup l n a Ha).
  simpl. rewrite (take_S_r _ _ _ Ha), imap_app. simpl.
  rewrite length_take, Nat.min_l, Nat.add_0_r by lia. done.
Qed.

Lemma NoDup_app_by (P : Z -> Prop) (l k : list Z) :
  NoDup l -> NoDup k -> Forall P l -> Forall (fun x => ~ P x) k ->
  NoDup (l ++ k).
Proof.
  intros Hl Hk Fl Fk. apply NoDup_app. split; [done|]. split; [|done].
  intros x Hx Hx'. rewrite Forall_forall in Fl, Fk.
  by apply (Fk x Hx'), Fl.
Qed.

Lemma Forall_band (P : Z -> Prop) (d n : Z) :
  (forall i, 0 <= i < n -> P (d + i)) -> Forall P ((fun k => d + k) <$> seqZ 0 n).
Proof.
  intros H. apply Forall_fmap, Forall_forall.
  intros i Hi%elem_of_seqZ. apply H. lia.
Qed.

Lemma NoDup_band (d n : Z) : NoDup ((fun k => d + k) <$> seqZ 0 n).
Proof.
  apply NoDup_fmap_2_strong; [|apply NoDup_seqZ]. intros i j _ _ H. lia.
Qed.

Section ApbKeys.
Variable soc : soc.t.
Variable cfg : soc_config.t.
Hypothesis Hinit : soc_config_init soc = Ok cfg.

Lemma resolved_apbo_dvfs : apbo_dvfs cfg = Ok [].
Proof. unfold apbo_dvfs. by rewrite (resolved_ndvfs soc cfg Hinit). Qed.

Lemma resolved_apbo_l2 :
  exists l2, apbo_l2 cfg = Ok l2 /\
    (concat l2).*1
      = (fun k => 8 + k)
          <$> seqZ 0 (if coherent soc then count sel_cpu (cells soc) else 0) /\
    forall k, 0 <= k < (if coherent soc then count sel_cpu (cells soc) else 0) ->
      (8 + k, l2_cache_pconfig k) ∈ concat l2.
Proof.
  destruct (resolved_nl2 soc cfg Hinit) as [Hlen _].
  set (h := fun l2 : cache_info.t =>
              if negb (cache_info.idx l2 =? -1)
              then [(cache_info.idx l2, l2_cache_pconfig (cache_info.id l2))]
              else []).
  assert (forall l : list cache_info.t,
            l ≫= h = (fun c => (cache_info.idx c, l2_cache_pconfig (cache_info.id c)))
                       <$> List.filter on_io_bus l) as Hbind.
  { induction l as [|c l IH]; [done|]. rewrite bind_cons, IH. simpl.
    unfold h, on_io_bus. by destruct (negb _). }
  eexists. split.
  - unfold apbo_l2.
    rewrite (mapM_py_index _ (fun _ l2 => h l2)) by lia. done.
  - rewrite <-Hlen, Nat2Z.id, firstn_all.
    change (imap (fun _ a => h a) (soc_config.l2s cfg))
      with (imap (const h) (soc_config.l2s cfg)).
    rewrite imap_const.
    assert (forall l : list cache_info.t, concat (h <$> l) = l ≫= h) as ->.
    { induction l as [|c l IH]; [done|]. rewrite fmap_cons, bind_cons, <-IH.
      done. }
    rewrite Hbind, (resolved_l2s_on_bus soc cfg Hinit), <-!list_fmap_compose.
    split; [done|]. intros k Hk. apply list_elem_of_fmap. exists k.
    split; [done|]. apply elem_of_seqZ. lia.
Qed.

Lemma resolved_apbo_llc :
  soc.get_mem_num soc <= count sel_mem (cells soc) ->
  exists llc, apbo_llc cfg = Ok llc /\ NoDup llc.*1 /\
              Forall (fun k => 24 <= k < 40) llc.*1.
Proof.
  intros Hmem.
  pose proof (resolved_llcs soc cfg Hinit) as Hl.
  pose proof (f_equal soc_config.nllc (resolved_frozen soc cfg Hinit)) as Hn.
  simpl in Hn.
  pose proof (resolved_within_bands soc cfg Hinit) as Hw.
  pose proof (count_nonneg sel_mem (cells soc)) as Hnn.
  assert (soc_config.nllc cfg <= Z.of_nat (length (soc_config.llcs cfg))) as Hle.
  { rewrite Hl, length_fmap, length_seqZ, Hn.
    change (negb (soc.cache_en soc =? 0)) with (coherent soc).
    destruct (coherent soc); lia. }
  eexists. split; [unfold apbo_llc; by rewrite mapM_py_index by done|].
  rewrite fmap_imap.
  change (imap _ ?l) with (imap (const cache_info.idx) l).
  rewrite imap_const, fmap_take, Hl, <-list_fmap_compose.
  split.
  - eapply sublist_NoDup; [apply (NoDup_band 24)|apply sublist_take].
  - apply Forall_take, (Forall_band _ 24). intros i Hi.
    unfold within_bands in Hw. destruct (coherent soc); simpl in Hw; [|lia].
    apply andb_true_iff in Hw as [_ Hw%Z.leb_le]. lia.
Qed.

Lemma resolved_apbo_csr :
  (soc.rows soc * soc.cols soc <= 256)%nat ->
  apbo_csr cfg
    = Ok ((fun i => (40 + i, csr_t_pconfig i))
            <$> py_range0 (Z.of_nat (soc.rows soc * soc.cols soc))).
Proof.
  intros Hn. unfold apbo_csr, CSR_PINDEX, py_range, NTILE_MAX.
  rewrite (resolved_ntiles soc cfg Hinit).
  replace (40 + 256 - 40) with 256 by done.
  rewrite (mapM_band (fun i h => (h, csr_t_pconfig i)) 40 256) by done.
  by destruct (Z.leb_spec (Z.of_nat (soc.rows soc * soc.cols soc)) 256); [|lia].
Qed.

Lemma resolved_apbo_acc :
  soc.get_acc_num soc <= count (sel_acc soc) (cells soc) ->
  exists acc, apbo_acc cfg = Ok acc /\ NoDup acc.*1 /\
              Forall (fun k => 296 <= k) acc.*1.
Proof.
  intros Hacc.
  pose proof (resolved_accelerators_len soc cfg Hinit) as Hlen.
  pose proof (f_equal soc_config.nacc (resolved_frozen soc cfg Hinit)) as Hn.
  simpl in Hn.
  eexists. split; [unfold apbo_acc; by rewrite mapM_py_index by lia|].
  rewrite fmap_imap.
  change (imap _ ?l) with (imap (const acc_info.idx) l).
  rewrite imap_const, fmap_take.
  assert (acc_info.idx <$> soc_config.accelerators cfg
          = (fun k => 296 + k)
              <$> seqZ 0 (Z.of_nat (length (soc_config.accelerators cfg)))) as ->.
  { apply list_eq. intros k. rewrite !list_lookup_fmap.
    destruct (soc_config.accelerators cfg !! k) as [a|] eqn:Ha; simpl.
    - destruct (resolved_accelerators_ok soc cfg Hinit k a Ha) as (_ & -> & _).
      rewrite lookup_seqZ_lt by (apply lookup_lt_Some in Ha; lia). done.
    - rewrite lookup_seqZ_ge; [done|]. apply lookup_ge_None in Ha. lia. }
  split.
  - eapply sublist_NoDup; [apply (NoDup_band 296)|apply sublist_take].
  - apply Forall_take, (Forall_band _ 296). intros. lia.
Qed.
End ApbKeys.

(** X17. For a resolved configuration of at most 256 tiles whose reported
    memory and accelerator counts do not exceed what the grid declares,
    the I/O-bus slave map [fixed_apbo_pconfig] is produced without error
    and never uses a bus index twice; index 0 is not used, the private
    cache of CPU [k] sits at [8 + k] and the CSRs of tile [i] at
    [40 + i]. *)
Theorem X17_io_bus_map_no_clash (soc : soc.t) (cfg : soc_config.t)
    (has_svga has_eth has_sgmii : bool) :
  soc_config_init soc = Ok cfg ->
  (soc.rows soc * soc.cols soc <= 256)%nat ->
  soc.get_mem_num soc <= count sel_mem (cells soc) ->
  soc.get_acc_num soc <= count (sel_acc soc) (cells soc) ->
  exists tbl,
    fixed_apbo_pconfig cfg has_svga has_eth has_sgmii = Ok tbl /\
    NoDup tbl.*1 /\
    Forall (fun k => 1 <= k) tbl.*1 /\
    (forall k, 0 <= k < (if coherent soc then count sel_cpu (cells soc) else 0) ->
       (8 + k, l2_cache_pconfig k) ∈ tbl) /\
    (forall i, 0 <= i < Z.of_nat (soc.rows soc * soc.cols soc) ->
       (40 + i, csr_t_pconfig i) ∈ tbl).
Proof.
  intros Hinit Hn Hmem Hacc.
  destruct (resolved_apbo_l2 soc cfg Hinit) as (l2 & E2 & K2 & M2).
  destruct (resolved_apbo_llc soc cfg Hinit Hmem) as (llc & E3 & N3 & F3).
  destruct (resolved_apbo_acc soc cfg Hinit Hacc) as (acc & E5 & N5 & F5).
  unfold fixed_apbo_pconfig.
  rewrite (resolved_apbo_dvfs soc cfg Hinit), E2, E3,
    (resolved_apbo_csr soc cfg Hinit Hn), E5. simpl.
  eexists. split; [done|].
  set (ncpu := if coherent soc then count sel_cpu (cells soc) else 0) in *.
  assert (ncpu <= 16) as Hcpu.
  { pose proof (resolved_within_bands soc cfg Hinit) as Hw.
    unfold within_bands in Hw. subst ncpu.
    destruct (coherent soc); simpl in Hw; [|lia].
    by apply andb_true_iff in Hw as [Hw%Z.leb_le _]. }
  assert (forall k, k ∈ (apbo_eth has_svga has_eth has_sgmii).*1 -> 5 <= k <= 7)
    as He.
  { intros k. unfold apbo_eth.
    destruct has_svga, has_eth, has_sgmii; simpl;
      rewrite ?elem_of_cons, ?elem_of_nil; lia. }
  assert (NoDup (apbo_eth has_svga has_eth has_sgmii).*1) as Ne.
  { unfold apbo_eth. destruct has_svga, has_eth, has_sgmii; simpl;
      repeat constructor; rewrite ?elem_of_cons, ?elem_of_nil; lia. }
  assert (Forall (fun k => 5 <= k <= 7) (apbo_eth has_svga has_eth has_sgmii).*1)
    as Fe by (by apply Forall_forall).
  set (csr := (fun i => (40 + i, csr_t_pconfig i))
                <$> py_range0 (Z.of_nat (soc.rows soc * soc.cols soc))) in *.
  assert (csr.*1 = (fun k => 40 + k)
                     <$> seqZ 0 (Z.of_nat (soc.rows soc * soc.cols soc))) as Kc.
  { subst csr. rewrite <-list_fmap_compose. unfold py_range0, py_range.
    by rewrite Z.sub_0_r. }
  split; [|split; [|split]].
  - rewrite !fmap_cons, !fmap_app, K2, Kc. cbn [fst].
    match goal with |- context [1 :: 2 :: 3 :: 4 :: ?r] =>
      change (1 :: 2 :: 3 :: 4 :: r) with ([1; 2; 3; 4] ++ r) end.
    apply (NoDup_app_by (fun x => x <= 4)).
    { repeat constructor; rewrite ?elem_of_cons, ?elem_of_nil; lia. }
    2:{ repeat constructor; lia. }
    2:{ repeat (apply Forall_app; split).
        - apply (Forall_band _ 8). intros. lia.
        - eapply Forall_impl; [exact F3|]. simpl. intros. lia.
        - eapply Forall_impl; [exact Fe|]. simpl. intros. lia.
        - apply (Forall_band _ 40). intros. lia.
        - eapply Forall_impl; [exact F5|]. simpl. intros. lia. }
    apply (NoDup_app_by (fun x => 8 <= x < 24)).
    { apply (NoDup_band 8). }
    2:{ apply (Forall_band _ 8). intros. lia. }
    2:{ repeat (apply Forall_app; split).
        - eapply Forall_impl; [exact F3|]. simpl. intros. lia.
        - eapply Forall_impl; [exact Fe|]. simpl. intros. lia.
        - apply (Forall_band _ 40). intros. lia.
        - eapply Forall_impl; [exact F5|]. simpl. intros. lia. }
    apply (NoDup_app_by (fun x => 24 <= x < 40)); [done| |done|].
    2:{ repeat (apply Forall_app; split).
        - eapply Forall_impl; [exact Fe|]. simpl. intros. lia.
        - apply (Forall_band _ 40). intros. lia.
        - eapply Forall_impl; [exact F5|]. simpl. intros. lia. }
    apply (NoDup_app_by (fun x => 5 <= x <= 7)); [done| |done|].
    2:{ repeat (apply Forall_app; split).
        - apply (Forall_band _ 40). intros. lia.
        - eapply Forall_impl; [exact F5|]. simpl. intros. lia. }
    apply (NoDup_app_by (fun x => x < 296)); [apply (NoDup_band 40)|done| |].
    + apply (Forall_band _ 40). intros. lia.
    + eapply Forall_impl; [exact F5|]. simpl. intros. lia.
  - rewrite !fmap_cons, !fmap_app, K2, Kc. cbn [fst].
    match goal with |- context [1 :: 2 :: 3 :: 4 :: ?r] =>
      change (1 :: 2 :: 3 :: 4 :: r) with ([1; 2; 3; 4] ++ r) end.
    repeat (apply Forall_app; split).
    + repeat constructor; lia.
    + apply (Forall_band _ 8). intros. lia.
    + eapply Forall_impl; [exact F3|]. simpl. intros. lia.
    + eapply Forall_impl; [exact Fe|]. simpl. intros. lia.
    + apply (Forall_band _ 40). intros. lia.
    + eapply Forall_impl; [exact F5|]. simpl. intros. lia.
  - intros k Hk. do 4 (apply elem_of_cons; right).
    rewrite !elem_of_app. left. by apply M2.
  - intros i Hi. do 4 (apply elem_of_cons; right).
    rewrite !elem_of_app. do 3 right. left. subst csr.
    apply list_elem_of_fmap. exists i. split; [done|]. by apply elem_of_py_range0.
Qed.

Lemma X17_io_bus_map_no_clash_witness :
  exists tbl,
    fixed_apbo_pconfig (resolved (soc_mixed ariane)) true true false = Ok tbl /\
    NoDup tbl.*1 /\ (8, l2_cache_pconfig 0) ∈ tbl.
Proof.
  destruct (X17_io_bus_map_no_clash (soc_mixed ariane) (resolved (soc_mixed ariane))
              true true false ltac:(vm_compute; reflexivity)
              ltac:(vm_compute; lia) ltac:(vm_compute; discriminate)
              ltac:(vm_compute; discriminate))
    as (tbl & H1 & H2 & _ & H4 & _).
  exists tbl. split; [exact H1|]. split; [exact H2|].
  exact (H4 0 ltac:(vm_compute; split; [discriminate|reflexivity])).
Defined.

(** ** The table from I/O-bus index to tile *)

Lemma NoDup_enum l : NoDup (enum l).
Proof.
  apply NoDup_alt. intros i j [n t] Hi Hj. unfold enum in *.
  apply list_lookup_imap_Some in Hi as (a & Ha & [= <- <-]).
  by apply list_lookup_imap_Some in Hj as (b & Hb & [= <- _]).
Qed.

Section ApbTile.
Variable soc : soc.t.
Variable cfg : soc_config.t.
Hypothesis Hinit : soc_config_init soc = Ok cfg.

Lemma cpu_id_final n x y :
  tile_info.cpu_id (final_tile soc n x y) =
    if sel_cpu (soc.topology soc x y)
    then count sel_cpu (take n (cells soc)) else -1.
Proof. unfold final_tile, resolved_tile. simpl. by destruct (sel_cpu _). Qed.

(** What the loop body writes for tile [n]: at most one entry, in the
    band of the tile's kind. *)
Lemma apb_tile_of_cases n t k v :
  soc_config.tiles cfg !! n = Some t ->
  (k, v) ∈ apb_tile_of cfg (n, t) ->
  v = Z.of_nat n /\
  ((is_type ty_acc t = true /\ k = 296 + acc_id t /\ 0 <= acc_id t) \/
   (is_type ty_mem t = true /\ coherent soc = true /\
    k = 24 + llc_id t /\ 0 <= llc_id t < 16) \/
   (is_type ty_cpu t = true /\ coherent soc = true /\
    k = 8 + tile_info.cpu_id t /\ 0 <= tile_info.cpu_id t < 16)).
Proof.
  intros Ht.
  destruct (resolved_tile_inv soc cfg Hinit n t Ht) as (x & y & Hxy & ->).
  pose proof (cells_lookup soc _ _ _ Hxy) as Hc.
  pose proof (resolved_within_bands soc cfg Hinit) as Hw.
  unfold apb_tile_of. rewrite (resolved_coherence soc cfg Hinit).
  unfold is_type, acc_id, llc_id, final_tile, resolved_tile, new_acc,
    within_bands in *. simpl.
  change (negb (soc.cache_en soc =? 0)) with (coherent soc) in *.
  pose proof (count_nonneg (sel_acc soc) (take n (cells soc))).
  pose proof (count_nonneg sel_mem (take n (cells soc))).
  pose proof (count_nonneg sel_cpu (take n (cells soc))).
  destruct (sel_acc soc (soc.topology soc x y)) eqn:A; simpl.
  { rewrite elem_of_cons, elem_of_nil. intros [[= -> ->]|[]].
    split; [done|]. left. unfold SLD_APB_PINDEX, NTILE_MAX. split; [done|]. lia. }
  destruct (sel_io (soc.topology soc x y)) eqn:I; simpl.
  { by rewrite elem_of_nil. }
  destruct (sel_mem (soc.topology soc x y)) eqn:M; simpl.
  { destruct (coherent soc) eqn:Coh; simpl; [|by rewrite elem_of_nil].
    rewrite elem_of_cons, elem_of_nil. intros [[= -> ->]|[]].
    split; [done|]. right. left.
    apply andb_true_iff in Hw as [_ Hw%Z.leb_le].
    pose proof (count_take_lt sel_mem _ _ _ Hc M). repeat split; lia. }
  destruct (sel_slmddr (soc.topology soc x y)) eqn:SD; simpl.
  { by rewrite elem_of_nil. }
  destruct (sel_slm (soc.topology soc x y)) eqn:S; simpl.
  { by rewrite elem_of_nil. }
  destruct (sel_cpu (soc.topology soc x y)) eqn:C; simpl.
  { destruct (coherent soc) eqn:Coh; simpl; [|by rewrite elem_of_nil].
    assert (sel_acc_l2 soc (soc.topology soc x y) = false) as ->.
    { unfold sel_acc_l2. by rewrite A. }
    simpl. rewrite elem_of_cons, elem_of_nil. intros [[= -> ->]|[]].
    split; [done|]. right. right.
    apply andb_true_iff in Hw as [Hw%Z.leb_le _].
    pose proof (count_take_lt sel_cpu _ _ _ Hc C). repeat split; lia. }
  by rewrite elem_of_nil.
Qed.

Lemma apb_tile_of_inj n m t u k v w :
  soc_config.tiles cfg !! n = Some t -> soc_config.tiles cfg !! m = Some u ->
  (k, v) ∈ apb_tile_of cfg (n, t) -> (k, w) ∈ apb_tile_of cfg (m, u) -> n = m.
Proof.
  intros Ht Hu Hv Hw.
  destruct (apb_tile_of_cases n t k v Ht Hv)
    as (_ & [(_ & K & B)|[(_ & _ & K & B)|(_ & _ & K & B)]]);
    destruct (apb_tile_of_cases m u k w Hu Hw)
      as (_ & [(_ & K' & B')|[(_ & _ & K' & B')|(_ & _ & K' & B')]]);
    try lia.
  - apply (acc_id_inj soc cfg Hinit n m t u Ht Hu); lia.
  - apply (llc_id_inj soc cfg Hinit n m t u Ht Hu); lia.
  - apply (counted_id_inj soc cfg Hinit sel_cpu tile_info.cpu_id
             (fun i x y _ => cpu_id_final i x y) n m t u Ht Hu); lia.
Qed.

Lemma apb_tile_of_NoDup it : NoDup (apb_tile_of cfg it).*1.
Proof.
  unfold apb_tile_of, is_type.
  destruct (tile_info.type it.2), (soc_config.coherence cfg);
    rewrite ?bool_decide_eq_true_2, ?bool_decide_eq_false_2 by done; simpl;
    repeat constructor; apply not_elem_of_nil.
Qed.

Lemma apb_tiles_NoDup :
  NoDup (enum (soc_config.tiles cfg) ≫= apb_tile_of cfg).*1.
Proof.
  assert (forall l : list (nat * tile_info.t),
            (l ≫= apb_tile_of cfg).*1 = l ≫= (fun it => (apb_tile_of cfg it).*1))
    as ->.
  { induction l as [|it l IH]; [done|]. by rewrite !bind_cons, fmap_app, IH. }
  apply NoDup_bind; [| |apply NoDup_enum].
  - intros [n t] [m u] k Ht%elem_of_enum Hu%elem_of_enum.
    intros ([k1 v] & -> & Hv)%list_elem_of_fmap ([k2 w] & E & Hw)%list_elem_of_fmap.
    simpl in E. subst k2.
    pose proof (apb_tile_of_inj n m t u k1 v w Ht Hu Hv Hw) as ->.
    rewrite Ht in Hu. by injection Hu as ->.
  - intros it _. apply apb_tile_of_NoDup.
Qed.

Lemma apb_tiles_bands :
  Forall (fun k => 8 <= k < 40 \/ 296 <= k)
    (enum (soc_config.tiles cfg) ≫= apb_tile_of cfg).*1.
Proof.
  apply Forall_forall. intros k ([k' v] & -> & Hin)%list_elem_of_fmap.
  apply list_elem_of_bind in Hin as ([n t] & Hv & Ht%elem_of_enum). simpl.
  destruct (apb_tile_of_cases n t k' v Ht Hv)
    as (_ & [(_ & K & B)|[(_ & _ & K & B)|(_ & _ & K & B)]]); lia.
Qed.
End ApbTile.

Lemma table_get_NoDup d (tbl : table) k v :
  NoDup tbl.*1 -> (k, v) ∈ tbl -> table_get d tbl k = v.
Proof.
  intros Hnd Hin. apply table_get_functional; [|done].
  intros v' Hin'. induction tbl as [|[k0 v0] tbl IH]; [by apply elem_of_nil in Hin|].
  rewrite fmap_cons in Hnd. apply NoDup_cons in Hnd as [Hk0 Hnd].
  apply elem_of_cons in Hin as [Hin|Hin];
    apply elem_of_cons in Hin' as [Hin'|Hin'].
  - congruence.
  - destruct Hk0. injection Hin as <- <-. simpl.
    apply list_elem_of_fmap. by exists (k, v').
  - destruct Hk0. injection Hin' as <- <-. simpl.
    apply list_elem_of_fmap. by exists (k, v).
  - by apply IH.
Qed.

(** X18. For a resolved configuration of at most 256 tiles the table
    [apb_tile_id] is written without error and gives every I/O-bus index
    at most one tile.  Looked up in it, the CSR index [40 + n] and the
    bus index of the accelerator, of the LLC split or of the private
    cache of tile [n] yield [n]; the ESPLink index 4 has no entry. *)
Theorem X18_apb_tile_id (soc : soc.t) (cfg : soc_config.t)
    (has_svga has_eth has_sgmii : bool) :
  soc_config_init soc = Ok cfg ->
  (soc.rows soc * soc.cols soc <= 256)%nat ->
  exists tbl,
    apb_tile_id cfg (enum (soc_config.tiles cfg)) has_svga has_eth has_sgmii
      = Ok tbl /\
    NoDup tbl.*1 /\
    (4 ∉ tbl.*1) /\
    forall n t, soc_config.tiles cfg !! n = Some t ->
      table_get 0 tbl (40 + Z.of_nat n) = Z.of_nat n /\
      (is_type ty_acc t = true ->
         table_get 0 tbl (acc_info.idx (tile_info.acc t)) = Z.of_nat n) /\
      (soc_config.coherence cfg = true -> is_type ty_mem t = true ->
         table_get 0 tbl (cache_info.idx (tile_info.llc t)) = Z.of_nat n) /\
      (soc_config.coherence cfg = true -> is_type ty_cpu t = true ->
         table_get 0 tbl (cache_info.idx (tile_info.l2 t)) = Z.of_nat n).
Proof.
  intros Hinit Hn.
  set (ts := enum (soc_config.tiles cfg)).
  set (io := io_tile_id ts).
  assert (mapM (fun i => pindex ← py_index CSR_PINDEX i; Ok (pindex, i))
            (py_range0 (Z.of_nat (soc_config.ntiles cfg)))
          = Ok ((fun i => (40 + i, i))
                  <$> py_range0 (Z.of_nat (soc.rows soc * soc.cols soc)))) as Hcsr.
  { unfold CSR_PINDEX, py_range, NTILE_MAX.
    rewrite (resolved_ntiles soc cfg Hinit).
    replace (40 + 256 - 40) with 256 by done.
    rewrite (mapM_band (fun i h => (h, i)) 40 256) by done.
    by destruct (Z.leb_spec (Z.of_nat (soc.rows soc * soc.cols soc)) 256); [|lia]. }
  unfold apb_tile_id. fold ts. fold io. rewrite Hcsr.
  change (py_range 0 4) with [0; 1; 2; 3]. simpl.
  eexists. split; [reflexivity|].
  set (sv := if has_svga then [(5, io)] else []).
  set (eth := if has_eth
              then (6, io) :: (if has_sgmii then [(7, io)] else []) else []).
  set (csr := (fun i => (40 + i, i))
                <$> py_range0 (Z.of_nat (soc.rows soc * soc.cols soc))).
  set (tl := ts ≫= apb_tile_of cfg).
  assert (csr.*1 = (fun k => 40 + k)
                     <$> seqZ 0 (Z.of_nat (soc.rows soc * soc.cols soc))) as Kc.
  { subst csr. rewrite <-list_fmap_compose. unfold py_range0, py_range.
    by rewrite Z.sub_0_r. }
  assert (Forall (fun k => k = 5) sv.*1 /\ NoDup sv.*1) as [Fs Ns].
  { subst sv. destruct has_svga; simpl; split; repeat constructor.
    apply not_elem_of_nil. }
  assert (Forall (fun k => 6 <= k <= 7) eth.*1 /\ NoDup eth.*1) as [Fe Ne].
  { subst eth. destruct has_eth, has_sgmii; simpl; split; repeat constructor;
      rewrite ?elem_of_cons, ?elem_of_nil; lia. }
  pose proof (apb_tiles_NoDup soc cfg Hinit) as Nt.
  pose proof (apb_tiles_bands soc cfg Hinit) as Ft.
  fold ts in Nt, Ft. fold tl in Nt, Ft.
  assert (Forall (fun k => 40 <= k < 296) csr.*1) as Fc.
  { rewrite Kc. apply (Forall_band _ 40). intros. lia. }
  assert (((0, io) :: (1, io) :: (2, io) :: (3, io)
             :: sv ++ eth ++ csr ++ tl).*1
          = [0; 1; 2; 3] ++ sv.*1 ++ eth.*1 ++ csr.*1 ++ tl.*1) as Keys.
  { by rewrite !fmap_cons, !fmap_app. }
  assert (NoDup ([0; 1; 2; 3] ++ sv.*1 ++ eth.*1 ++ csr.*1 ++ tl.*1)) as Nd.
  { apply (NoDup_app_by (fun x => x <= 3)).
    { repeat constructor; rewrite ?elem_of_cons, ?elem_of_nil; lia. }
    2:{ repeat constructor; lia. }
    2:{ repeat (apply Forall_app; split).
        - eapply Forall_impl; [exact Fs|]. simpl. intros. lia.
        - eapply Forall_impl; [exact Fe|]. simpl. intros. lia.
        - eapply Forall_impl; [exact Fc|]. simpl. intros. lia.
        - eapply Forall_impl; [exact Ft|]. simpl. intros. lia. }
    apply (NoDup_app_by (fun x => x = 5)); [done| |done|].
    2:{ repeat (apply Forall_app; split).
        - eapply Forall_impl; [exact Fe|]. simpl. intros. lia.
        - eapply Forall_impl; [exact Fc|]. simpl. intros. lia.
        - eapply Forall_impl; [exact Ft|]. simpl. intros. lia. }
    apply (NoDup_app_by (fun x => 6 <= x <= 7)); [done| |done|].
    2:{ repeat (apply Forall_app; split).
        - eapply Forall_impl; [exact Fc|]. simpl. intros. lia.
        - eapply Forall_impl; [exact Ft|]. simpl. intros. lia. }
    apply (NoDup_app_by (fun x => 40 <= x < 296)); [|done|done|].
    - rewrite Kc. apply (NoDup_band 40).
    - eapply Forall_impl; [exact Ft|]. simpl. intros. lia. }
  rewrite Keys. split; [exact Nd|]. split.
  - rewrite !elem_of_app. rewrite Forall_forall in Fs, Fe, Fc, Ft.
    intros [H|[H|[H|[H|H]]]].
    + revert H. rewrite !elem_of_cons, elem_of_nil. lia.
    + specialize (Fs _ H). lia.
    + specialize (Fe _ H). simpl in Fe. lia.
    + specialize (Fc _ H). simpl in Fc. lia.
    + specialize (Ft _ H). simpl in Ft. lia.
  - intros n t Ht. rewrite <-Keys in Nd.
    assert (forall k, (k, Z.of_nat n) ∈ apb_tile_of cfg (n, t) ->
              table_get 0 ((0, io) :: (1, io) :: (2, io) :: (3, io)
                             :: sv ++ eth ++ csr ++ tl) k = Z.of_nat n) as Hget.
    { intros k Hk. apply table_get_NoDup; [done|].
      do 4 (apply elem_of_cons; right).
      rewrite !elem_of_app. do 3 right. subst tl.
      apply list_elem_of_bind. exists (n, t). split; [done|].
      by apply elem_of_enum. }
    split; [|split; [|split]].
    + apply table_get_NoDup; [done|]. do 4 (apply elem_of_cons; right).
      rewrite !elem_of_app. do 2 right. left. subst csr. apply list_elem_of_fmap. exists (Z.of_nat n). split; [done|].
      apply elem_of_py_range0. apply lookup_lt_Some in Ht.
      rewrite (resolved_length_tiles soc cfg Hinit) in Ht. lia.
    + intros Ha. apply Hget. unfold apb_tile_of. simpl. rewrite Ha.
      apply elem_of_app. left. by apply list_elem_of_singleton.
    + intros Hc Hm. apply Hget. unfold apb_tile_of. simpl. rewrite Hm, Hc.
      rewrite !elem_of_app. right. left. by apply list_elem_of_singleton.
    + intros Hc Hm. apply Hget. unfold apb_tile_of. simpl. rewrite Hm, Hc.
      rewrite !elem_of_app. right. right. by apply list_elem_of_singleton.
Qed.

Lemma X18_apb_tile_id_witness :
  exists tbl,
    apb_tile_id (resolved (soc_mixed ariane))
      (enum (soc_config.tiles (resolved (soc_mixed ariane)))) true true false
      = Ok tbl /\
    NoDup tbl.*1 /\ (4 ∉ tbl.*1).
Proof.
  destruct (X18_apb_tile_id (soc_mixed ariane) (resolved (soc_mixed ariane))
              true true false ltac:(vm_compute; reflexivity)
              ltac:(vm_compute; lia))
    as (tbl & H1 & H2 & H3 & _).
  exists tbl. split; [exact H1|]. split; [exact H2|exact H3].
Defined.

(** ** Register windows of the accelerators *)

Lemma for_range_cons {T B} (body : T -> Z -> outcome (B * T)) i idxs s :
  for_range body (i :: idxs) s
  = (r ← body s i; bs ← for_range body idxs r.2; Returned (r.1 :: bs)).
Proof. reflexivity. Qed.

(** A loop whose body succeeds at every index, the state at index [i]
    being [st i]. *)
Lemma for_range_closed {T B} (body : T -> Z -> outcome (B * T))
    (f : Z -> B) (st : Z -> T) (len : nat) a :
  (forall i, a <= i < a + Z.of_nat len ->
     body (st i) i = Returned (f i, st (i + 1))) ->
  for_range body (seqZ a (Z.of_nat len)) (st a)
  = Returned (f <$> seqZ a (Z.of_nat len)).
Proof.
  revert a. induction len as [|len IH]; intros a H; [done|].
  rewrite seqZ_cons by lia. rewrite for_range_cons, H by lia.
  replace (Z.pred (Z.of_nat (S len))) with (Z.of_nat len) by lia.
  replace (Z.succ a) with (a + 1) by lia.
  simpl. rewrite IH by (intros; apply H; lia). done.
Qed.

(** A loop whose body raises at index [k], after succeeding before. *)
Lemma for_range_threw {T B} (body : T -> Z -> outcome (B * T))
    (f : Z -> B) (st : Z -> T) e (len : nat) a k :
  (forall i, a <= i < k -> body (st i) i = Returned (f i, st (i + 1))) ->
  body (st k) k = Threw e ->
  a <= k < a + Z.of_nat len ->
  for_range body (seqZ a (Z.of_nat len)) (st a) = Threw e.
Proof.
  revert a. induction len as [|len IH]; intros a H He Hk; [lia|].
  rewrite seqZ_cons by lia. rewrite for_range_cons.
  replace (Z.pred (Z.of_nat (S len))) with (Z.of_nat len) by lia.
  replace (Z.succ a) with (a + 1) by lia.
  destruct (Z.eq_dec a k) as [->|Hne].
  - by rewrite He.
  - rewrite H by lia. simpl.
    rewrite IH; [done| |done|lia]. intros; apply H; lia.
Qed.

(** Every element a loop returns was returned by its body. *)
Lemma for_range_elem {T B} (body : T -> Z -> outcome (B * T)) idxs s bs b :
  for_range body idxs s = Returned bs -> b ∈ bs ->
  exists s' i r, i ∈ idxs /\ body s' i = Returned r /\ r.1 = b.
Proof.
  revert s bs. induction idxs as [|i idxs IH]; intros s bs H Hb.
  - injection H as <-. by apply elem_of_nil in Hb.
  - rewrite for_range_cons in H.
    destruct (body s i) as [r|] eqn:E; [|done]. simpl in H.
    destruct (for_range body idxs r.2) as [bs'|] eqn:E'; [|done].
    simpl in H. injection H as <-.
    apply elem_of_cons in Hb as [->|Hb].
    + exists s, i, r. split; [left|done].
    + destruct (IH _ _ E' Hb) as (s' & j & r' & Hj & Hr & Hb').
      exists s', j, r'. split; [by right|done].
Qed.

Lemma count_take_S {A} (p : A -> bool) (l : list A) k a :
  l !! k = Some a ->
  count p (take (S k) l) = count p (take k l) + (if p a then 1 else 0).
Proof. intros H. by rewrite (take_S_r _ _ _ H), count_snoc. Qed.

Lemma thirdparty_ext_window n :
  0 <= n ->
  Z.shiftr (THIRDPARTY_APB_EXT_ADDRESS + n * THIRDPARTY_APB_EXT_ADDRESS_SIZE) 20
    = 4 + n /\
  (THIRDPARTY_APB_EXT_ADDRESS + n * THIRDPARTY_APB_EXT_ADDRESS_SIZE =? 0) = false /\
  THIRDPARTY_APB_EXT_ADDRESS + n * THIRDPARTY_APB_EXT_ADDRESS_SIZE
    = Z.shiftl (4 + n) 20.
Proof.
  intros Hn. unfold THIRDPARTY_APB_EXT_ADDRESS, THIRDPARTY_APB_EXT_ADDRESS_SIZE.
  rewrite Z.shiftr_div_pow2, Z.shiftl_mul_pow2 by lia.
  change (2 ^ 20) with 1048576.
  replace (4194304 + n * 1048576) with ((4 + n) * 1048576) by lia.
  rewrite Z.div_mul by lia. repeat split. apply Z.eqb_neq. lia.
Qed.

Section AccWindows.
Variable cfg : soc_config.t.
Variable irq_types : string -> option string.
Variable compat : string -> option string.

Lemma acc_apb_body_sld n k a :
  soc_config.accelerators cfg !! k = Some a ->
  thirdparty_vendor a = false ->
  acc_apb_body cfg irq_types n (Z.of_nat k)
  = Returned (acc_apb.mk (acc_info.lowercase_name a) (acc_info.id a)
               (acc_info.idx a) (acc_info.irq a) "0"
                (SLD_APB_ADDR + acc_info.id a * 2) SLD_APB_ADDR_MSK 0 0 false,
              n).
Proof.
  intros Ha Hv. unfold acc_apb_body. rewrite (py_index_lookup _ _ _ Ha).
  unfold thirdparty_vendor in Hv. apply negb_false_iff in Hv.
  simpl. by rewrite Hv.
Qed.

Lemma acc_apb_body_thirdparty n k a :
  soc_config.accelerators cfg !! k = Some a ->
  thirdparty_vendor a = true -> 0 <= n ->
  acc_apb_body cfg irq_types n (Z.of_nat k)
  = match irq_types (acc_info.lowercase_name a) with
    | Some ty =>
        Returned (acc_apb.mk (acc_info.lowercase_name a) (acc_info.id a)
               (acc_info.idx a) (acc_info.irq a) ty
                    0 0 (4 + n) 0xfff true,
                  n + 1)
    | None => Threw (PyKeyError (acc_info.lowercase_name a))
    end.
Proof.
  intros Ha Hv Hn. unfold acc_apb_body. rewrite (py_index_lookup _ _ _ Ha).
  unfold thirdparty_vendor in Hv. apply negb_true_iff in Hv.
  destruct (thirdparty_ext_window n Hn) as (E1 & E2 & _).
  simpl. rewrite Hv.
  change (THIRDPARTY_APB_EXT_ADDRESS =? 0) with false. cbv beta iota.
  rewrite E1, E2. unfold py_getitem.
  by destruct (irq_types (acc_info.lowercase_name a)).
Qed.

Lemma devtree_acc_body_sld n k a :
  soc_config.accelerators cfg !! k = Some a ->
  thirdparty_vendor a = false ->
  devtree_acc_body cfg compat n (Z.of_nat k)
  = Returned (dt_node.mk (acc_info.lowercase_name a)
                (devtree_base cfg
                 + Z.shiftl (SLD_APB_ADDR + acc_info.id a * 2) 8) 0x200
                (acc_info.vendor a) (acc_info.lowercase_name a)
                (acc_info.irq a + 1) false,
              n).
Proof.
  intros Ha Hv. unfold devtree_acc_body. rewrite (py_index_lookup _ _ _ Ha).
  unfold thirdparty_vendor in Hv. apply negb_false_iff in Hv.
  simpl. by rewrite Hv.
Qed.

Lemma devtree_acc_body_thirdparty n k a :
  soc_config.accelerators cfg !! k = Some a ->
  thirdparty_vendor a = true ->
  devtree_acc_body cfg compat n (Z.of_nat k)
  = match compat (acc_info.lowercase_name a) with
    | Some c =>
        Returned (dt_node.mk (acc_info.lowercase_name a)
                    (devtree_base cfg + THIRDPARTY_APB_EXT_ADDRESS
                     + n * THIRDPARTY_APB_EXT_ADDRESS_SIZE)
                    THIRDPARTY_APB_EXT_ADDRESS_SIZE
                    (acc_info.vendor a) c (acc_info.irq a + 1)
                    (negb (soc_config.nmem cfg =? 0)),
                  n + 1)
    | None => Threw (PyKeyError (acc_info.lowercase_name a))
    end.
Proof.
  intros Ha Hv. unfold devtree_acc_body. rewrite (py_index_lookup _ _ _ Ha).
  unfold thirdparty_vendor in Hv. apply negb_true_iff in Hv.
  simpl. rewrite Hv.
  change (THIRDPARTY_APB_EXT_ADDRESS =? 0) with false. cbv beta iota.
  unfold py_getitem. by destruct (compat (acc_info.lowercase_name a)).
Qed.

(** The two accelerator loops run over the same indices with the same
    counter of third-party accelerators. *)
Lemma acc_loops_agree idxs n ws ns :
  0 <= n ->
  for_range (acc_apb_body cfg irq_types) idxs n = Returned ws ->
  for_range (devtree_acc_body cfg compat) idxs n = Returned ns ->
  Forall2 (same_window (devtree_base cfg)) ws ns.
Proof.
  revert n ws ns. induction idxs as [|i idxs IH]; intros n ws ns Hn Hw Hd.
  - injection Hw as <-. injection Hd as <-. constructor.
  - rewrite for_range_cons in Hw. rewrite for_range_cons in Hd.
    set (FW := for_range (acc_apb_body cfg irq_types) idxs) in *.
    set (FD := for_range (devtree_acc_body cfg compat) idxs) in *.
    unfold acc_apb_body in Hw. unfold devtree_acc_body in Hd.
    destruct (py_index (soc_config.accelerators cfg) i) as [a|e];
      [|destruct e; simpl in Hw; discriminate].
    simpl in Hw, Hd.
    change (THIRDPARTY_APB_EXT_ADDRESS =? 0) with false in Hw, Hd.
    cbv beta iota in Hw, Hd.
    destruct (String.eqb (acc_info.vendor a) "sld"); simpl in Hw, Hd.
      destruct (FW n) as [ws'|] eqn:Ew;
        [|done].
      destruct (FD n) as [ns'|] eqn:Ed;
        [|done].
      simpl in Hw, Hd. injection Hw as <-. injection Hd as <-.
      constructor; [|by apply (IH n)]. by repeat split.
    + unfold py_getitem in Hw, Hd.
      destruct (irq_types (acc_info.lowercase_name a)) as [ty|]; [|done].
      destruct (compat (acc_info.lowercase_name a)) as [c|]; [|done].
      simpl in Hw, Hd.
      destruct (FW (n + 1))
        as [ws'|] eqn:Ew; [|done].
      destruct (FD (n + 1))
        as [ns'|] eqn:Ed; [|done].
      simpl in Hw, Hd. injection Hw as <-. injection Hd as <-.
      destruct (thirdparty_ext_window n Hn) as (E1 & E2 & E3).
      constructor; [|apply (IH (n + 1)); [lia|done|done]].
      unfold same_window. simpl. rewrite E1, E2. simpl.
      rewrite <-E3. repeat split. lia.
Qed.

(** [THIRDPARTY_N] when the loop reaches index [i] *)
Lemma thirdparty_n_step k a :
  soc_config.accelerators cfg !! k = Some a ->
  count thirdparty_vendor
    (take (Z.to_nat (Z.of_nat k + 1)) (soc_config.accelerators cfg))
  = count thirdparty_vendor (take k (soc_config.accelerators cfg))
    + (if thirdparty_vendor a then 1 else 0).
Proof.
  intros Ha. replace (Z.to_nat (Z.of_nat k + 1)) with (S k) by lia.
  by apply count_take_S.
Qed.

(** The first [K] iterations of the accelerator loop of [print_mapping],
    when every third-party accelerator among them has an interrupt type. *)
Lemma acc_apb_body_steps (K : nat) :
  (forall j b, (j < K)%nat -> soc_config.accelerators cfg !! j = Some b ->
     thirdparty_vendor b = true ->
     is_Some (irq_types (acc_info.lowercase_name b))) ->
  exists f : Z -> acc_apb.t,
    (forall i, 0 <= i < Z.of_nat K ->
       i < Z.of_nat (length (soc_config.accelerators cfg)) ->
       acc_apb_body cfg irq_types
         (count thirdparty_vendor
            (take (Z.to_nat i) (soc_config.accelerators cfg))) i
       = Returned (f i,
                   count thirdparty_vendor
                     (take (Z.to_nat (i + 1)) (soc_config.accelerators cfg)))) /\
    (forall k a, (k < K)%nat -> soc_config.accelerators cfg !! k = Some a ->
       let w := f (Z.of_nat k) in
       acc_apb.name w = acc_info.lowercase_name a /\
       acc_apb.id w = acc_info.id a /\
       acc_apb.pindex w = acc_info.idx a /\ acc_apb.pirq w = acc_info.irq a /\
       if thirdparty_vendor a
       then acc_apb.paddr w = 0 /\ acc_apb.pmask w = 0 /\
            acc_apb.ext_bar w = true /\
            acc_apb.paddr_ext w
              = 4 + count thirdparty_vendor
                      (take k (soc_config.accelerators cfg)) /\
            acc_apb.pmask_ext w = 0xfff /\
            irq_types (acc_info.lowercase_name a) = Some (acc_apb.irq_type w)
       else acc_apb.paddr w = SLD_APB_ADDR + acc_info.id a * 2 /\
            acc_apb.pmask w = SLD_APB_ADDR_MSK /\
            acc_apb.ext_bar w = false /\
            acc_apb.paddr_ext w = 0 /\ acc_apb.pmask_ext w = 0 /\
            acc_apb.irq_type w = "0"%string).
Proof.
  intros Hd.
  set (accs := soc_config.accelerators cfg) in *.
  set (f := fun i : Z =>
    match accs !! Z.to_nat i with
    | Some a =>
        if thirdparty_vendor a
        then acc_apb.mk (acc_info.lowercase_name a) (acc_info.id a)
               (acc_info.idx a) (acc_info.irq a)
               (default ""%string (irq_types (acc_info.lowercase_name a)))
               0 0 (4 + count thirdparty_vendor (take (Z.to_nat i) accs))
               0xfff true
        else acc_apb.mk (acc_info.lowercase_name a) (acc_info.id a)
               (acc_info.idx a) (acc_info.irq a) "0"
               (SLD_APB_ADDR + acc_info.id a * 2) SLD_APB_ADDR_MSK 0 0 false
    | None => acc_apb.mk "" 0 0 0 "0" 0 0 0 0 false
    end).
  exists f. split.
  - intros i Hi Hlen.
    destruct (lookup_lt_is_Some_2 accs (Z.to_nat i) ltac:(lia)) as [a Ha].
    pose proof (thirdparty_n_step _ _ Ha) as Hstep. fold accs in Hstep.
    rewrite Z2Nat.id in Hstep by lia. rewrite Hstep.
    unfold f. rewrite Ha.
    replace i with (Z.of_nat (Z.to_nat i)) at 2 by lia.
    destruct (thirdparty_vendor a) eqn:Hv.
    + rewrite (acc_apb_body_thirdparty _ _ _ Ha Hv)
        by apply count_nonneg.
      destruct (Hd (Z.to_nat i) a ltac:(lia) Ha Hv) as [ty ->]. done.
    + rewrite (acc_apb_body_sld _ _ _ Ha Hv). by rewrite Z.add_0_r.
  - intros k a Hk Ha. simpl. unfold f. rewrite Nat2Z.id, Ha.
    destruct (thirdparty_vendor a) eqn:Hv; simpl; [|done].
    destruct (Hd k a Hk Ha Hv) as [ty ->]. done.
Qed.

Lemma acc_apb_windows_closed :
  soc_config.nacc cfg <= Z.of_nat (length (soc_config.accelerators cfg)) ->
  (forall j b, soc_config.accelerators cfg !! j = Some b ->
     thirdparty_vendor b = true ->
     is_Some (irq_types (acc_info.lowercase_name b))) ->
  exists ws,
    acc_apb_windows cfg irq_types = Returned ws /\
    length ws = Z.to_nat (soc_config.nacc cfg) /\
    forall k a w, soc_config.accelerators cfg !! k = Some a ->
      ws !! k = Some w ->
      acc_apb.name w = acc_info.lowercase_name a /\
       acc_apb.id w = acc_info.id a /\
       acc_apb.pindex w = acc_info.idx a /\ acc_apb.pirq w = acc_info.irq a /\
      if thirdparty_vendor a
      then acc_apb.paddr w = 0 /\ acc_apb.pmask w = 0 /\
           acc_apb.ext_bar w = true /\
           acc_apb.paddr_ext w
             = 4 + count thirdparty_vendor
                     (take k (soc_config.accelerators cfg)) /\
           acc_apb.pmask_ext w = 0xfff /\
           irq_types (acc_info.lowercase_name a) = Some (acc_apb.irq_type w)
      else acc_apb.paddr w = SLD_APB_ADDR + acc_info.id a * 2 /\
           acc_apb.pmask w = SLD_APB_ADDR_MSK /\
           acc_apb.ext_bar w = false /\
           acc_apb.paddr_ext w = 0 /\ acc_apb.pmask_ext w = 0 /\
           acc_apb.irq_type w = "0"%string.
Proof.
  intros Hlen Hd.
  destruct (acc_apb_body_steps (Z.to_nat (soc_config.nacc cfg)))
    as (f & Hf & Hp); [by eauto|].
  exists (f <$> seqZ 0 (Z.of_nat (Z.to_nat (soc_config.nacc cfg)))).
  split; [|split].
  - unfold acc_apb_windows. rewrite py_range0_to_nat.
    unfold py_range0, py_range. rewrite Z.sub_0_r.
    apply (for_range_closed (acc_apb_body cfg irq_types) f
             (fun i => count thirdparty_vendor
                         (take (Z.to_nat i) (soc_config.accelerators cfg)))).
    intros i Hi. apply Hf; lia.
  - by rewrite length_fmap, length_seqZ, Nat2Z.id.
  - intros k a w Ha Hw.
    apply list_lookup_fmap_Some in Hw as (i & -> & Hi).
    apply lookup_seqZ in Hi as [-> Hi]. rewrite Z.add_0_l.
    apply (Hp k a); [lia|done].
Qed.
End AccWindows.

(** X19. Whenever both functions get through their accelerator loops,
    the register region [print_devtree] declares for the i-th accelerator
    is the one [print_mapping] makes the I/O bus decode for it: it starts
    at the window address shifted to bytes above the bridge base, spans
    what the window's mask leaves open, and its interrupt is the
    accelerator's line plus one. *)
Theorem X19_devtree_matches_bus_windows (cfg : soc_config.t)
    (irq_types compat : string -> option string) ws ns :
  acc_apb_windows cfg irq_types = Returned ws ->
  devtree_accelerators cfg compat = Returned ns ->
  Forall2 (same_window (devtree_base cfg)) ws ns.
Proof.
  unfold acc_apb_windows, devtree_accelerators. intros Hw Hd.
  by apply (acc_loops_agree cfg irq_types compat
              (py_range0 (soc_config.nacc cfg)) 0 ws ns).
Qed.

Lemma X19_devtree_matches_bus_windows_witness :
  exists ws ns,
    acc_apb_windows (resolved (soc_mixed ariane)) (fun _ => Some "1"%string)
      = Returned ws /\
    devtree_accelerators (resolved (soc_mixed ariane)) (fun n => Some n)
      = Returned ns /\
    length ws = 2%nat /\
    Forall2 (same_window (devtree_base (resolved (soc_mixed ariane)))) ws ns.
Proof.
  destruct (acc_apb_windows (resolved (soc_mixed ariane))
              (fun _ => Some "1"%string)) as [ws|] eqn:Ew;
    [|vm_compute in Ew; discriminate].
  destruct (devtree_accelerators (resolved (soc_mixed ariane))
              (fun n => Some n)) as [ns|] eqn:En;
    [|vm_compute in En; discriminate].
  exists ws, ns. split; [reflexivity|]. split; [reflexivity|]. split.
  - vm_compute in Ew. injection Ew as <-. reflexivity.
  - exact (X19_devtree_matches_bus_windows _ _ _ ws ns Ew En).
Defined.

(** X20. For a resolved configuration whose reported accelerator count
    does not exceed the accelerator cells, and a dictionary that knows
    every third-party accelerator, [print_mapping] gets through the
    accelerator loop: accelerator [k] gets bus index [296 + k]; an [sld]
    accelerator gets the standard window [0x100 + 2k] with mask [0xffe]
    and no extended window; a third-party accelerator gets a standard
    window with mask 0 and the extended window [4 + n] with mask [0xfff],
    [n] counting the third-party accelerators before it.  No two
    accelerators get the same pair of windows. *)
Theorem X20_accelerator_windows (soc : soc.t) (cfg : soc_config.t)
    (irq_types : string -> option string) :
  soc_config_init soc = Ok cfg ->
  soc.get_acc_num soc <= count (sel_acc soc) (cells soc) ->
  (forall j b, soc_config.accelerators cfg !! j = Some b ->
     thirdparty_vendor b = true ->
     is_Some (irq_types (acc_info.lowercase_name b))) ->
  exists ws,
    acc_apb_windows cfg irq_types = Returned ws /\
    length ws = Z.to_nat (soc.get_acc_num soc) /\
    (forall k a w, soc_config.accelerators cfg !! k = Some a ->
       ws !! k = Some w ->
       acc_apb.pindex w = 296 + Z.of_nat k /\
       if thirdparty_vendor a
       then acc_apb.paddr w = 0 /\ acc_apb.pmask w = 0 /\
            acc_apb.ext_bar w = true /\
            acc_apb.paddr_ext w
              = 4 + count thirdparty_vendor
                      (take k (soc_config.accelerators cfg)) /\
            acc_apb.pmask_ext w = 0xfff
       else acc_apb.paddr w = 0x100 + 2 * Z.of_nat k /\
            acc_apb.pmask w = 0xffe /\ acc_apb.ext_bar w = false) /\
    (forall j k w v, j <> k -> ws !! j = Some w -> ws !! k = Some v ->
       (acc_apb.paddr w, acc_apb.paddr_ext w)
         <> (acc_apb.paddr v, acc_apb.paddr_ext v)).
Proof.
  intros Hinit Hacc Hd.
  pose proof (resolved_accelerators_len soc cfg Hinit) as Hlen.
  pose proof (f_equal soc_config.nacc (resolved_frozen soc cfg Hinit)) as Hn.
  simpl in Hn.
  destruct (acc_apb_windows_closed cfg irq_types ltac:(lia) Hd)
    as (ws & Hws & Hl & Hp).
  rewrite Hn in Hl.
  assert (forall k a w, soc_config.accelerators cfg !! k = Some a ->
            ws !! k = Some w ->
            acc_apb.pindex w = 296 + Z.of_nat k /\
            if thirdparty_vendor a
            then acc_apb.paddr w = 0 /\ acc_apb.pmask w = 0 /\
                 acc_apb.ext_bar w = true /\
                 acc_apb.paddr_ext w
                   = 4 + count thirdparty_vendor
                           (take k (soc_config.accelerators cfg)) /\
                 acc_apb.pmask_ext w = 0xfff
            else acc_apb.paddr w = 0x100 + 2 * Z.of_nat k /\
                 acc_apb.pmask w = 0xffe /\ acc_apb.ext_bar w = false) as Hq.
  { intros k a w Ha Hw. destruct (Hp k a w Ha Hw) as (_ & _ & Hi & _ & Hr).
    destruct (resolved_accelerators_ok soc cfg Hinit k a Ha) as (Eid & Eidx & _).
    rewrite Hi, Eidx. split; [done|].
    destruct (thirdparty_vendor a).
    - by destruct Hr as (? & ? & ? & ? & ? & _).
    - destruct Hr as (-> & -> & -> & _). rewrite Eid.
      unfold SLD_APB_ADDR, SLD_APB_ADDR_MSK. repeat split. lia. }
  exists ws. split; [done|]. split; [done|]. split; [exact Hq|].
  assert (forall j k w v, (j < k)%nat -> ws !! j = Some w -> ws !! k = Some v ->
            (acc_apb.paddr w, acc_apb.paddr_ext w)
              <> (acc_apb.paddr v, acc_apb.paddr_ext v)) as Hlt.
  { intros j k w v Hjk Hw Hv.
    destruct (lookup_lt_is_Some_2 (soc_config.accelerators cfg) j) as [a Ha].
    { apply lookup_lt_Some in Hw. lia. }
    destruct (lookup_lt_is_Some_2 (soc_config.accelerators cfg) k) as [b Hb].
    { apply lookup_lt_Some in Hv. lia. }
    destruct (Hq j a w Ha Hw) as [_ Hwa]. destruct (Hq k b v Hb Hv) as [_ Hvb].
    pose proof (count_nonneg thirdparty_vendor
                  (take j (soc_config.accelerators cfg))).
    destruct (thirdparty_vendor a) eqn:Ta, (thirdparty_vendor b) eqn:Tb.
    - destruct Hwa as (_ & _ & _ & E1 & _), Hvb as (_ & _ & _ & E2 & _).
      pose proof (count_take_strict thirdparty_vendor _ _ _ _ Hjk Ha Ta).
      intros [= _ E]. lia.
    - destruct Hwa as (E1 & _), Hvb as (E2 & _). intros [= E _]. lia.
    - destruct Hwa as (E1 & _), Hvb as (E2 & _). intros [= E _]. lia.
    - destruct Hwa as (E1 & _), Hvb as (E2 & _). intros [= E _]. lia. }
  intros j k w v Hne Hw Hv.
  destruct (Nat.lt_trichotomy j k) as [H|[H|H]]; [by eapply Hlt|done|].
  intros E. by eapply (Hlt k j v w H Hv Hw).
Qed.

Lemma X20_accelerator_windows_witness :
  exists ws,
    acc_apb_windows (resolved (soc_mixed ariane)) (fun _ => Some "1"%string)
      = Returned ws /\
    length ws = 2%nat.
Proof.
  destruct (X20_accelerator_windows (soc_mixed ariane)
              (resolved (soc_mixed ariane)) (fun _ => Some "1"%string)
              ltac:(vm_compute; reflexivity)
              ltac:(vm_compute; discriminate)
              ltac:(intros; eexists; reflexivity))
    as (ws & H1 & H2 & _).
  exists ws. split; [exact H1|exact H2].
Defined.

(** X21. [print_mapping] raises [KeyError] at the first third-party
    accelerator whose lower-case name is missing from
    [THIRDPARTY_IRQ_TYPE]; the key of the error is that name.  The
    dictionary is not consulted for [sld] accelerators. *)
Theorem X21_missing_irq_type (cfg : soc_config.t)
    (irq_types : string -> option string) (k : nat) (a : acc_info.t) :
  soc_config.accelerators cfg !! k = Some a ->
  Z.of_nat k < soc_config.nacc cfg ->
  thirdparty_vendor a = true ->
  irq_types (acc_info.lowercase_name a) = None ->
  (forall j b, (j < k)%nat -> soc_config.accelerators cfg !! j = Some b ->
     thirdparty_vendor b = true ->
     is_Some (irq_types (acc_info.lowercase_name b))) ->
  acc_apb_windows cfg irq_types
    = Threw (PyKeyError (acc_info.lowercase_name a)).
Proof.
  intros Ha Hk Hv Hnone Hd.
  destruct (acc_apb_body_steps cfg irq_types k Hd) as (f & Hf & _).
  pose proof (lookup_lt_Some _ _ _ Ha) as Hlt.
  unfold acc_apb_windows. rewrite py_range0_to_nat.
  unfold py_range0, py_range. rewrite Z.sub_0_r.
  apply (for_range_threw (acc_apb_body cfg irq_types) f
           (fun i => count thirdparty_vendor
                       (take (Z.to_nat i) (soc_config.accelerators cfg)))
           _ _ 0 (Z.of_nat k)).
  - intros i Hi. apply Hf; lia.
  - rewrite Nat2Z.id, (acc_apb_body_thirdparty cfg irq_types _ _ _ Ha Hv)
      by apply count_nonneg.
    by rewrite Hnone.
  - lia.
Qed.

Lemma X21_missing_irq_type_witness :
  acc_apb_windows (resolved (soc_mixed ariane)) (fun _ => None)
    = Threw (PyKeyError "gemm").
Proof.
  apply (X21_missing_irq_type (resolved (soc_mixed ariane)) (fun _ => None) 1
           (acc_info.mk "GEMM" "gemm" "acme" 1 297 6)).
  - vm_compute. reflexivity.
  - vm_compute. reflexivity.
  - vm_compute. reflexivity.
  - reflexivity.
  - intros j b Hj Hb Hv. destruct j as [|j]; [|lia].
    vm_compute in Hb. injection Hb as <-. vm_compute in Hv. discriminate.
Defined.

(** ** Reserved memory and cache regions of the device tree *)

(** X22. Whatever the configuration, the regions [print_devtree] declares
    under [reserved-memory] carry distinct labels, lie inside
    [0xA0000000, 0xC0000000) and never overlap: the accelerator pool
    shrinks by the size of the third-party pool exactly when the latter
    is placed behind it. *)
Theorem X22_reserved_regions_disjoint (cfg : soc_config.t) :
  NoDup (devtree_reserved cfg).*1 /\
  (forall l r, (l, r) ∈ devtree_reserved cfg ->
     0xA0000000 <= r.1 /\ 0 < r.2 /\ r.1 + r.2 <= 0xC0000000) /\
  (forall i j l r m s, i <> j ->
     devtree_reserved cfg !! i = Some (l, r) ->
     devtree_reserved cfg !! j = Some (m, s) ->
     disjoint_regions r s).
Proof.
  unfold devtree_reserved, disjoint_regions,
    ACC_MEM_RESERVED_START_ADDR, ACC_MEM_RESERVED_TOTAL_SIZE,
    THIRDPARTY_MEM_RESERVED_ADDR, THIRDPARTY_MEM_RESERVED_SIZE.
  destruct (soc_config.nmem cfg =? 0),
    (soc_config.nthirdparty cfg <? soc_config.nacc cfg),
    (0 <? soc_config.nthirdparty cfg); simpl.
  all: split; [|split].
  all: try (apply (bool_decide_unpack _); vm_compute; reflexivity).
  all: try (intros l r H;
            repeat (apply elem_of_cons in H as [[= -> ->]|H]; [simpl; lia|]);
            by apply elem_of_nil in H).
  all: intros i j l r m s Hne Hi Hj;
    destruct i as [|[|[|i]]]; destruct j as [|[|[|j]]];
    try done; simpl in Hi, Hj;
    injection Hi as <- <-; injection Hj as <- <-; simpl; lia.
Qed.

Lemma py_index_elem {A} (l : list A) i a : py_index l i = Ok a -> a ∈ l.
Proof.
  unfold py_index. destruct (_ && _); [|done].
  destruct (l !! _) as [b|] eqn:E; [|done].
  intros [= <-]. by eapply list_elem_of_lookup_2.
Qed.

Lemma count_elem_pos {A} (p : A -> bool) (l : list A) a :
  a ∈ l -> p a = true -> 0 < count p l.
Proof.
  intros [i Hi]%list_elem_of_lookup_1 Hp.
  pose proof (count_take_lt p l i a Hi Hp).
  pose proof (count_nonneg p (take i l)). lia.
Qed.

(** X23. In the device tree of a resolved configuration no accelerator
    node refers to a label that is not there: whenever a node carries
    [memory-region = <&thirdparty_reserved>], the [reserved-memory] node
    declares [thirdparty_reserved]. *)
Theorem X23_thirdparty_region_defined (soc : soc.t) (cfg : soc_config.t)
    (compat : string -> option string) (ns : list dt_node.t) (d : dt_node.t) :
  soc_config_init soc = Ok cfg ->
  devtree_accelerators cfg compat = Returned ns ->
  d ∈ ns -> dt_node.memory_region d = true ->
  exists r, ("thirdparty_reserved"%string, r) ∈ devtree_reserved cfg.
Proof.
  intros Hinit Hns Hd Hm.
  destruct (for_range_elem _ _ _ _ _ Hns Hd) as (n & i & r & _ & Hr & <-).
  unfold devtree_acc_body in Hr.
  destruct (py_index (soc_config.accelerators cfg) i) as [a|e] eqn:Ha;
    [|destruct e; simpl in Hr; discriminate].
  apply py_index_elem in Ha. simpl in Hr.
  destruct (String.eqb (acc_info.vendor a) "sld") eqn:Hv.
  { simpl in Hr. injection Hr as <-. simpl in Hm. discriminate. }
  change (THIRDPARTY_APB_EXT_ADDRESS =? 0) with false in Hr.
  cbv beta iota in Hr. unfold py_getitem in Hr.
  destruct (compat (acc_info.lowercase_name a)); [|done].
  simpl in Hr. injection Hr as <-. simpl in Hm.
  assert (0 < soc_config.nthirdparty cfg) as Hpos.
  { rewrite (resolved_nthirdparty soc cfg Hinit).
    apply (count_elem_pos _ _ a Ha). unfold thirdparty_vendor. by rewrite Hv. }
  unfold devtree_reserved. rewrite Hm.
  destruct (Z.ltb_spec 0 (soc_config.nthirdparty cfg)); [|lia].
  eexists. rewrite !elem_of_app. right. right.
  apply list_elem_of_singleton. reflexivity.
Qed.

Lemma X23_thirdparty_region_defined_witness :
  exists r, ("thirdparty_reserved"%string, r)
              ∈ devtree_reserved (resolved (soc_mixed ariane)).
Proof.
  apply (X23_thirdparty_region_defined (soc_mixed ariane)
           (resolved (soc_mixed ariane)) (fun n => Some n)
           [dt_node.mk "fft" 1610678272 512 "sld" "fft" 6 false;
            dt_node.mk "gemm" 1614807040 1048576 "acme" "gemm" 7 true]
           (dt_node.mk "gemm" 1614807040 1048576 "acme" "gemm" 7 true)).
  - vm_compute. reflexivity.
  - vm_compute. reflexivity.
  - right. left.
  - reflexivity.
Defined.

Lemma imap_take_seqZ {A B} (F : Z -> A) (G : Z -> A -> B) (m : Z) (n : nat) :
  Z.of_nat n <= m ->
  imap (fun k a => G (Z.of_nat k) a) (take n (F <$> seqZ 0 m))
  = (fun k => G k (F k)) <$> seqZ 0 (Z.of_nat n).
Proof.
  intros Hn. apply list_eq. intros i.
  rewrite list_lookup_imap, list_lookup_fmap.
  destruct (decide (i < n)%nat) as [Hi|Hi].
  - rewrite lookup_take_lt, list_lookup_fmap by done.
    rewrite !lookup_seqZ_lt by lia. simpl. by rewrite Z.add_0_l.
  - rewrite lookup_take_ge by lia. by rewrite lookup_seqZ_ge by lia.
Qed.

Lemma concat_singletons {A B} (f : A -> B) (l : list A) :
  concat ((fun a => [f a]) <$> l) = f <$> l.
Proof.
  induction l as [|a l IH]; [done|].
  rewrite !fmap_cons. simpl. by rewrite IH.
Qed.

Section CacheRegions.
Variable soc : soc.t.
Variable cfg : soc_config.t.
Hypothesis Hinit : soc_config_init soc = Ok cfg.

(** The loops over [l2s] that skip the caches off the I/O bus *)
Lemma l2_loop_closed {B} (g : cache_info.t -> B) :
  exists L,
    mapM (fun i => l2 ← py_index (soc_config.l2s cfg) i;
                   Ok (if negb (cache_info.idx l2 =? -1) then [g l2] else []))
      (py_range0 (soc_config.nl2 cfg)) = Ok L /\
    concat L = (fun k => g (cache_info.mk k (8 + k)))
                 <$> seqZ 0 (if coherent soc
                             then count sel_cpu (cells soc) else 0).
Proof.
  destruct (resolved_nl2 soc cfg Hinit) as [Hlen _].
  set (h := fun l2 : cache_info.t =>
              if negb (cache_info.idx l2 =? -1) then [g l2] else []).
  eexists. split.
  - rewrite (mapM_py_index _ (fun _ l2 => h l2)) by lia. done.
  - rewrite <-Hlen, Nat2Z.id, firstn_all.
    change (imap (fun _ a => h a) (soc_config.l2s cfg))
      with (imap (const h) (soc_config.l2s cfg)).
    rewrite imap_const.
    assert (forall l : list cache_info.t,
              concat (h <$> l) = g <$> List.filter on_io_bus l) as ->.
    { induction l as [|c l IH]; [done|]. rewrite fmap_cons. simpl.
      rewrite IH. unfold h, on_io_bus. by destruct (negb _). }
    by rewrite (resolved_l2s_on_bus soc cfg Hinit), <-list_fmap_compose.
Qed.

(** The loops over [llcs] *)
Lemma llc_loop_closed {B} (G : Z -> cache_info.t -> B) :
  soc.get_mem_num soc <= count sel_mem (cells soc) ->
  mapM (fun i => llc ← py_index (soc_config.llcs cfg) i; Ok (G i llc))
    (py_range0 (soc_config.nllc cfg))
  = Ok ((fun k => G k (cache_info.mk k (24 + k)))
          <$> seqZ 0 (if coherent soc then soc.get_mem_num soc else 0)).
Proof.
  intros Hmem.
  pose proof (resolved_llcs soc cfg Hinit) as Hl.
  pose proof (f_equal soc_config.nllc (resolved_frozen soc cfg Hinit)) as Hn.
  simpl in Hn.
  change (negb (soc.cache_en soc =? 0)) with (coherent soc) in Hn.
  pose proof (count_nonneg sel_mem (cells soc)) as Hnn.
  assert (soc_config.nllc cfg <= Z.of_nat (length (soc_config.llcs cfg))) as Hle.
  { rewrite Hl, length_fmap, length_seqZ, Hn. destruct (coherent soc); lia. }
  rewrite mapM_py_index by done. rewrite Hl.
  rewrite (imap_take_seqZ (fun k => cache_info.mk k (24 + k)) G).
  - pose proof (py_range0_to_nat (soc_config.nllc cfg)) as E.
    unfold py_range0, py_range in E. rewrite !Z.sub_0_r in E.
    by rewrite <-Hn, <-E.
  - rewrite Hn. destruct (coherent soc); lia.
Qed.
End CacheRegions.

(** X24. For a resolved configuration (reported memory count within the
    memory cells) the cache loops of [print_mapping] and [print_devtree]
    succeed and agree: private cache [k] of the CPUs gets the window
    [0xD0 + k], LLC split [k] the window [0xE0 + k], and the device tree
    declares each at the bridge base plus the window shifted to bytes.
    With at most 16 caches of each kind the two ranges of windows stay
    apart. *)
Theorem X24_cache_regions (soc : soc.t) (cfg : soc_config.t) :
  soc_config_init soc = Ok cfg ->
  soc.get_mem_num soc <= count sel_mem (cells soc) ->
  let ncpu := if coherent soc then count sel_cpu (cells soc) else 0 in
  let nllc := if coherent soc then soc.get_mem_num soc else 0 in
  l2_cache_paddr cfg = Ok ((fun k => (k, 0xD0 + k)) <$> seqZ 0 ncpu) /\
  devtree_l2 cfg
    = Ok ((fun k => (k, devtree_base cfg + Z.shiftl (0xD0 + k) 8))
            <$> seqZ 0 ncpu) /\
  llc_cache_paddr cfg = Ok ((fun k => (k, 0xE0 + k)) <$> seqZ 0 nllc) /\
  devtree_llc cfg
    = Ok ((fun k => (k, devtree_base cfg + Z.shiftl (0xE0 + k) 8))
            <$> seqZ 0 nllc) /\
  ncpu <= 16 /\ nllc <= 16.
Proof.
  intros Hinit Hmem ncpu nllc.
  split; [|split; [|split; [|split]]].
  - unfold l2_cache_paddr.
    destruct (l2_loop_closed soc cfg Hinit
                (fun l2 => (cache_info.id l2, 0xD0 + cache_info.idx l2 - 8)))
      as (L & -> & HL).
    rewrite bind_Ok_l, HL. f_equal. apply list_fmap_ext. intros _ k _. simpl.
    f_equal. lia.
  - unfold devtree_l2.
    destruct (l2_loop_closed soc cfg Hinit
                (fun l2 => (cache_info.id l2,
                            devtree_base cfg + 0xD000
                            + Z.shiftl (cache_info.idx l2 - 8) 8)))
      as (L & -> & HL).
    rewrite bind_Ok_l, HL. f_equal. apply list_fmap_ext. intros _ k _. simpl.
    f_equal. rewrite !Z.shiftl_mul_pow2 by lia. lia.
  - unfold llc_cache_paddr.
    rewrite (llc_loop_closed soc cfg Hinit
               (fun i llc => (i, 0xE0 + cache_info.idx llc - 24)) Hmem).
    f_equal. apply list_fmap_ext. intros _ k _. simpl. f_equal. lia.
  - unfold devtree_llc.
    rewrite (llc_loop_closed soc cfg Hinit
               (fun _ llc => if negb (cache_info.idx llc =? -1)
                             then [(cache_info.id llc,
                                    devtree_base cfg + 0xE000
                                    + Z.shiftl (cache_info.idx llc - 24) 8)]
                             else []) Hmem).
    rewrite bind_Ok_l. f_equal.
    rewrite <-(concat_singletons
                 (fun k => (k, devtree_base cfg + Z.shiftl (0xE0 + k) 8))).
    f_equal. apply list_fmap_ext. intros _ k Hk%list_elem_of_lookup_2.
    apply elem_of_seqZ in Hk. simpl.
    destruct (Z.eqb_spec (24 + k) (-1)); [lia|]. simpl.
    do 2 f_equal. rewrite !Z.shiftl_mul_pow2 by lia. lia.
  - pose proof (resolved_within_bands soc cfg Hinit) as Hw.
    pose proof (count_nonneg sel_mem (cells soc)).
    unfold within_bands in Hw. subst ncpu nllc.
    destruct (coherent soc); simpl in Hw; [|lia].
    apply andb_true_iff in Hw as [H1%Z.leb_le H2%Z.leb_le]. lia.
Qed.

Lemma X24_cache_regions_witness :
  l2_cache_paddr (resolved (soc_mixed ariane)) = Ok [(0, 0xD0)] /\
  devtree_llc (resolved (soc_mixed ariane)) = Ok [(0, 0x6000E000)].
Proof.
  destruct (X24_cache_regions (soc_mixed ariane) (resolved (soc_mixed ariane))
              ltac:(vm_compute; reflexivity) ltac:(vm_compute; discriminate))
    as (H1 & _ & _ & H4 & _).
  split; [exact H1|exact H4].
Defined.

(** ** Constants the tables over the tiles refer to *)

Lemma tile_apb_refs_names (l : list tile_info.t) :
  (tile_apb_refs (enum l)).*2
  = (fun a => (acc_info.lowercase_name a, acc_info.id a))
      <$> tiles_with (is_type ty_acc) tile_info.acc l.
Proof.
  induction l as [|t l IH] using rev_ind; [done|].
  rewrite enum_snoc, tiles_with_app. unfold tile_apb_refs in *.
  rewrite bind_app, !fmap_app, IH. f_equal.
  unfold tiles_with. rewrite !bind_cons. simpl.
  by destruct (is_type ty_acc t).
Qed.

(** X25. For a resolved configuration (reported accelerator count within
    the accelerator cells, dictionary knowing every third-party
    accelerator) the constants [<name>_<id>_...] that the accelerator loop
    of [print_mapping] declares are, in order, the first [nacc] of those
    the tables [tile_apb_idx], [tile_apb_paddr], ... refer to; no two
    references name the same constant.  So every reference is declared
    exactly when the reported count is the number of accelerator cells. *)
Theorem X25_tile_tables_reference_declared_constants
    (soc : soc.t) (cfg : soc_config.t) (irq_types : string -> option string) :
  soc_config_init soc = Ok cfg ->
  soc.get_acc_num soc <= count (sel_acc soc) (cells soc) ->
  (forall j b, soc_config.accelerators cfg !! j = Some b ->
     thirdparty_vendor b = true ->
     is_Some (irq_types (acc_info.lowercase_name b))) ->
  let refs := (tile_apb_refs (enum (soc_config.tiles cfg))).*2 in
  exists ws,
    acc_apb_windows cfg irq_types = Returned ws /\
    (fun w => (acc_apb.name w, acc_apb.id w)) <$> ws
      = take (Z.to_nat (soc.get_acc_num soc)) refs /\
    NoDup refs /\
    (soc.get_acc_num soc = count (sel_acc soc) (cells soc) ->
     (fun w => (acc_apb.name w, acc_apb.id w)) <$> ws = refs).
Proof.
  intros Hinit Hacc Hd refs.
  pose proof (resolved_accelerators_len soc cfg Hinit) as Hlen.
  pose proof (f_equal soc_config.nacc (resolved_frozen soc cfg Hinit)) as Hn.
  simpl in Hn.
  destruct (acc_apb_windows_closed cfg irq_types ltac:(lia) Hd)
    as (ws & Hws & Hl & Hp).
  rewrite Hn in Hl.
  assert (refs = (fun a => (acc_info.lowercase_name a, acc_info.id a))
                   <$> soc_config.accelerators cfg) as Hrefs.
  { subst refs.
    by rewrite tile_apb_refs_names, <-(resolved_accelerators soc cfg Hinit). }
  assert ((fun w => (acc_apb.name w, acc_apb.id w)) <$> ws
          = take (Z.to_nat (soc.get_acc_num soc)) refs) as Htake.
  { rewrite Hrefs. apply list_eq. intros k.
    rewrite list_lookup_fmap.
    destruct (decide (k < Z.to_nat (soc.get_acc_num soc))%nat) as [Hk|Hk].
    - rewrite lookup_take_lt, list_lookup_fmap by done.
      destruct (lookup_lt_is_Some_2 ws k ltac:(lia)) as [w Hw].
      destruct (lookup_lt_is_Some_2 (soc_config.accelerators cfg) k ltac:(lia))
        as [a Ha].
      rewrite Hw, Ha. simpl.
      by destruct (Hp k a w Ha Hw) as (-> & -> & _).
    - rewrite lookup_take_ge by lia.
      by rewrite (proj2 (lookup_ge_None ws k)) by lia. }
  exists ws. split; [done|]. split; [done|]. split.
  - rewrite Hrefs. apply (NoDup_fmap_1 snd). rewrite <-list_fmap_compose.
    assert (snd ∘ (fun a => (acc_info.lowercase_name a, acc_info.id a))
              <$> soc_config.accelerators cfg
            = seqZ 0 (Z.of_nat (length (soc_config.accelerators cfg)))) as ->;
      [|apply NoDup_seqZ].
    apply list_eq. intros k. rewrite list_lookup_fmap.
    destruct (soc_config.accelerators cfg !! k) as [a|] eqn:Ha; simpl.
    + destruct (resolved_accelerators_ok soc cfg Hinit k a Ha) as (-> & _).
      apply lookup_lt_Some in Ha. by rewrite lookup_seqZ_lt by lia.
    + apply lookup_ge_None in Ha. by rewrite lookup_seqZ_ge by lia.
  - intros Heq. rewrite Htake. apply take_ge.
    rewrite Hrefs, length_fmap. lia.
Qed.

Lemma X25_tile_tables_reference_declared_constants_witness :
  exists ws,
    acc_apb_windows (resolved (soc_mixed ariane)) (fun _ => Some "1"%string)
      = Returned ws /\
    (fun w => (acc_apb.name w, acc_apb.id w)) <$> ws
      = [("fft"%string, 0); ("gemm"%string, 1)].
Proof.
  destruct (X25_tile_tables_reference_declared_constants (soc_mixed ariane)
              (resolved (soc_mixed ariane)) (fun _ => Some "1"%string)
              ltac:(vm_compute; reflexivity)
              ltac:(vm_compute; discriminate)
              ltac:(intros; eexists; reflexivity))
    as (ws & H1 & _ & _ & H4).
  exists ws. split; [exact H1|].
  exact (H4 ltac:(vm_compute; reflexivity)).
Defined.

(** ** Round trips through the cross-reference tables *)

(** With an injective identifier that covers [0 .. n-1], the two tables
    answer for every owning tile and every identifier. *)
Lemma xref_round_trips (tiles : list tile_info.t) id sel n :
  (forall i t, tiles !! i = Some t -> sel t = has_id id t) ->
  (forall i j t u, tiles !! i = Some t -> tiles !! j = Some u ->
     id t <> -1 -> id t = id u -> i = j) ->
  (forall k, 0 <= k < n -> exists i t, tiles !! i = Some t /\ id t = k) ->
  round_trips id n tiles
    (xref_tile_id id (enum tiles)) (xref_id_tile sel id (enum tiles)).
Proof.
  intros Hsel Hinj Hdense.
  destruct (xref_inverse tiles id sel Hsel Hinj) as [Hfwd _].
  assert (forall i t, tiles !! i = Some t -> id t <> -1 ->
            table_get 0 (xref_tile_id id (enum tiles)) (Z.of_nat i) = id t /\
            table_get 0 (xref_id_tile sel id (enum tiles)) (id t) = Z.of_nat i)
    as Hown.
  { intros i t Ht Hne. apply Hfwd. apply elem_of_xref_tile_id.
    exists i, t. split; [by apply elem_of_enum|done]. }
  split; [exact Hown|].
  intros k Hk. destruct (Hdense k Hk) as (i & t & Ht & <-).
  destruct (Hown i t Ht ltac:(lia)) as [H1 H2].
  exists i, t. split; [done|]. split; [done|]. split; [done|].
  by rewrite H2.
Qed.

Section RoundTrips.
Variable soc : soc.t.
Variable cfg : soc_config.t.
Hypothesis Hinit : soc_config_init soc = Ok cfg.

Lemma l2_id_final n x y :
  l2_id (final_tile soc n x y) =
    let c := soc.topology soc x y in
    if sel_acc_l2 soc c && coherent soc
    then soc.get_cpu_num soc + count (sel_acc_l2 soc) (take n (cells soc))
    else if sel_cpu c && coherent soc
         then count sel_cpu (take n (cells soc)) else -1.
Proof.
  unfold l2_id, final_tile, resolved_tile. simpl.
  change (negb (soc.cache_en soc =? 0)) with (coherent soc).
  destruct (coherent soc); rewrite ?andb_true_r, ?andb_false_r; [|done].
  destruct (sel_acc_l2 soc _); [done|]. by destruct (sel_cpu _).
Qed.

(** The private-cache identifiers: those of the CPUs, then those of the
    accelerators with a private cache. *)
Lemma l2_id_dense :
  is_accelerator soc "cpu" = false ->
  soc.get_cpu_num soc = count sel_cpu (cells soc) ->
  forall k,
    0 <= k < (if coherent soc
              then count sel_cpu (cells soc) + count (sel_acc_l2 soc) (cells soc)
              else 0) ->
    exists i t, soc_config.tiles cfg !! i = Some t /\ l2_id t = k.
Proof.
  intros Hname Hncpu k Hk.
  destruct (coherent soc) eqn:Hcoh; [|lia].
  assert (exists n c, cells soc !! n = Some c /\
            ((sel_cpu c = true /\ count sel_cpu (take n (cells soc)) = k) \/
             (sel_acc_l2 soc c = true /\
              soc.get_cpu_num soc + count (sel_acc_l2 soc) (take n (cells soc))
                = k)))
    as (n & c & Hn & Hc).
  { destruct (Z.lt_ge_cases k (count sel_cpu (cells soc))) as [Hlt|Hge].
    - destruct (count_hits sel_cpu (cells soc) k ltac:(lia))
        as (n & c & Hn & Hp & Hcnt).
      exists n, c. split; [done|]. by left.
    - destruct (count_hits (sel_acc_l2 soc) (cells soc)
                  (k - count sel_cpu (cells soc)) ltac:(lia))
        as (n & c & Hn & Hp & Hcnt).
      exists n, c. split; [done|]. right. split; [done|]. lia. }
  assert (n < length (scan (soc.rows soc) (soc.cols soc)))%nat as Hlt.
  { apply lookup_lt_Some in Hn. by rewrite length_cells, <-length_scan in Hn. }
  destruct (lookup_lt_is_Some_2 _ _ Hlt) as [[x y] Hxy].
  exists n, (final_tile soc n x y).
  split; [by apply (resolved_tile_lookup soc cfg Hinit)|].
  rewrite l2_id_final. simpl.
  rewrite (cells_lookup soc _ _ _ Hxy) in Hn. injection Hn as <-.
  rewrite Hcoh, !andb_true_r.
  destruct Hc as [[Hp Hcnt]|[Hp Hcnt]].
  - destruct (sel_cpu_exclusive soc _ Hp) as (_ & _ & _ & _ & Hacc).
    unfold sel_acc_l2. rewrite Hacc, Hname. simpl. by rewrite Hp.
  - by rewrite Hp.
Qed.

Lemma llc_id_final n x y :
  llc_id (final_tile soc n x y) =
    if sel_mem (soc.topology soc x y) && coherent soc
    then count sel_mem (take n (cells soc)) else -1.
Proof.
  unfold llc_id, final_tile, resolved_tile. simpl.
  change (negb (soc.cache_en soc =? 0)) with (coherent soc).
  destruct (coherent soc); rewrite ?andb_true_r, ?andb_false_r; [|done].
  by destruct (sel_mem _).
Qed.

Lemma llc_id_dense k :
  0 <= k < (if coherent soc then count sel_mem (cells soc) else 0) ->
  exists i t, soc_config.tiles cfg !! i = Some t /\ llc_id t = k.
Proof.
  intros Hk. destruct (coherent soc) eqn:Hcoh; [|lia].
  assert (forall n x y,
            scan (soc.rows soc) (soc.cols soc) !! n = Some (x, y) ->
            llc_id (final_tile soc n x y) =
              if sel_mem (soc.topology soc x y)
              then count sel_mem (take n (cells soc)) else -1) as Hid.
  { intros n x y _. by rewrite llc_id_final, Hcoh, andb_true_r. }
  by apply (proj2 (counted_id_dense soc cfg Hinit sel_mem llc_id Hid)).
Qed.
End RoundTrips.

(** C7. For a topology whose counting helper reports the CPU tiles it
    declares and whose accelerator role names do not include "cpu", the
    tile-to-identifier and identifier-to-tile tables of every category are
    mutual inverses on their defined domains, and the domains are what
    the resolution handed out: every tile that owns a component is read
    back from its identifier, and each of the identifiers [0 .. n-1] of
    the category, looked up in the one table and then in the other,
    yields itself. *)
Theorem C7_cross_reference_tables (soc : soc.t) (cfg : soc_config.t) :
  soc_config_init soc = Ok cfg ->
  is_accelerator soc "cpu" = false ->
  soc.get_cpu_num soc = count sel_cpu (cells soc) ->
  let tiles := soc_config.tiles cfg in
  let ncpu := count sel_cpu (cells soc) in
  let nmem := count sel_mem (cells soc) in
  let ncache :=
    if coherent soc then ncpu + count (sel_acc_l2 soc) (cells soc) else 0 in
  let nllc := if coherent soc then nmem else 0 in
  exists ts,
    tiles_enum cfg = Ok ts /\
    (mutual_inverse (tile_cpu_id ts) (cpu_tile_id ts) /\
     round_trips tile_info.cpu_id ncpu tiles (tile_cpu_id ts) (cpu_tile_id ts)) /\
    (mutual_inverse (tile_cache_id ts) (cache_tile_id ts) /\
     round_trips l2_id ncache tiles (tile_cache_id ts) (cache_tile_id ts)) /\
    (mutual_inverse (tile_llc_id ts) (llc_tile_id ts) /\
     round_trips llc_id nllc tiles (tile_llc_id ts) (llc_tile_id ts)) /\
    (mutual_inverse (tile_mem_id ts) (mem_tile_id ts) /\
     round_trips tile_info.mem_id nmem tiles (tile_mem_id ts) (mem_tile_id ts)) /\
    (mutual_inverse (tile_slm_id ts) (slm_tile_id ts) /\
     round_trips tile_info.slm_id (count sel_slm (cells soc)) tiles
       (tile_slm_id ts) (slm_tile_id ts)) /\
    (mutual_inverse (tile_slmddr_id ts) (slmddr_tile_id ts) /\
     round_trips tile_info.slmddr_id (count sel_slmddr (cells soc)) tiles
       (tile_slmddr_id ts) (slmddr_tile_id ts)) /\
    (mutual_inverse (tile_acc_id ts) (acc_tile_id ts) /\
     round_trips acc_id (count (sel_acc soc) (cells soc)) tiles
       (tile_acc_id ts) (acc_tile_id ts)).
Proof.
  intros Hinit Hname Hncpu tiles ncpu nmem ncache nllc.
  exists (enum (soc_config.tiles cfg)).
  split; [by eapply resolved_tiles_enum|].
  pose proof (counted_id_inj soc cfg Hinit) as Hinj.
  pose proof (fun p id H => proj2 (counted_id_dense soc cfg Hinit p id H))
    as Hdense.
  assert (forall n x y,
            scan (soc.rows soc) (soc.cols soc) !! n = Some (x, y) ->
            acc_id (final_tile soc n x y) =
              if sel_acc soc (soc.topology soc x y)
              then count (sel_acc soc) (take n (cells soc)) else -1) as Hacc.
  { intros n x y _. apply acc_id_final. }
  refine (conj _ (conj _ (conj _ (conj _ (conj _ (conj _ _)))))).
  - split.
    + apply xref_inverse.
      * intros n t Ht. by eapply cpu_type_iff_id.
      * by apply (Hinj sel_cpu).
    + apply xref_round_trips.
      * intros n t Ht. by eapply cpu_type_iff_id.
      * by apply (Hinj sel_cpu).
      * by apply (Hdense sel_cpu).
  - split.
    + apply xref_inverse; [done|]. by apply (l2_id_inj soc cfg Hinit).
    + apply xref_round_trips; [done| |].
      * by apply (l2_id_inj soc cfg Hinit).
      * by apply (l2_id_dense soc cfg Hinit).
  - split.
    + apply xref_inverse; [done|]. by apply (llc_id_inj soc cfg Hinit).
    + apply xref_round_trips; [done| |].
      * by apply (llc_id_inj soc cfg Hinit).
      * by apply (llc_id_dense soc cfg Hinit).
  - split.
    + apply xref_inverse; [done|]. by apply (Hinj sel_mem).
    + apply xref_round_trips; [done| |].
      * by apply (Hinj sel_mem).
      * by apply (Hdense sel_mem).
  - split.
    + apply xref_inverse; [done|]. by apply (Hinj sel_slm).
    + apply xref_round_trips; [done| |].
      * by apply (Hinj sel_slm).
      * by apply (Hdense sel_slm).
  - split.
    + apply xref_inverse; [done|]. by apply (Hinj sel_slmddr).
    + apply xref_round_trips; [done| |].
      * by apply (Hinj sel_slmddr).
      * by apply (Hdense sel_slmddr).
  - split.
    + apply xref_inverse; [done|]. by apply (Hinj (sel_acc soc)).
    + apply xref_round_trips; [done| |].
      * by apply (Hinj (sel_acc soc)).
      * by apply (Hdense (sel_acc soc)).
Qed.

Lemma C7_cross_reference_tables_witness :
  exists ts,
    tiles_enum (resolved (soc_mixed ariane)) = Ok ts /\
    length ts = 6%nat /\
    table_get 0 (tile_acc_id ts) 2 = 1 /\
    table_get 0 (acc_tile_id ts) 1 = 2 /\
    table_get 0 (tile_cache_id ts) 1 = 1 /\
    table_get 0 (cache_tile_id ts) 1 = 1 /\
    table_get 0 (tile_mem_id ts) 4 = 0 /\
    table_get 0 (mem_tile_id ts) 0 = 4 /\
    table_get 0 (tile_slm_id ts) (table_get 0 (slm_tile_id ts) 0) = 0.
Proof.
  destruct (C7_cross_reference_tables (soc_mixed ariane)
              (resolved (soc_mixed ariane))
              ltac:(vm_compute; reflexivity) ltac:(vm_compute; reflexivity)
              ltac:(vm_compute; reflexivity))
    as (ts & Hts & _ & (_ & Hcache & _) & _ & (_ & Hmem & _) &
        (_ & _ & Hslm) & _ & (_ & Hacc & _)).
  exists ts. split; [exact Hts|]. split.
  { vm_compute in Hts. injection Hts as <-. reflexivity. }
  assert (forall i, (i < 6)%nat ->
            exists t, soc_config.tiles (resolved (soc_mixed ariane)) !! i = Some t)
    as Hlook.
  { intros i Hi. apply lookup_lt_is_Some_2. vm_compute. lia. }
  split; [|split; [|split; [|split; [|split; [|split]]]]].
  - destruct (Hlook 2%nat ltac:(lia)) as [t Ht].
    assert (acc_id t = 1) as E
      by (vm_compute in Ht; injection Ht as <-; reflexivity).
    destruct (Hacc 2%nat t Ht ltac:(lia)) as [H _]. rewrite E in H. exact H.
  - destruct (Hlook 2%nat ltac:(lia)) as [t Ht].
    assert (acc_id t = 1) as E
      by (vm_compute in Ht; injection Ht as <-; reflexivity).
    destruct (Hacc 2%nat t Ht ltac:(lia)) as [_ H]. rewrite E in H. exact H.
  - destruct (Hlook 1%nat ltac:(lia)) as [t Ht].
    assert (l2_id t = 1) as E
      by (vm_compute in Ht; injection Ht as <-; reflexivity).
    destruct (Hcache 1%nat t Ht ltac:(lia)) as [H _]. rewrite E in H. exact H.
  - destruct (Hlook 1%nat ltac:(lia)) as [t Ht].
    assert (l2_id t = 1) as E
      by (vm_compute in Ht; injection Ht as <-; reflexivity).
    destruct (Hcache 1%nat t Ht ltac:(lia)) as [_ H]. rewrite E in H. exact H.
  - destruct (Hlook 4%nat ltac:(lia)) as [t Ht].
    assert (tile_info.mem_id t = 0) as E
      by (vm_compute in Ht; injection Ht as <-; reflexivity).
    destruct (Hmem 4%nat t Ht ltac:(lia)) as [H _]. rewrite E in H. exact H.
  - destruct (Hlook 4%nat ltac:(lia)) as [t Ht].
    assert (tile_info.mem_id t = 0) as E
      by (vm_compute in Ht; injection Ht as <-; reflexivity).
    destruct (Hmem 4%nat t Ht ltac:(lia)) as [_ H]. rewrite E in H. exact H.
  - destruct (Hslm 0 ltac:(vm_compute; split; [discriminate|reflexivity]))
      as (_ & _ & _ & _ & _ & H). exact H.
Defined.
